(** * Poetry's [self update] command: a shallow embedding and its properties

    The development follows [src/poetry/console/commands/self/update.py].
    Python's effects are written in a small state-and-exception monad [M]
    over a model of the installation directories; the collaborators the
    command talks to (release index, HTTP server, [hashlib], [tarfile],
    sub-processes, process environment) are gathered in a record [World].

    Conventions of the model:
    - the text of paths, header values, versions and the module's own
      literals is a [string] of code points below 256; text decoded from
      bytes is a [text], a list of Unicode code points, and decoding is
      strict UTF-8;
    - a directory is a finite map from the relative paths of its regular
      files to their contents and modes;
    - [shutil.rmtree] and [shutil.copytree] may fail half way: the state
      carries a script of I/O failures, and the properties hold for every
      script;
    - every network, process and file-system operation is recorded, with the
      file system as it was when the operation began. *)

From Stdlib Require Import ZArith NArith Ascii String List Lia.
From stdpp Require Import base strings list gmap pretty.

Local Open Scope Z_scope.

(** ** Python text (code points below 256) *)

Module Py.

Definition code (c : ascii) : N := N_of_ascii c.

Definition in_range (lo hi : N) (c : ascii) : bool :=
  ((lo <=? code c) && (code c <=? hi))%N.

(** [str.isspace] on code points below 256. *)
Definition is_space (c : ascii) : bool :=
  in_range 9 13 c || in_range 28 32 c || (code c =? 133)%N || (code c =? 160)%N.

(** [\d] : the decimal digits below code point 256 are the ASCII ones. *)
Definition is_digit (c : ascii) : bool := in_range 48 57 c.

Definition digit_value (c : ascii) : Z := Z.of_N (code c) - 48.

(** [str.lower], character by character. *)
Definition lower_char (c : ascii) : ascii :=
  if in_range 65 90 c || in_range 192 214 c || in_range 216 222 c
  then ascii_of_N (code c + 32) else c.

Fixpoint lower (s : string) : string :=
  match s with
  | EmptyString => EmptyString
  | String c s' => String (lower_char c) (lower s')
  end.

Fixpoint lstrip (s : string) : string :=
  match s with
  | EmptyString => EmptyString
  | String c s' => if is_space c then lstrip s' else s
  end.

Fixpoint rstrip (s : string) : string :=
  match s with
  | EmptyString => EmptyString
  | String c s' =>
      match rstrip s' with
      | EmptyString => if is_space c then EmptyString else String c EmptyString
      | r => String c r
      end
  end.

(** [str.strip()] *)
Definition strip (s : string) : string := rstrip (lstrip s).

(** [str.replace(old, new)]: leftmost, non-overlapping occurrences.
    [skip] counts the characters of a just-replaced occurrence that are
    still to be dropped. *)
Fixpoint replace_from (skip : nat) (old new s : string) : string :=
  match s with
  | EmptyString => EmptyString
  | String c s' =>
      match skip with
      | S k => replace_from k old new s'
      | O =>
          if String.prefix old s
          then new +:+ replace_from (String.length old - 1) old new s'
          else String c (replace_from O old new s')
      end
  end.

Fixpoint intersperse_before (new s : string) : string :=
  match s with
  | EmptyString => EmptyString
  | String c s' => new +:+ String c (intersperse_before new s')
  end.

Definition replace (old new s : string) : string :=
  match old with
  | EmptyString => intersperse_before new s +:+ new
  | _ => replace_from O old new s
  end.

(** [int(s)] for a string: surrounding white space, an optional sign and
    decimal digits, single underscores allowed between digits. *)
Fixpoint int_digits (acc : Z) (after_digit : bool) (s : string) : option Z :=
  match s with
  | EmptyString => if after_digit then Some acc else None
  | String c s' =>
      if is_digit c then int_digits (10 * acc + digit_value c) true s'
      else if (code c =? 95)%N && after_digit then int_digits acc false s'
      else None
  end.

Definition int (s : string) : option Z :=
  match strip s with
  | String "-" s' => Z.opp <$> int_digits 0 false s'
  | String "+" s' => int_digits 0 false s'
  | s' => int_digits 0 false s'
  end.

End Py.

(** ** Unicode text: what decoding bytes gives *)

(** What the command uses of the interpreter's Unicode database: the value
    of a code point beyond ASCII that is a decimal digit (category [Nd],
    [unicodedata.decimal]). *)
Class UnicodeData := { u_decimal : N -> option N }.

Module Unicode.

(** A [str], as its code points. *)
Definition text := list N.

Fixpoint of_string (s : string) : text :=
  match s with
  | EmptyString => []
  | String c s' => Py.code c :: of_string s'
  end.

Definition between (lo hi c : N) : bool := ((lo <=? c) && (c <=? hi))%N.

(** The second byte of a three-byte sequence: no overlong form, no
    surrogate. *)
Definition second_of_three (b0 b1 : N) : bool :=
  if (b0 =? 224)%N then between 160 191 b1
  else if (b0 =? 237)%N then between 128 159 b1
  else between 128 191 b1.

(** The second byte of a four-byte sequence: no overlong form, nothing
    beyond U+10FFFF. *)
Definition second_of_four (b0 b1 : N) : bool :=
  if (b0 =? 240)%N then between 144 191 b1
  else if (b0 =? 244)%N then between 128 143 b1
  else between 128 191 b1.

(** Strict UTF-8 on the values of the bytes; [None] where Python raises
    [UnicodeDecodeError]. *)
Fixpoint decode_codes (l : list N) : option text :=
  match l with
  | [] => Some []
  | b0 :: l1 =>
      if (b0 <? 128)%N then cons b0 <$> decode_codes l1
      else if between 194 223 b0 then
        match l1 with
        | b1 :: l2 =>
            if between 128 191 b1
            then cons ((b0 - 192) * 64 + (b1 - 128))%N <$> decode_codes l2
            else None
        | _ => None
        end
      else if between 224 239 b0 then
        match l1 with
        | b1 :: b2 :: l3 =>
            if second_of_three b0 b1 && between 128 191 b2
            then cons ((b0 - 224) * 4096 + (b1 - 128) * 64 + (b2 - 128))%N
                   <$> decode_codes l3
            else None
        | _ => None
        end
      else if between 240 244 b0 then
        match l1 with
        | b1 :: b2 :: b3 :: l4 =>
            if second_of_four b0 b1 && between 128 191 b2 && between 128 191 b3
            then cons ((b0 - 240) * 262144 + (b1 - 128) * 4096
                       + (b2 - 128) * 64 + (b3 - 128))%N
                   <$> decode_codes l4
            else None
        | _ => None
        end
      else None
  end.

(** [bytes.decode()], [bytes.decode("utf-8")] *)
Definition decode (data : list Byte.byte) : option text :=
  decode_codes (map Byte.to_N data).

(** [str.isspace], character by character. *)
Definition is_space (c : N) : bool :=
  between 9 13 c || between 28 32 c || (c =? 133)%N || (c =? 160)%N
  || (c =? 5760)%N || between 8192 8202 c || (c =? 8232)%N || (c =? 8233)%N
  || (c =? 8239)%N || (c =? 8287)%N || (c =? 12288)%N.

Fixpoint lstrip (s : text) : text :=
  match s with
  | [] => []
  | c :: s' => if is_space c then lstrip s' else s
  end.

Fixpoint rstrip (s : text) : text :=
  match s with
  | [] => []
  | c :: s' =>
      match rstrip s' with
      | [] => if is_space c then [] else [c]
      | r => c :: r
      end
  end.

(** [str.strip()] *)
Definition strip (s : text) : text := rstrip (lstrip s).

(** The decimal value of a digit: the ASCII digits, and beyond ASCII what
    the Unicode database says; no white-space character is a digit. *)
Definition decimal `{UnicodeData} (c : N) : option N :=
  if (c <? 128)%N
  then (if between 48 57 c then Some (c - 48)%N else None)
  else if is_space c then None
  else u_decimal c.

(** [\d] *)
Definition is_digit `{UnicodeData} (c : N) : bool :=
  match decimal c with
  | Some _ => true
  | None => false
  end.

(** [int(s)] for a [str]: surrounding white space, an optional sign and
    decimal digits, single underscores allowed between digits. *)
Fixpoint int_digits `{UnicodeData} (acc : Z) (after_digit : bool) (s : text) : option Z :=
  match s with
  | [] => if after_digit then Some acc else None
  | c :: s' =>
      match decimal c with
      | Some d => int_digits (10 * acc + Z.of_N d) true s'
      | None =>
          if (c =? 95)%N && after_digit then int_digits acc false s'
          else None
      end
  end.

Definition int `{UnicodeData} (s : text) : option Z :=
  match strip s with
  | c :: s' =>
      if (c =? 45)%N then Z.opp <$> int_digits 0 false s'
      else if (c =? 43)%N then int_digits 0 false s'
      else int_digits 0 false (c :: s')
  | [] => None
  end.

End Unicode.

Abbreviation text := Unicode.text.

(** The module's own literals and other texts below code point 256, where
    a [text] is expected. *)
Coercion Unicode.of_string : string >-> Unicode.text.

(** ** Exceptions *)

(** The directories of the installation ([home/lib], [home/lib-backup],
    [home/bin]) and the private temporary directory of one download. *)
Inductive dir := Lib | LibBackup | Bin | Tmp.

Inductive exn :=
| RuntimeError (msg : text)
| HTTPError (code : Z)
| URLError (reason : string)
| IncompleteRead
| UnicodeDecodeError
| TypeError (msg : string)
| ValueError (msg : string)
| KeyError (key : string)
| FileExistsError (d : dir)
| FileNotFoundError (d : dir)
| OSError (msg : string)
| TarError (msg : string)
| PoetrySimpleConsoleException (msg : string).

(** ** The file system *)

Record file := { f_data : list Byte.byte; f_mode : Z }.

(** A directory tree: relative path of each regular file to the file. *)
Abbreviation tree := (gmap string file).

Record fs := {
  fs_lib : option tree;
  fs_lib_backup : option tree;
  fs_bin : option tree;
  fs_tmp : option tree;
}.

Definition fs_get (d : dir) (f : fs) : option tree :=
  match d with
  | Lib => fs_lib f
  | LibBackup => fs_lib_backup f
  | Bin => fs_bin f
  | Tmp => fs_tmp f
  end.

Definition fs_set (d : dir) (t : option tree) (f : fs) : fs :=
  match d with
  | Lib => {| fs_lib := t; fs_lib_backup := fs_lib_backup f; fs_bin := fs_bin f; fs_tmp := fs_tmp f |}
  | LibBackup => {| fs_lib := fs_lib f; fs_lib_backup := t; fs_bin := fs_bin f; fs_tmp := fs_tmp f |}
  | Bin => {| fs_lib := fs_lib f; fs_lib_backup := fs_lib_backup f; fs_bin := t; fs_tmp := fs_tmp f |}
  | Tmp => {| fs_lib := fs_lib f; fs_lib_backup := fs_lib_backup f; fs_bin := fs_bin f; fs_tmp := t |}
  end.

(** ** Observable operations and the program state *)

Inductive op :=
| OpFindPackages (constraint : string) (allows_prereleases : bool)
| OpUrlopen (url : string)
| OpSubprocess (cmd : string)
| OpRmtree (d : dir)
| OpCopytree (src dst : dir)
| OpMkdtemp
| OpMkdir (d : dir)
| OpWrite (d : dir) (name : string)
| OpChmod (d : dir) (name : string)
| OpExtract (d : dir).

Inductive bar_event :=
| BarStart (max : Z)
| BarProgress (current : Z)
| BarFinish.

(** [st_trace] records every network, process and file-system operation in
    order, each with the file system as it was when the operation began.
    [st_faults] scripts the I/O failures of the [shutil] calls: each call
    consumes one entry; [Some n] makes it fail after [n] files. *)
Record state := {
  st_fs : fs;
  st_out : list string;
  st_bar : list bar_event;
  st_trace : list (op * fs);
  st_faults : list (option nat);
}.

Definition with_fs (f : fs) (s : state) : state :=
  {| st_fs := f; st_out := st_out s; st_bar := st_bar s;
     st_trace := st_trace s; st_faults := st_faults s |}.

Definition with_out (o : list string) (s : state) : state :=
  {| st_fs := st_fs s; st_out := o; st_bar := st_bar s;
     st_trace := st_trace s; st_faults := st_faults s |}.

Definition with_bar (b : list bar_event) (s : state) : state :=
  {| st_fs := st_fs s; st_out := st_out s; st_bar := b;
     st_trace := st_trace s; st_faults := st_faults s |}.

Definition with_trace (t : list (op * fs)) (s : state) : state :=
  {| st_fs := st_fs s; st_out := st_out s; st_bar := st_bar s;
     st_trace := t; st_faults := st_faults s |}.

Definition with_faults (l : list (option nat)) (s : state) : state :=
  {| st_fs := st_fs s; st_out := st_out s; st_bar := st_bar s;
     st_trace := st_trace s; st_faults := l |}.

(** ** The monad: state passing with Python exceptions *)

Inductive outcome (A : Type) :=
| Return (a : A)
| Raise (e : exn).
Arguments Return {A} a.
Arguments Raise {A} e.

Definition M (A : Type) : Type := state -> outcome A * state.

Definition ret {A} (a : A) : M A := fun s => (Return a, s).

Definition raise {A} (e : exn) : M A := fun s => (Raise e, s).

Definition bind {A B} (m : M A) (k : A -> M B) : M B :=
  fun s =>
    match m s with
    | (Return a, s') => k a s'
    | (Raise e, s') => (Raise e, s')
    end.

Notation "x <- m ;; k" := (bind m (fun x => k))
  (at level 100, m at next level, right associativity).
Notation "m ;; k" := (bind m (fun _ => k))
  (at level 100, right associativity).

Definition when (b : bool) (m : M unit) : M unit :=
  if b then m else ret tt.

(** [try: body / except Exception as e: handler e / finally: final].
    The handler runs on any exception of the body; the final block runs in
    every case, and an exception of its own replaces the pending one. *)
Definition try_except_finally {A} (body : M A) (handler : exn -> M A) (final : M unit) : M A :=
  fun s =>
    let r := match body s with
             | (Return a, s1) => (Return a, s1)
             | (Raise e, s1) => handler e s1
             end in
    match final (snd r) with
    | (Return _, s2) => (fst r, s2)
    | (Raise e', s2) => (Raise e', s2)
    end.

(** [try: body / finally: final] *)
Definition try_finally {A} (body : M A) (final : M unit) : M A :=
  try_except_finally body raise final.

Definition get_fs : M fs := fun s => (Return (st_fs s), s).

Definition put_fs (f : fs) : M unit := fun s => (Return tt, with_fs f s).

Definition log (o : op) : M unit :=
  fun s => (Return tt, with_trace (st_trace s ++ [(o, st_fs s)]) s).

(** [Command.line] *)
Definition line (text : string) : M unit :=
  fun s => (Return tt, with_out (st_out s ++ [text]) s).

Definition bar_emit (e : bar_event) : M unit :=
  fun s => (Return tt, with_bar (st_bar s ++ [e]) s).

Definition pop_fault : M (option nat) :=
  fun s =>
    match st_faults s with
    | [] => (Return None, s)
    | f :: rest => (Return f, with_faults rest s)
    end.

(** ** [pathlib] and [shutil] on the modelled directories *)

(** [Path.exists()] *)
Definition exists_ (d : dir) : M bool :=
  f <- get_fs ;; ret (bool_decide (is_Some (fs_get d f))).

Definition put_dir (d : dir) (t : option tree) : M unit :=
  f <- get_fs ;; put_fs (fs_set d t f).

Definition first_files (n : nat) (t : tree) : tree := list_to_map (take n (map_to_list t)).

Definition other_files (n : nat) (t : tree) : tree := list_to_map (drop n (map_to_list t)).

(** [shutil.rmtree(d)] *)
Definition rmtree (d : dir) : M unit :=
  log (OpRmtree d) ;;
  f <- get_fs ;;
  match fs_get d f with
  | None => raise (FileNotFoundError d)
  | Some t =>
      fault <- pop_fault ;;
      match fault with
      | None => put_dir d None
      | Some n => put_dir d (Some (other_files n t)) ;; raise (OSError "rmtree")
      end
  end.

(** [shutil.copytree(src, dst)]: the destination must not exist. *)
Definition copytree (src dst : dir) : M unit :=
  log (OpCopytree src dst) ;;
  f <- get_fs ;;
  match fs_get src f with
  | None => raise (FileNotFoundError src)
  | Some t =>
      match fs_get dst f with
      | Some _ => raise (FileExistsError dst)
      | None =>
          fault <- pop_fault ;;
          match fault with
          | None => put_dir dst (Some t)
          | Some n => put_dir dst (Some (first_files n t)) ;; raise (OSError "copytree")
          end
      end
  end.

(** ** Versions, packages, paths and the outside world *)

(** What the command uses of [poetry.core.semver.version.Version]. *)
Class VersionOps (V : Type) := {
  v_eqb : V -> V -> bool;      (* [==] *)
  v_ltb : V -> V -> bool;      (* [<] *)
  v_str : V -> string;         (* [str], as used by f-strings *)
  v_parse : string -> V;       (* [Version.parse] *)
}.

(** What the command uses of a [Package]: [.version] and [.is_prerelease()]. *)
Record Package (V : Type) := {
  pkg_version : V;
  pkg_prerelease : bool;
}.
Arguments pkg_version {V} _.
Arguments pkg_prerelease {V} _.

(** A [pathlib] path, already split: the anchor (root or drive) and the
    remaining components. *)
Record Path := { anchor : string; parts : list string }.

Record response := {
  resp_headers : list (string * string);
  resp_body : list Byte.byte;     (* the bytes [read] hands out *)
  resp_aborted : bool;            (* the connection drops after them *)
}.

Inductive url_result :=
| UrlOk (r : response)
| UrlHTTPError (code : Z)
| UrlURLError (reason : string).

(** What [tarfile] makes of an archive: the members it writes, in order,
    and the error that stops it, if any. *)
Record extraction := {
  ex_members : list (string * file);
  ex_error : option exn;
}.

Record World (V : Type) := {
  w_version : string;                                   (* [poetry.__version__.__version__] *)
  w_home : Path;                                        (* [self.home] *)
  w_file : Path;                                        (* [Path(__file__)] *)
  w_argument_version : option string;                   (* [self.argument("version")] *)
  w_option_preview : bool;                              (* [self.option("preview")] *)
  w_find_packages : string -> bool -> list (Package V); (* [PyPiRepository.find_packages] *)
  w_urlopen : string -> url_result;
  w_sha256_hexdigest : list Byte.byte -> string;        (* [hashlib.sha256(..).hexdigest()] *)
  w_untar : list Byte.byte -> extraction;
  w_platform : string;                                  (* [sys.platform] *)
  w_windows : bool;                                     (* [poetry.utils._compat.WINDOWS] *)
  w_environ : gmap string string;                       (* [os.environ] *)
  w_check_output : string -> option (list Byte.byte);   (* [None]: [CalledProcessError] *)
  w_umask : Z;
}.
Arguments w_version {V} _.
Arguments w_home {V} _.
Arguments w_file {V} _.
Arguments w_argument_version {V} _.
Arguments w_option_preview {V} _.
Arguments w_find_packages {V} _ _ _.
Arguments w_urlopen {V} _ _.
Arguments w_sha256_hexdigest {V} _ _.
Arguments w_untar {V} _ _.
Arguments w_platform {V} _.
Arguments w_windows {V} _.
Arguments w_environ {V} _.
Arguments w_check_output {V} _ _.
Arguments w_umask {V} _.

(** ** Text constants of the module *)

Definition dquote : string := String (ascii_of_nat 34) EmptyString.
Definition nl : string := String (ascii_of_nat 10) EmptyString.
Definition cr : string := String (ascii_of_nat 13) EmptyString.

Definition quoted (s : string) : string := dquote +:+ s +:+ dquote.

Fixpoint unlines (l : list string) : string :=
  match l with
  | [] => EmptyString
  | x :: l' => x +:+ nl +:+ unlines l'
  end.

Definition BIN : string := unlines [
  "# -*- coding: utf-8 -*-";
  "import glob";
  "import sys";
  "import os";
  "";
  "lib = os.path.normpath(os.path.join(os.path.realpath(__file__), "
    +:+ quoted "../.." +:+ ", " +:+ quoted "lib" +:+ "))";
  "vendors = os.path.join(lib, " +:+ quoted "poetry" +:+ ", " +:+ quoted "_vendor" +:+ ")";
  "current_vendors = os.path.join(";
  "    vendors, " +:+ quoted "py{}" +:+ ".format(" +:+ quoted "."
    +:+ ".join(str(v) for v in sys.version_info[:2]))";
  ")";
  "sys.path.insert(0, lib)";
  "sys.path.insert(0, current_vendors)";
  "";
  "if __name__ == " +:+ quoted "__main__" +:+ ":";
  "    from poetry.console import main";
  "    main()"
].

(** [BAT.format(python_executable=.., poetry_bin=..)] *)
Definition BAT_format (python_executable poetry_bin : string) : string :=
  "@echo off" +:+ cr +:+ nl +:+ python_executable +:+ " " +:+ quoted poetry_bin
    +:+ " %*" +:+ cr +:+ nl.

Definition REPOSITORY_URL : string := "https://github.com/python-poetry/poetry".
Definition BASE_URL : string := REPOSITORY_URL +:+ "/releases/download".

Definition block_size : nat := Z.to_nat 8192.

Definition S_IEXEC : Z := 64.

(** [str.encode("utf-8")], on ASCII text. *)
Definition encode (s : string) : list Byte.byte := String.list_byte_of_string s.

(** ** Helpers of the command *)

(** Components are compared as [pathlib] does: exactly on POSIX, case
    folded on Windows. *)
Definition casefold (windows : bool) (s : string) : string :=
  if windows then Py.lower s else s.

Fixpoint strip_parts (windows : bool) (base p : list string) : option (list string) :=
  match base, p with
  | [], _ => Some p
  | b :: base', x :: p' =>
      if String.eqb (casefold windows b) (casefold windows x)
      then strip_parts windows base' p' else None
  | _ :: _, [] => None
  end.

(** [p.relative_to(other)]; [None] stands for [ValueError]. *)
Definition relative_to (windows : bool) (p other : Path) : option (list string) :=
  if String.eqb (casefold windows (anchor other)) (casefold windows (anchor p))
  then strip_parts windows (parts other) (parts p)
  else None.

(** [Message.__getitem__]: first header of that name, names compared
    without case; [None] when there is none. *)
Fixpoint get_header (name : string) (headers : list (string * string)) : option string :=
  match headers with
  | [] => None
  | (k, v) :: rest =>
      if String.eqb (Py.lower k) (Py.lower name) then Some v else get_header name rest
  end.

(** [int(meta["Content-Length"])] *)
Definition int_header (h : option string) : M Z :=
  match h with
  | None => raise (TypeError "int() argument must be a string, a bytes-like object or a number, not 'NoneType'")
  | Some v =>
      match Py.int v with
      | Some n => ret n
      | None => raise (ValueError "invalid literal for int() with base 10")
      end
  end.

(** The successive non-empty results of [read(n)] on a stream holding [l]. *)
Fixpoint chunks_fuel {A} (fuel n : nat) (l : list A) : list (list A) :=
  match fuel with
  | O => []
  | S fuel' =>
      match l with
      | [] => []
      | _ => take n l :: chunks_fuel fuel' n (drop n l)
      end
  end.

Definition chunks {A} (n : nat) (l : list A) : list (list A) :=
  chunks_fuel (length l) n l.

(** The reads a response serves before its end: all blocks, or, when the
    connection drops, the full blocks only (the short read fails). *)
Definition served (n : nat) (r : response) : list (list Byte.byte) :=
  if resp_aborted r
  then filter (fun b => length b = n) (chunks n (resp_body r))
  else chunks n (resp_body r).

Definition new_file_mode (umask : Z) : Z := Z.ldiff 438 umask.

(** [open(path, "w")]: create the file, or truncate it keeping its mode. *)
Definition open_w (umask : Z) (d : dir) (name : string) : M unit :=
  log (OpWrite d name) ;;
  f <- get_fs ;;
  match fs_get d f with
  | None => raise (FileNotFoundError d)
  | Some t =>
      let mode := match t !! name with
                  | Some old => f_mode old
                  | None => new_file_mode umask
                  end in
      put_dir d (Some (<[name := {| f_data := []; f_mode := mode |}]> t))
  end.

(** [f.write(buffer)] on a file opened by [open_w]. *)
Definition write (d : dir) (name : string) (buffer : list Byte.byte) : M unit :=
  log (OpWrite d name) ;;
  f <- get_fs ;;
  match fs_get d f with
  | None => raise (FileNotFoundError d)
  | Some t =>
      match t !! name with
      | None => raise (FileNotFoundError d)
      | Some old =>
          put_dir d (Some (<[name := {| f_data := f_data old ++ buffer; f_mode := f_mode old |}]> t))
      end
  end.

Definition read_file (d : dir) (name : string) : M (list Byte.byte) :=
  f <- get_fs ;;
  match fs_get d f with
  | None => raise (FileNotFoundError d)
  | Some t =>
      match t !! name with
      | None => raise (FileNotFoundError d)
      | Some x => ret (f_data x)
      end
  end.

(** [os.chmod(path, os.stat(path).st_mode | bits)] *)
Definition chmod_or (d : dir) (name : string) (bits : Z) : M unit :=
  log (OpChmod d name) ;;
  f <- get_fs ;;
  match fs_get d f with
  | None => raise (FileNotFoundError d)
  | Some t =>
      match t !! name with
      | None => raise (FileNotFoundError d)
      | Some x =>
          put_dir d (Some (<[name := {| f_data := f_data x; f_mode := Z.lor (f_mode x) bits |}]> t))
      end
  end.

(** [d.mkdir(0o755, parents=True, exist_ok=True)] *)
Definition mkdir (d : dir) : M unit :=
  log (OpMkdir d) ;;
  f <- get_fs ;;
  match fs_get d f with
  | None => put_dir d (Some ∅)
  | Some _ => ret tt
  end.

Definition write_members (members : list (string * file)) (t : tree) : tree :=
  foldl (fun acc m => <[fst m := snd m]> acc) t members.

(** [TarFile.extractall(d)]: the directory appears with the first member. *)
Definition extractall (ex : extraction) (d : dir) : M unit :=
  log (OpExtract d) ;;
  f <- get_fs ;;
  match ex_members ex with
  | [] => ret tt
  | members => put_dir d (Some (write_members members (default ∅ (fs_get d f))))
  end ;;
  match ex_error ex with
  | None => ret tt
  | Some e => raise e
  end.

(** Modelled from the spec: [poetry.utils.helpers.temporary_directory] is
    not among the sources at hand.  Following the specification, the block
    runs with a fresh private directory that is discarded when the block is
    left, normally or by an exception. *)
Definition temporary_directory {A} (body : M A) : M A :=
  log OpMkdtemp ;;
  put_dir Tmp (Some ∅) ;;
  try_finally body (log (OpRmtree Tmp) ;; put_dir Tmp None).

(** [try: body / except HTTPError as e: handler e.code]; other exceptions
    pass through. *)
Definition try_except_HTTPError {A} (body : M A) (handler : Z -> M A) : M A :=
  fun s =>
    match body s with
    | (Raise (HTTPError code), s') => handler code s'
    | r => r
    end.

(** ** The version pattern of [_which_python]

    [^Python (?P<major>\d+)\.(?P<minor>\d+)\..+$], applied with [match]. *)

Fixpoint strip_prefix (p s : text) : option text :=
  match p, s with
  | [], _ => Some s
  | a :: p', b :: s' => if (a =? b)%N then strip_prefix p' s' else None
  | _ :: _, [] => None
  end.

(** The longest run of digits at the front, and what follows it. *)
Fixpoint span_digits `{UnicodeData} (s : text) : text * text :=
  match s with
  | c :: s' =>
      if Unicode.is_digit c
      then let '(d, r) := span_digits s' in (c :: d, r)
      else ([], s)
  | [] => ([], [])
  end.

Definition is_newline (c : N) : bool := (c =? 10)%N.

(** [.+$]: one or more characters other than a newline, up to the end of
    the string or to a newline that ends it. *)
Fixpoint dot_plus_dollar (s : text) : bool :=
  match s with
  | [] => false
  | c :: r =>
      negb (is_newline c) &&
      match r with
      | [] => true
      | [c'] => is_newline c' || dot_plus_dollar r
      | _ => dot_plus_dollar r
      end
  end.

(** [version_matcher.match(s)]: the groups [(major, minor)] on success. *)
Definition version_matcher `{UnicodeData} (s : text) : option (text * text) :=
  match strip_prefix "Python " s with
  | None => None
  | Some s1 =>
      let '(major, r1) := span_digits s1 in
      match major, strip_prefix "." r1 with
      | _ :: _, Some s2 =>
          let '(minor, r2) := span_digits s2 in
          match minor, strip_prefix "." r2 with
          | _ :: _, Some s3 =>
              if dot_plus_dollar s3 then Some (major, minor) else None
          | _, _ => None
          end
      | _, _ => None
      end
  end.

(** [int(s)] inside the monad: [ValueError] when it does not parse. *)
Definition int_ `{UnicodeData} (s : text) : M Z :=
  match Unicode.int s with
  | Some n => ret n
  | None => raise (ValueError "invalid literal for int() with base 10")
  end.

(** [(a, b) >= (c, d)] on pairs of integers. *)
Definition tuple_ge (x y : Z * Z) : bool :=
  (fst y <? fst x) || ((fst x =? fst y) && (snd y <=? snd x)).

(** [bytes.decode] inside the monad. *)
Definition decode_ (data : list Byte.byte) : M text :=
  match Unicode.decode data with
  | Some s => ret s
  | None => raise UnicodeDecodeError
  end.

Section SelfUpdateCommand.

Context {V : Type} `{VersionOps V} `{UnicodeData} (w : World V).

(** [subprocess.check_output(executable + " --version", ...).decode("utf-8")]
    under [except CalledProcessError]: [None] when the process fails, which
    is caught; an output that does not decode raises. *)
Definition process_version (executable : string) : M (option text) :=
  log (OpSubprocess (executable +:+ " --version")) ;;
  match w_check_output w (executable +:+ " --version") with
  | None => ret None
  | Some output => raw_version <- decode_ output ;; ret (Some raw_version)
  end.

Definition allowed_executables : list string :=
  ["python"; "python3"] ++ (if w_windows w then ["py.exe -3"; "py.exe -2"] else []).

(** The [for executable in allowed_executables] loop of [_which_python]. *)
Fixpoint which_python_loop (executables : list string) (fallback : option string) : M string :=
  match executables with
  | [] =>
      match fallback with
      | None => ret "python"
      | Some f => ret f
      end
  | executable :: rest =>
      raw <- process_version executable ;;
      match raw with
      | None => which_python_loop rest fallback
      | Some raw_version =>
          py3 <- match version_matcher (Unicode.strip raw_version) with
                 | None => ret false
                 | Some (major, minor) =>
                     a <- int_ major ;;
                     b <- int_ minor ;;
                     ret (tuple_ge (a, b) (3, 0))
                 end ;;
          if py3 then ret executable
          else which_python_loop rest
                 (match fallback with None => Some executable | Some f => Some f end)
      end
  end.

Definition _which_python : M string :=
  which_python_loop allowed_executables None.

Definition sep : string := if w_windows w then "\" else "/".

(** [str(path)] *)
Definition path_str (p : Path) : string :=
  anchor p +:+ String.concat sep (parts p).

Definition joinpath (p : Path) (name : string) : Path :=
  {| anchor := anchor p; parts := parts p ++ [name] |}.

Definition bin_path : Path := joinpath (w_home w) "bin".

Definition environ_item (key : string) : M string :=
  match w_environ w !! key with
  | Some v => ret v
  | None => raise (KeyError key)
  end.

(** [Path.write_text(text, encoding="utf-8")]: text mode, so that each
    newline is written as [os.linesep]. *)
Definition write_text (d : dir) (name text : string) : M unit :=
  open_w (w_umask w) d name ;;
  write d name (encode (if w_windows w then Py.replace nl (cr +:+ nl) text else text)).

Definition make_bin : M unit :=
  mkdir Bin ;;
  python_executable <- _which_python ;;
  when (w_windows w)
    (open_w (w_umask w) Bin "poetry.bat" ;;
     userprofile <- environ_item "USERPROFILE" ;;
     write Bin "poetry.bat"
       (encode (BAT_format python_executable
                  (Py.replace userprofile "%USERPROFILE%"
                     (path_str (joinpath bin_path "poetry")))))) ;;
  let bin_content :=
    if negb (w_windows w)
    then "#!/usr/bin/env " +:+ python_executable +:+ nl +:+ BIN
    else BIN in
  write_text Bin "poetry" bin_content ;;
  when (negb (w_windows w)) (chmod_or Bin "poetry" S_IEXEC).

Definition _get_release_name (version : V) : string :=
  let platform := w_platform w in
  let platform := if String.eqb platform "linux2" then "linux" else platform in
  "poetry-" +:+ v_str version +:+ "-" +:+ platform.

Definition _check_recommended_installation : M unit :=
  match relative_to (w_windows w) (w_file w) (w_home w) with
  | Some _ => ret tt
  | None =>
      raise (PoetrySimpleConsoleException
               ("Poetry was not installed with the recommended installer, "
                +:+ "so it cannot be updated automatically."))
  end.

Definition urlopen (url : string) : M response :=
  log (OpUrlopen url) ;;
  match w_urlopen w url with
  | UrlOk r => ret r
  | UrlHTTPError code => raise (HTTPError code)
  | UrlURLError reason => raise (URLError reason)
  end.

(** [r.read()]: the whole body, unless the connection drops. *)
Definition read_all (r : response) : M (list Byte.byte) :=
  if resp_aborted r then raise IncompleteRead else ret (resp_body r).

(** The [while True] loop of [_update], over the reads the response
    serves; the read after the last one returns [b""] and ends the loop,
    or fails when the connection has dropped. *)
Fixpoint download_loop (r : response) (name : string) (reads : list (list Byte.byte))
    (current : Z) (sha : list Byte.byte) : M (list Byte.byte) :=
  match reads with
  | [] => if resp_aborted r then raise IncompleteRead else ret sha
  | buffer :: rest =>
      let current := current + Z.of_nat (length buffer) in
      write Tmp name buffer ;;
      bar_emit (BarProgress current) ;;
      download_loop r name rest current (sha ++ buffer)
  end.

Definition _update (version : V) : M unit :=
  let release_name := _get_release_name version in
  let checksum := release_name +:+ ".sha256sum" in
  let base_url := BASE_URL in
  r <- try_except_HTTPError
         (urlopen (base_url +:+ "/" +:+ v_str version +:+ "/" +:+ checksum))
         (fun code =>
            if code =? 404
            then raise (RuntimeError ("Could not find " +:+ checksum +:+ " file"))
            else raise (HTTPError code)) ;;
  body <- read_all r ;;
  decoded <- decode_ body ;;
  let checksum : text := Unicode.strip decoded in
  let name := release_name +:+ ".tar.gz" in
  r <- try_except_HTTPError
         (urlopen (base_url +:+ "/" +:+ v_str version +:+ "/" +:+ name))
         (fun code =>
            if code =? 404
            then raise (RuntimeError ("Could not find " +:+ name +:+ " file"))
            else raise (HTTPError code)) ;;
  let meta := resp_headers r in
  size <- int_header (get_header "Content-Length" meta) ;;
  bar_emit (BarStart size) ;;
  temporary_directory
    (open_w (w_umask w) Tmp name ;;
     sha <- download_loop r name (served block_size r) 0 [] ;;
     bar_emit BarFinish ;;
     if negb (bool_decide (checksum = (w_sha256_hexdigest w sha : text)))
     then raise (RuntimeError
                   (("Hashes for " +:+ name +:+ " do not match: " : text) ++ checksum
                    ++ (" != " +:+ w_sha256_hexdigest w sha : text)))
     else
       data <- read_file Tmp name ;;
       extractall (w_untar w data) Lib).

Definition update (release : Package V) : M unit :=
  let version := pkg_version release in
  line ("Updating to <info>" +:+ v_str version +:+ "</info>") ;;
  b <- exists_ LibBackup ;;
  when b (rmtree LibBackup) ;;
  l <- exists_ Lib ;;
  when l (copytree Lib LibBackup ;; rmtree Lib) ;;
  try_except_finally
    (_update version)
    (fun e =>
       b <- exists_ LibBackup ;;
       if negb b then raise e
       else
         copytree LibBackup Lib ;;
         rmtree LibBackup ;;
         raise e)
    (b <- exists_ LibBackup ;;
     when b (rmtree LibBackup)) ;;
  make_bin ;;
  line "" ;;
  line "" ;;
  line ("<info>Poetry</info> (<comment>" +:+ v_str version
        +:+ "</comment>) is installed now. Great!").

(** The comparison handed to [cmp_to_key]. *)
Definition cmp (x y : Package V) : Z :=
  if v_eqb (pkg_version x) (pkg_version y) then 0
  else if v_ltb (pkg_version x) (pkg_version y) then 1 else -1.

(** [list.sort(key=cmp_to_key(cmp))]: a stable sort that places [x]
    before [y] when [cmp x y < 0]. *)
Fixpoint insert_sorted (x : Package V) (l : list (Package V)) : list (Package V) :=
  match l with
  | [] => [x]
  | y :: l' => if cmp y x <? 0 then y :: insert_sorted x l' else x :: l
  end.

Fixpoint sort (l : list (Package V)) : list (Package V) :=
  match l with
  | [] => []
  | x :: l' => insert_sorted x (sort l')
  end.

(** The [for package in packages] loop of [handle]. *)
Fixpoint select_release (preview : bool) (packages : list (Package V)) : option (Package V) :=
  match packages with
  | [] => None
  | package :: rest =>
      if pkg_prerelease package
      then (if preview then Some package else select_release preview rest)
      else Some package
  end.

Definition find_packages (constraint : string) (allows_prereleases : bool) : M (list (Package V)) :=
  log (OpFindPackages constraint allows_prereleases) ;;
  ret (w_find_packages w constraint allows_prereleases).

Definition handle : M unit :=
  _check_recommended_installation ;;
  let version :=
    match w_argument_version w with
    | Some (String c v) => String c v
    | _ => ">=" +:+ w_version w
    end in
  packages <- find_packages version (w_option_preview w) ;;
  match packages with
  | [] => line "No release found for the specified version"
  | _ =>
      let packages := sort packages in
      match select_release (w_option_preview w) packages with
      | None => line "No new release found"
      | Some release =>
          if v_eqb (pkg_version release) (v_parse (w_version w))
          then line "You are using the latest version"
          else update release
      end
  end.

End SelfUpdateCommand.

(** ** SHA-256 (FIPS 180-4), the digest [hashlib.sha256] computes

    Only the concrete runs below use it; the command itself is stated over
    any [w_sha256_hexdigest]. *)

Module Sha256.
Local Open Scope N_scope.

Definition mask : N := 0xffffffff.
Definition w32 (x : N) : N := N.land x mask.
Definition add (x y : N) : N := w32 (x + y).
Definition rotr (n x : N) : N := N.lor (N.shiftr x n) (w32 (N.shiftl x (32 - n))).
Definition shr (n x : N) : N := N.shiftr x n.
Definition xor3 (x y z : N) : N := N.lxor x (N.lxor y z).

Definition Ch (x y z : N) : N := N.lxor (N.land x y) (N.land (N.lxor x mask) z).
Definition Maj (x y z : N) : N := xor3 (N.land x y) (N.land x z) (N.land y z).
Definition Sigma0 (x : N) : N := xor3 (rotr 2 x) (rotr 13 x) (rotr 22 x).
Definition Sigma1 (x : N) : N := xor3 (rotr 6 x) (rotr 11 x) (rotr 25 x).
Definition sigma0 (x : N) : N := xor3 (rotr 7 x) (rotr 18 x) (shr 3 x).
Definition sigma1 (x : N) : N := xor3 (rotr 17 x) (rotr 19 x) (shr 10 x).

(** The constants are the leading 32 fractional bits of the cube roots
    ([K]) and square roots ([H0]) of the first primes. *)
Definition is_prime (n : N) : bool :=
  (1 <? n) && forallb (fun d => negb (n mod d =? 0)) (map N.of_nat (seq 2 (N.to_nat (N.sqrt n) - 1))).

Definition primes : list N := filter (fun n => is_prime n = true) (map N.of_nat (seq 2 310)).

(** Integer cube root, bit by bit from bit [bits - 1] down. *)
Fixpoint cube_root (bits : nat) (n r : N) : N :=
  match bits with
  | O => r
  | S b =>
      let r' := r + N.shiftl 1 (N.of_nat b) in
      cube_root b n (if r' * r' * r' <=? n then r' else r)
  end.

Definition K : list N :=
  map (fun p => w32 (cube_root 40 (N.shiftl p 96) 0)) (take 64 primes).

Definition H0 : list N :=
  map (fun p => w32 (N.sqrt (N.shiftl p 64))) (take 8 primes).

(** Big-endian bytes of [x], [n] of them. *)
Fixpoint be_bytes (n : nat) (x : N) : list N :=
  match n with
  | O => []
  | S n' => be_bytes n' (N.shiftr x 8) ++ [N.land x 0xff]
  end.

Definition pad (msg : list N) : list N :=
  let len := N.of_nat (length msg) in
  let zeros := N.to_nat ((119 - len mod 64) mod 64) in
  msg ++ [0x80] ++ repeat 0 zeros ++ be_bytes 8 (8 * len).

Fixpoint words (fuel : nat) (bytes : list N) : list N :=
  match fuel, bytes with
  | S fuel', a :: b :: c :: d :: rest =>
      (N.shiftl a 24 + N.shiftl b 16 + N.shiftl c 8 + d) :: words fuel' rest
  | _, _ => []
  end.

(** The message schedule, newest word first. *)
Fixpoint schedule (n : nat) (rev_w : list N) : list N :=
  match n with
  | O => rev_w
  | S n' =>
      let at_ i := nth i rev_w 0 in
      schedule n' (add (add (sigma1 (at_ 1%nat)) (at_ 6%nat))
                       (add (sigma0 (at_ 14%nat)) (at_ 15%nat)) :: rev_w)
  end.

Definition round (st : list N) (kw : N * N) : list N :=
  match st with
  | [a; b; c; d; e; f; g; h] =>
      let t1 := add (add (add h (Sigma1 e)) (add (Ch e f g) (fst kw))) (snd kw) in
      let t2 := add (Sigma0 a) (Maj a b c) in
      [add t1 t2; a; b; c; add d t1; e; f; g]
  | _ => st
  end.

Definition compress (h : list N) (block : list N) : list N :=
  let w := rev (schedule 48 (rev block)) in
  let st := fold_left round (combine K w) h in
  map (fun p => add (fst p) (snd p)) (combine h st).

Fixpoint blocks (fuel : nat) (ws : list N) (h : list N) : list N :=
  match fuel, ws with
  | S fuel', _ :: _ => blocks fuel' (skipn 16 ws) (compress h (firstn 16 ws))
  | _, _ => h
  end.

Definition digest (msg : list Byte.byte) : list N :=
  let bytes := pad (map Byte.to_N msg) in
  let ws := words (length bytes) bytes in
  blocks (length ws) ws H0.

Definition hex_digit (x : N) : ascii :=
  if x <? 10 then ascii_of_N (48 + x) else ascii_of_N (87 + x).

Fixpoint hex (n : nat) (x : N) : string :=
  match n with
  | O => EmptyString
  | S n' => hex n' (N.shiftr x 4) +:+ String (hex_digit (N.land x 0xf)) EmptyString
  end.

Definition hexdigest (msg : list Byte.byte) : string :=
  String.concat "" (map (hex 8) (digest msg)).

End Sha256.

(** ** A concrete world for running the command

    Versions [major.minor.patch] with an optional [-alpha] tag, ordered as
    semantic versions are: by the numbers, a tagged version before the
    untagged one. *)

Module Demo.

Record semver := { major : N; minor : N; patch : N; alpha : bool }.

Definition key (v : semver) : list N :=
  [major v; minor v; patch v; if alpha v then 0%N else 1%N].

Fixpoint lex_ltb (a b : list N) : bool :=
  match a, b with
  | x :: a', y :: b' => (x <? y)%N || ((x =? y)%N && lex_ltb a' b')
  | [], _ :: _ => true
  | _, [] => false
  end.

Fixpoint lex_eqb (a b : list N) : bool :=
  match a, b with
  | x :: a', y :: b' => (x =? y)%N && lex_eqb a' b'
  | [], [] => true
  | _, _ => false
  end.

Fixpoint split_on (c : ascii) (s : string) : list string :=
  match s with
  | EmptyString => [EmptyString]
  | String x s' =>
      if Ascii.eqb x c then EmptyString :: split_on c s'
      else match split_on c s' with
           | [] => [String x EmptyString]
           | h :: t => String x h :: t
           end
  end.

Definition number (s : string) : N :=
  match Py.int s with
  | Some z => Z.to_N z
  | None => 0%N
  end.

Definition parse (s : string) : semver :=
  match split_on "-" s with
  | base :: tag =>
      match split_on "." base with
      | [a; b; c] =>
          {| major := number a; minor := number b; patch := number c;
             alpha := bool_decide (tag <> []) |}
      | _ => {| major := 0; minor := 0; patch := 0; alpha := false |}
      end
  | [] => {| major := 0; minor := 0; patch := 0; alpha := false |}
  end.

Definition text (v : semver) : string :=
  pretty (major v) +:+ "." +:+ pretty (minor v) +:+ "." +:+ pretty (patch v)
    +:+ (if alpha v then "-alpha" else "").

#[global] Instance semver_ops : VersionOps semver := {|
  v_eqb a b := lex_eqb (key a) (key b);
  v_ltb a b := lex_ltb (key a) (key b);
  v_str := text;
  v_parse := parse;
|}.

Definition release (s : string) : Package semver :=
  {| pkg_version := parse s; pkg_prerelease := alpha (parse s) |}.

(** The candidates of the specification's end-to-end scenario. *)
Definition candidates : list (Package semver) :=
  [release "1.1.0"; release "1.2.0"; release "1.3.0-alpha"].

Definition regular (data : string) : file := {| f_data := encode data; f_mode := 420 |}.

Definition old_tree : tree :=
  <["poetry/__init__.py" := regular "old init"]>
    (<["poetry/__version__.py" := regular "__version__ = '1.1.0'"]> ∅).

Definition new_members : list (string * file) :=
  [("poetry/__init__.py", regular "new init");
   ("poetry/__version__.py", regular "__version__ = '1.2.0'")].

(** Two archives: a sound one, and one that [tarfile] gives up on after
    its first member. *)
Definition archive : list Byte.byte := encode "poetry-1.2.0 archive".
Definition damaged_archive : list Byte.byte := encode "poetry-1.2.0 archive, cut short".

Fixpoint bytes_eqb (a b : list Byte.byte) : bool :=
  match a, b with
  | x :: a', y :: b' => Byte.eqb x y && bytes_eqb a' b'
  | [], [] => true
  | _, _ => false
  end.

Definition untar (data : list Byte.byte) : extraction :=
  if bytes_eqb data archive
  then {| ex_members := new_members; ex_error := None |}
  else if bytes_eqb data damaged_archive
  then {| ex_members := take 1 new_members;
          ex_error := Some (TarError "unexpected end of data") |}
  else {| ex_members := []; ex_error := Some (TarError "not a gzip file") |}.

Definition checksum_url : string := BASE_URL +:+ "/1.2.0/poetry-1.2.0-linux.sha256sum".
Definition archive_url : string := BASE_URL +:+ "/1.2.0/poetry-1.2.0-linux.tar.gz".

Definition plain (headers : list (string * string)) (body : list Byte.byte) : response :=
  {| resp_headers := headers; resp_body := body; resp_aborted := false |}.

(** A server holding [body] as the archive, [sum] as the text of the
    checksum file, and answering the archive request with [headers]. *)
Definition server (sum : string) (headers : list (string * string))
    (body : list Byte.byte) (url : string) : url_result :=
  if String.eqb url checksum_url then UrlOk (plain [] (encode sum))
  else if String.eqb url archive_url then UrlOk (plain headers body)
  else UrlHTTPError 404.

Definition posix_home : Path := {| anchor := "/"; parts := ["home"; "user"; ".poetry"] |}.

Definition installed_file : Path :=
  {| anchor := "/";
     parts := ["home"; "user"; ".poetry"; "lib"; "poetry"; "console"; "commands"; "self"; "update.py"] |}.

Definition site_packages_file : Path :=
  {| anchor := "/";
     parts := ["usr"; "lib"; "python3"; "site-packages"; "poetry"; "console"; "commands"; "self"; "update.py"] |}.

Definition probe (cmd : string) : option (list Byte.byte) :=
  if String.eqb cmd "python --version" then Some (encode ("Python 2.7.18" +:+ nl))
  else if String.eqb cmd "python3 --version" then Some (encode ("Python 3.8.10" +:+ nl))
  else None.

(** A Unicode database that knows, beyond ASCII, the Arabic-Indic and the
    fullwidth digits. *)
#[global] Instance unicode_data : UnicodeData := {|
  u_decimal c :=
    if Unicode.between 1632 1641 c then Some (c - 1632)%N
    else if Unicode.between 65296 65305 c then Some (c - 65296)%N
    else None
|}.

Definition world (file : Path) (preview : bool) (packages : list (Package semver))
    (urlopen : string -> url_result) : World semver :=
  {| w_version := "1.1.0";
     w_home := posix_home;
     w_file := file;
     w_argument_version := None;
     w_option_preview := preview;
     w_find_packages := fun _ _ => packages;
     w_urlopen := urlopen;
     w_sha256_hexdigest := Sha256.hexdigest;
     w_untar := untar;
     w_platform := "linux";
     w_windows := false;
     w_environ := ∅;
     w_check_output := probe;
     w_umask := 18 |}.

Definition content_length (n : string) : list (string * string) := [("Content-Length", n)].

(** The archive is served, with the checksum file holding its digest. *)
Definition good_world : World semver :=
  world installed_file false candidates
    (server (Sha256.hexdigest archive +:+ nl) (content_length "20") archive).

(** The damaged archive is served; the checksum file holds its digest. *)
Definition damaged_world : World semver :=
  world installed_file false candidates
    (server (Sha256.hexdigest damaged_archive +:+ nl) (content_length "31") damaged_archive).

Definition fs0 : fs :=
  {| fs_lib := Some old_tree; fs_lib_backup := None; fs_bin := None; fs_tmp := None |}.

Definition state0 : state :=
  {| st_fs := fs0; st_out := []; st_bar := []; st_trace := []; st_faults := [] |}.

(** The state [update] is in when it calls [_update]: the live tree has
    been copied to the backup directory and removed. *)
Definition backed_up : state :=
  {| st_fs := {| fs_lib := None; fs_lib_backup := Some old_tree; fs_bin := None; fs_tmp := None |};
     st_out := []; st_bar := []; st_trace := []; st_faults := [] |}.

(** No file of the release can be found. *)
Definition missing_world : World semver :=
  world installed_file false candidates (fun _ => UrlHTTPError 404).

Definition v120 : semver := parse "1.2.0".

Definition upper_char (c : ascii) : ascii :=
  if Py.in_range 97 122 c then ascii_of_N (Py.code c - 32) else c.

Fixpoint upper (s : string) : string :=
  match s with
  | EmptyString => EmptyString
  | String c s' => String (upper_char c) (upper s')
  end.

(** The checksum file spells the digest of the archive in capitals. *)
Definition capitals_world : World semver :=
  world installed_file false candidates
    (server (upper (Sha256.hexdigest archive) +:+ nl) (content_length "20") archive).

(** The checksum file holds the digest of the sound archive, but the
    damaged one is served. *)
Definition tampered_world : World semver :=
  world installed_file false candidates
    (server (Sha256.hexdigest archive +:+ nl) (content_length "31") damaged_archive).

(** The archive is served without a [Content-Length] header. *)
Definition unsized_world : World semver :=
  world installed_file false candidates
    (server (Sha256.hexdigest archive +:+ nl) [] archive).

(** The command [python] answers with a byte that is not UTF-8, as a
    message in a Latin-1 locale would; [python3] is Python 3. *)
Definition latin1_probe (cmd : string) : option (list Byte.byte) :=
  if String.eqb cmd "python --version" then Some [Byte.xff] else probe cmd.

Definition latin1_world : World semver :=
  {| w_version := "1.1.0";
     w_home := posix_home;
     w_file := installed_file;
     w_argument_version := None;
     w_option_preview := false;
     w_find_packages := fun _ _ => candidates;
     w_urlopen := server (Sha256.hexdigest archive +:+ nl) (content_length "20") archive;
     w_sha256_hexdigest := Sha256.hexdigest;
     w_untar := untar;
     w_platform := "linux";
     w_windows := false;
     w_environ := ∅;
     w_check_output := latin1_probe;
     w_umask := 18 |}.

End Demo.

(** ** Notions used to state the properties *)

(** "Nested under the home directory", in the words of the specification:
    same anchor, and the components of the home directory lead the
    components of the path. *)
Definition nested_under (windows : bool) (p home : Path) : Prop :=
  casefold windows (anchor home) = casefold windows (anchor p) /\
  exists rest, map (casefold windows) (parts p) = map (casefold windows) (parts home) ++ rest.

(** The version constraint [handle] asks the release index for. *)
Definition requested_version {V} (w : World V) : string :=
  match w_argument_version w with
  | Some (String c v) => String c v
  | _ => ">=" +:+ w_version w
  end.

(** A candidate the scan of [handle] may stop at. *)
Definition qualifies {V} (preview : bool) (p : Package V) : Prop :=
  pkg_prerelease p = false \/ preview = true.

Definition v_leb {V} `{VersionOps V} (a b : V) : bool := v_eqb a b || v_ltb a b.

(** [==] and [<] of versions form a total order. *)
Class VersionOrder (V : Type) `{VersionOps V} : Prop := {
  v_eqb_sym a b : v_eqb a b = true -> v_eqb b a = true;
  v_eqb_trans a b c : v_eqb a b = true -> v_eqb b c = true -> v_eqb a c = true;
  v_leb_trans a b c : v_leb a b = true -> v_leb b c = true -> v_leb a c = true;
  v_total a b : v_eqb a b || v_ltb a b || v_ltb b a = true;
}.

(** The version pattern in words: the text [Python ], a run of digits, a
    dot, a run of digits, a dot, and at least one more character, none of
    them a newline except possibly a last one. *)
Definition digits `{UnicodeData} (s : text) : Prop :=
  s <> [] /\ forallb Unicode.is_digit s = true.

Definition one_line (s : text) : Prop :=
  exists body, body <> [] /\ forallb (fun c => negb (is_newline c)) body = true /\
    (s = body \/ s = body ++ [10%N]).

Definition matches_version_pattern `{UnicodeData} (s major minor : text) : Prop :=
  exists rest,
    s = ("Python " : text) ++ major ++ ("." : text) ++ minor ++ ("." : text) ++ rest /\
    digits major /\ digits minor /\ one_line rest.

Section Probing.

Context {V : Type} `{UnicodeData} (w : World V).

(** The candidate ran: its version query returned output. *)
Definition ran (executable : string) : Prop :=
  is_Some (w_check_output w (executable +:+ " --version")).

(** The candidate ran and its output is not UTF-8. *)
Definition garbled (executable : string) : Prop :=
  exists output,
    w_check_output w (executable +:+ " --version") = Some output /\
    Unicode.decode output = None.

(** The candidate reports a major version of 3 or more. *)
Definition python3_capable (executable : string) : Prop :=
  exists output raw major minor a,
    w_check_output w (executable +:+ " --version") = Some output /\
    Unicode.decode output = Some raw /\
    matches_version_pattern (Unicode.strip raw) major minor /\
    Unicode.int major = Some a /\ 3 <= a.

(** The candidate ends the loop of [_which_python]: by being chosen, or by
    the exception its output raises. *)
Definition stops (executable : string) : Prop :=
  python3_capable executable \/ garbled executable.

(** The tests the loop of [_which_python] makes on a candidate. *)
Definition ranb (executable : string) : bool :=
  bool_decide (is_Some (w_check_output w (executable +:+ " --version"))).

Definition garbledb (executable : string) : bool :=
  match w_check_output w (executable +:+ " --version") with
  | Some output =>
      match Unicode.decode output with
      | Some _ => false
      | None => true
      end
  | None => false
  end.

Definition python3_capableb (executable : string) : bool :=
  match w_check_output w (executable +:+ " --version") with
  | Some output =>
      match Unicode.decode output with
      | Some raw =>
          match version_matcher (Unicode.strip raw) with
          | Some (major, minor) =>
              match Unicode.int major, Unicode.int minor with
              | Some a, Some b => tuple_ge (a, b) (3, 0)
              | _, _ => false
              end
          | None => false
          end
      | None => false
      end
  | None => false
  end.

Definition stopsb (executable : string) : bool :=
  python3_capableb executable || garbledb executable.

(** [x] is the first element of [l] with property [P]. *)
Definition first_with (P : string -> Prop) (l : list string) (x : string) : Prop :=
  exists pre post, l = pre ++ x :: post /\ P x /\ Forall (fun y => ~ P y) pre.

End Probing.

(** A computation [preserves] a relation between the state it starts in
    and the state it ends in, whether it returns or raises. *)
Definition preserves {A} (R : relation state) (m : M A) : Prop :=
  forall s, R s (snd (m s)).

(** A computation is [silent] when it leaves the file system and the
    record of operations alone. *)
Definition silent {A} (m : M A) : Prop :=
  forall s, st_fs (snd (m s)) = st_fs s /\ st_trace (snd (m s)) = st_trace s.

(** The directory [d] is as it was. *)
Definition keeps (d : dir) : relation state :=
  fun s s' => fs_get d (st_fs s') = fs_get d (st_fs s).

(** Only operations in [P] were performed. *)
Definition logs_only (P : op -> Prop) : relation state :=
  fun s s' => exists new, st_trace s' = st_trace s ++ new /\ Forall (fun e => P (fst e)) new.

(** The live library directory is as it was, unless an extraction into it
    was performed. *)
Definition lib_guard : relation state :=
  fun s s' => exists new, st_trace s' = st_trace s ++ new /\
    (fs_lib (st_fs s') = fs_lib (st_fs s) \/ Exists (fun e => fst e = OpExtract Lib) new).

(** The operations of the download: requests, and work in the private
    temporary directory; and the extraction. *)
Definition download_op (o : op) : Prop :=
  match o with
  | OpUrlopen _ | OpMkdtemp | OpWrite Tmp _ | OpRmtree Tmp => True
  | _ => False
  end.

Definition fetch_op (o : op) : Prop := download_op o \/ o = OpExtract Lib.

(** The operations that touch the launcher directory or probe for an
    interpreter. *)
Definition launcher_op (o : op) : Prop :=
  match o with
  | OpMkdir Bin | OpWrite Bin _ | OpChmod Bin _ | OpSubprocess _ | OpRmtree Bin
  | OpCopytree _ Bin | OpExtract Bin => True
  | _ => False
  end.

(** Lines 132 to 141 of [update]: announce, drop a stale backup, back up
    and remove the live tree. *)
Definition backup_phase {V} `{VersionOps V} (release : Package V) : M unit :=
  line ("Updating to <info>" +:+ v_str (pkg_version release) +:+ "</info>") ;;
  b <- exists_ LibBackup ;;
  when b (rmtree LibBackup) ;;
  l <- exists_ Lib ;;
  when l (copytree Lib LibBackup ;; rmtree Lib).

(** The [except] and [finally] blocks of [update]. *)
Definition restore (e : exn) : M unit :=
  b <- exists_ LibBackup ;;
  if negb b then raise e
  else
    copytree LibBackup Lib ;;
    rmtree LibBackup ;;
    raise e.

Definition discard_backup : M unit :=
  b <- exists_ LibBackup ;;
  when b (rmtree LibBackup).

(** The world in which the request of [url] is answered by [r]. *)
Definition serve {V} (w : World V) (url : string) (r : response) : World V :=
  {| w_version := w_version w;
     w_home := w_home w;
     w_file := w_file w;
     w_argument_version := w_argument_version w;
     w_option_preview := w_option_preview w;
     w_find_packages := w_find_packages w;
     w_urlopen := fun u => if String.eqb u url then UrlOk r else w_urlopen w u;
     w_sha256_hexdigest := w_sha256_hexdigest w;
     w_untar := w_untar w;
     w_platform := w_platform w;
     w_windows := w_windows w;
     w_environ := w_environ w;
     w_check_output := w_check_output w;
     w_umask := w_umask w |}.

(** Two states that differ at most in what the progress bar was told. *)
Definition bar_blind (s1 s2 : state) : Prop :=
  st_fs s1 = st_fs s2 /\ st_out s1 = st_out s2 /\
  st_trace s1 = st_trace s2 /\ st_faults s1 = st_faults s2.

(** Two runs with the same outcome, ending in such states. *)
Definition agree {A} (r1 r2 : outcome A * state) : Prop :=
  fst r1 = fst r2 /\ bar_blind (snd r1) (snd r2).

(** A computation that takes no decision on the progress bar. *)
Definition oblivious {A} (m : M A) : Prop :=
  forall s1 s2, bar_blind s1 s2 -> agree (m s1) (m s2).

Section CommandNotions.

Context {V : Type} `{VersionOps V} `{UnicodeData} (w : World V).

(** Sorted in descending order: every element is at most each earlier one. *)
Inductive descending : list (Package V) -> Prop :=
| descending_nil : descending []
| descending_cons x l :
    (forall y, In y l -> v_leb (pkg_version y) (pkg_version x) = true) ->
    descending l -> descending (x :: l).

(** [update] up to the launcher: backup, then the guarded download. *)
Definition guarded_update (release : Package V) : M unit :=
  backup_phase release ;;
  try_except_finally (_update w (pkg_version release)) restore discard_backup.

Definition announce_success (release : Package V) : M unit :=
  make_bin w ;;
  line "" ;;
  line "" ;;
  line ("<info>Poetry</info> (<comment>" +:+ v_str (pkg_version release)
        +:+ "</comment>) is installed now. Great!").

(** The part of [update] before the backup: the announcement and the
    removal of a stale backup. *)
Definition stale_phase (release : Package V) : M unit :=
  line ("Updating to <info>" +:+ v_str (pkg_version release) +:+ "</info>") ;;
  b <- exists_ LibBackup ;;
  when b (rmtree LibBackup).

(** The block of [_update] that runs inside the temporary directory. *)
Definition fetch_block (name : string) (checksum : text) (r : response) : M unit :=
  open_w (w_umask w) Tmp name ;;
  sha <- download_loop r name (served block_size r) 0 [] ;;
  bar_emit BarFinish ;;
  if negb (bool_decide (checksum = (w_sha256_hexdigest w sha : text)))
  then raise (RuntimeError
                (("Hashes for " +:+ name +:+ " do not match: " : text) ++ checksum
                 ++ (" != " +:+ w_sha256_hexdigest w sha : text)))
  else
    data <- read_file Tmp name ;;
    extractall (w_untar w data) Lib.

(** The same block when the digest is known not to match. *)
Definition rejected_block (name : string) (checksum : text) (r : response) : M unit :=
  open_w (w_umask w) Tmp name ;;
  _ <- download_loop r name (served block_size r) 0 [] ;;
  bar_emit BarFinish ;;
  raise (RuntimeError
           (("Hashes for " +:+ name +:+ " do not match: " : text) ++ checksum
            ++ (" != " +:+ w_sha256_hexdigest w (resp_body r) : text))).

Definition checksum_url (version : V) : string :=
  BASE_URL +:+ "/" +:+ v_str version +:+ "/" +:+ _get_release_name w version +:+ ".sha256sum".

Definition archive_name (version : V) : string := _get_release_name w version +:+ ".tar.gz".

Definition archive_url (version : V) : string :=
  BASE_URL +:+ "/" +:+ v_str version +:+ "/" +:+ archive_name version.

End CommandNotions.

(** Every removal of the live tree recorded between two states happened
    with the backup directory holding exactly the tree [t] that was live,
    and after a copy of the live tree to the backup directory. *)
Definition rm_lib_guarded (t : tree) : relation state :=
  fun s s' => exists new,
    st_trace s' = st_trace s ++ new /\
    forall pre f post, new = pre ++ (OpRmtree Lib, f) :: post ->
      fs_lib f = Some t /\ fs_lib_backup f = Some t /\
      exists f0, In (OpCopytree Lib LibBackup, f0) pre.

Definition not_rm_lib (o : op) : Prop := o <> OpRmtree Lib.

(** ** Notions used to state the further properties *)

(** The part [field] of the state is as it was. *)
Definition unchanged {A} (field : state -> A) : relation state :=
  fun s s' => field s' = field s.

(** The values of [current] after each read of the download loop. *)
Fixpoint running_totals (current : Z) (reads : list (list Byte.byte)) : list Z :=
  match reads with
  | [] => []
  | buffer :: rest =>
      (current + Z.of_nat (length buffer))
        :: running_totals (current + Z.of_nat (length buffer)) rest
  end.

(** A chain of totals from [lo] to [hi], each step more than nothing and at
    most [step]. *)
Fixpoint climbs (step lo : Z) (totals : list Z) (hi : Z) : Prop :=
  match totals with
  | [] => lo = hi
  | t :: rest => lo < t <= lo + step /\ climbs step t rest hi
  end.

(** A home in which nothing is installed yet. *)
Definition empty_home : state :=
  {| st_fs := {| fs_lib := None; fs_lib_backup := None; fs_bin := None; fs_tmp := None |};
     st_out := []; st_bar := []; st_trace := []; st_faults := [] |}.

Section LauncherNotions.

Context {V : Type} `{UnicodeData} (w : World V).

(** The candidates the loop of [_which_python] queries: it goes no
    further than the first that ends it. *)
Fixpoint probed (executables : list string) : list string :=
  match executables with
  | [] => []
  | e :: rest => e :: (if stopsb w e then [] else probed rest)
  end.

(** The record of a version query made with the file system [f]. *)
Definition version_query (f : fs) (executable : string) : op * fs :=
  (OpSubprocess (executable +:+ " --version"), f).

(** What the loop comes to: the candidate that ends it decides, and
    without one the fallback does. *)
Definition chosen (executables : list string) (fallback : option string) : outcome string :=
  match find (stopsb w) executables with
  | Some e => if garbledb w e then Raise UnicodeDecodeError else Return e
  | None =>
      Return match fallback with
             | Some f => f
             | None => default "python" (find (ranb w) executables)
             end
  end.

(** The mode [open(path, "w")] leaves on [name] in [t]. *)
Definition opened_mode (t : tree) (name : string) : Z :=
  match t !! name with
  | Some old => f_mode old
  | None => new_file_mode (w_umask w)
  end.

End LauncherNotions.

(** A Windows installation on which only the [py.exe] launcher answers,
    with the environment [environ]. *)
Definition windows_home : Path :=
  {| anchor := "C:\"; parts := ["Users"; "user"; ".poetry"] |}.

Definition windows_world (environ : gmap string string) : World Demo.semver :=
  {| w_version := "1.1.0";
     w_home := windows_home;
     w_file := {| anchor := "C:\";
                  parts := ["Users"; "user"; ".poetry"; "lib"; "poetry"; "console";
                            "commands"; "self"; "update.py"] |};
     w_argument_version := None;
     w_option_preview := false;
     w_find_packages := fun _ _ => Demo.candidates;
     w_urlopen := fun _ => UrlHTTPError 404;
     w_sha256_hexdigest := Sha256.hexdigest;
     w_untar := Demo.untar;
     w_platform := "win32";
     w_windows := true;
     w_environ := environ;
     w_check_output := fun cmd =>
       if String.eqb cmd "py.exe -3 --version"
       then Some (encode ("Python 3.9.1" +:+ cr +:+ nl))
       else None;
     w_umask := 0 |}.

(** The file operations of the backup phase of [update]. *)
Definition backup_op (o : op) : Prop :=
  match o with
  | OpRmtree LibBackup | OpCopytree Lib LibBackup | OpRmtree Lib => True
  | _ => False
  end.

(** * The command [env info] *)

Module EnvInfoCommand.

(** An element of [env.version_info]: a number, or the text of the
    release level. *)
Inductive py_value :=
| PyInt (n : Z)
| PyStr (s : string).

(** [str(v)] *)
Definition str (v : py_value) : string :=
  match v with
  | PyInt n => pretty n
  | PyStr s => s
  end.

(** [str(b)] for a boolean *)
Definition str_bool (b : bool) : string := if b then "True" else "False".

(** What the command asks of the environment [EnvManager] hands it; the
    paths [env.path] and [env.base] as the text they are printed as. *)
Record Env := {
  env_is_venv : bool;
  env_is_sane : bool;
  env_path : string;
  env_version_info : list py_value;
  env_python_implementation : string;
  env_platform : string;
  env_os : string;
  env_base : string }.

(** [sep.join(texts)] *)
Definition join (sep : string) (texts : list string) : string := String.concat sep texts.

Definition _display_complete_info (env : Env) : M unit :=
  let env_python_version := join "." (map str (take 3 (env_version_info env))) in
  line EmptyString ;;
  line "<b>Virtualenv</b>" ;;
  let listing :=
    [ "<info>Python</info>:         <comment>" +:+ env_python_version +:+ "</>";
      "<info>Implementation</info>: <comment>" +:+ env_python_implementation env +:+ "</>";
      "<info>Path</info>:           <comment>"
        +:+ (if env_is_venv env then env_path env else "NA") +:+ "</>" ] in
  let listing :=
    if env_is_venv env
    then
      let tag := if env_is_sane env then "comment" else "error" in
      listing ++ [ "<info>Valid</info>:          <" +:+ tag +:+ ">"
                   +:+ str_bool (env_is_sane env) +:+ "</" +:+ tag +:+ ">" ]
    else listing in
  line (join nl listing) ;;
  line EmptyString ;;
  line "<b>System</b>" ;;
  line (join nl
          [ "<info>Platform</info>: <comment>" +:+ env_platform env +:+ "</>";
            "<info>OS</info>:       <comment>" +:+ env_os env +:+ "</>";
            "<info>Python</info>:   <comment>" +:+ env_base env +:+ "</>" ]).

(** [handle] returns [1], or nothing. *)
Definition handle (option_path : bool) (env : Env) : M (option Z) :=
  if option_path
  then
    if negb (env_is_venv env) then ret (Some 1)
    else line (env_path env) ;; ret None
  else _display_complete_info env ;; ret None.

(** Two environments for the examples: the system interpreter seen from
    two accounts, outside any virtual environment. *)
Definition system_env (path : string) (sane : bool) (level : string) : Env :=
  {| env_is_venv := false;
     env_is_sane := sane;
     env_path := path;
     env_version_info := [PyInt 3; PyInt 8; PyInt 10; PyStr level; PyInt 0];
     env_python_implementation := "CPython";
     env_platform := "linux";
     env_os := "posix";
     env_base := "/usr" |}.

End EnvInfoCommand.

(** Two environments the command cannot tell apart: they agree on whether
    they are virtual, on the first three parts of the version and on the
    implementation, platform, system and base; and, if virtual, on the
    path and on being sane. *)
Definition same_to_env_info (env1 env2 : EnvInfoCommand.Env) : Prop :=
  EnvInfoCommand.env_is_venv env1 = EnvInfoCommand.env_is_venv env2 /\
  take 3 (EnvInfoCommand.env_version_info env1) = take 3 (EnvInfoCommand.env_version_info env2) /\
  EnvInfoCommand.env_python_implementation env1 = EnvInfoCommand.env_python_implementation env2 /\
  EnvInfoCommand.env_platform env1 = EnvInfoCommand.env_platform env2 /\
  EnvInfoCommand.env_os env1 = EnvInfoCommand.env_os env2 /\
  EnvInfoCommand.env_base env1 = EnvInfoCommand.env_base env2 /\
  (EnvInfoCommand.env_is_venv env1 = true ->
   EnvInfoCommand.env_path env1 = EnvInfoCommand.env_path env2 /\
   EnvInfoCommand.env_is_sane env1 = EnvInfoCommand.env_is_sane env2).

(** * Properties *)

(** ** The installation check *)

Lemma strip_parts_nested windows base p :
  is_Some (strip_parts windows base p) <->
  exists rest, map (casefold windows) p = map (casefold windows) base ++ rest.
Proof.
  revert p. induction base as [|b base IH]; intros p; simpl.
  - split; [intros _; by exists (map (casefold windows) p) | by eauto].
  - destruct p as [|x p]; simpl.
    + split; [by intros [? ?] | by intros [rest ?]].
    + destruct (String.eqb_spec (casefold windows b) (casefold windows x)) as [E|E].
      * rewrite IH, E. split; intros [rest Hr]; exists rest; simpl in *; congruence.
      * split; [by intros [? ?] | intros [rest Hr]; simpl in Hr; congruence].
Qed.

Lemma relative_to_nested windows p home :
  is_Some (relative_to windows p home) <-> nested_under windows p home.
Proof.
  unfold relative_to, nested_under.
  destruct (String.eqb_spec (casefold windows (anchor home)) (casefold windows (anchor p))) as [E|E].
  - rewrite strip_parts_nested. tauto.
  - split; [by intros [? ?] | tauto].
Qed.

Section InstallationCheck.

Context {V : Type} `{VersionOps V} `{UnicodeData} (w : World V).


End InstallationCheck.


Example sha_abc : Sha256.hexdigest (encode "abc") = "ba7816bf8f01cfea414140de5dae2223b00361a396177a9cb410ff61f20015ad". Proof. vm_compute. reflexivity. Qed.
Example sha_empty : Sha256.hexdigest [] = "e3b0c44298fc1c149afbf4c8996fb92427ae41e4649b934ca495991b7852b855". Proof. vm_compute. reflexivity. Qed.
Example sha_long : Sha256.hexdigest (encode "abcdbcdecdefdefgefghfghighijhijkijkljklmklmnlmnomnopnopq") = "248d6a61d20638b8e5c026930c3e6039a33ce45964ff2167f6ecedd419db06c1". Proof. vm_compute. reflexivity. Qed.

(** ** Choosing the release *)

Section Selection.

Context {V : Type} `{VersionOps V}.

Lemma insert_sorted_In (x p : Package V) l :
  In p (insert_sorted x l) <-> p = x \/ In p l.
Proof.
  induction l as [|y l IH]; simpl.
  - intuition congruence.
  - destruct (cmp y x <? 0); simpl; [rewrite IH|]; intuition congruence.
Qed.

Lemma sort_In (p : Package V) l : In p (sort l) <-> In p l.
Proof.
  induction l as [|x l IH]; simpl; [tauto|].
  rewrite insert_sorted_In, IH. intuition congruence.
Qed.

Lemma sort_nil (l : list (Package V)) : sort l = [] -> l = [].
Proof.
  destruct l as [|x l]; [done|]. intros E.
  assert (In x (sort (x :: l))) as Hin by (apply sort_In; by left).
  rewrite E in Hin. destruct Hin.
Qed.

Lemma select_release_Some preview (l : list (Package V)) r :
  select_release preview l = Some r -> In r l /\ qualifies preview r.
Proof.
  unfold qualifies. induction l as [|p l IH]; simpl; [done|].
  destruct (pkg_prerelease p) eqn:Ep; [destruct preview|].
  - intros [= <-]. auto.
  - intros E. destruct (IH E). auto.
  - intros [= <-]. auto.
Qed.

Lemma select_release_None (l : list (Package V)) :
  Forall (fun p => pkg_prerelease p = true) l -> select_release false l = None.
Proof. induction 1 as [|p l Hp _ IH]; simpl; [done|]. by rewrite Hp. Qed.

Lemma select_release_is_Some preview (l : list (Package V)) p :
  In p l -> qualifies preview p -> is_Some (select_release preview l).
Proof.
  unfold qualifies. induction l as [|x l IH]; simpl; [done|].
  intros [->|Hin] Hq.
  - destruct (pkg_prerelease p); [destruct preview|]; eauto.
    destruct Hq; discriminate.
  - destruct (pkg_prerelease x); [destruct preview|]; eauto.
Qed.

Context `{UnicodeData} (w : World V).

(** C5. Without [--preview] the scan of [handle] never stops at a
    prerelease: whatever the release index returns, a release chosen from
    the sorted candidates is one of them and is not a prerelease, also when
    a prerelease ranks first.  When every candidate is a prerelease,
    [handle] returns normally after printing that there is no (new)
    release; it raises nothing and, after asking the index, performs no
    network or file-system operation. *)
Theorem select_release_never_prerelease (s : state) :
  w_option_preview w = false ->
  nested_under (w_windows w) (w_file w) (w_home w) ->
  let packages := w_find_packages w (requested_version w) false in
  (forall r, select_release false (sort packages) = Some r ->
     In r packages /\ pkg_prerelease r = false /\
     (v_eqb (pkg_version r) (v_parse (w_version w)) = false ->
      handle w s =
        update w r (with_trace (st_trace s ++ [(OpFindPackages (requested_version w) false, st_fs s)]) s))) /\
  (Forall (fun p => pkg_prerelease p = true) packages ->
     fst (handle w s) = Return tt /\
     st_out (snd (handle w s)) =
       st_out s ++ [match packages with
                    | [] => "No release found for the specified version"
                    | _ => "No new release found"
                    end] /\
     st_fs (snd (handle w s)) = st_fs s /\
     st_trace (snd (handle w s)) =
       st_trace s ++ [(OpFindPackages (requested_version w) false, st_fs s)]).
Proof.
  intros Hpre Hnested packages. split.
  - intros r Hr. pose proof (select_release_Some _ _ _ Hr) as [Hin Hq].
    rewrite sort_In in Hin. split; [done|].
    split; [destruct Hq as [Hq|Hq]; [done | discriminate] |].
    intros Hne.
    apply relative_to_nested in Hnested as [rest Hrel].
    unfold handle, _check_recommended_installation, find_packages, bind.
    rewrite Hrel, Hpre. simpl.
    fold (requested_version w). fold packages.
    destruct packages as [|p l] eqn:Ep; [destruct Hin|].
    by rewrite Hr, Hne.
  - intros Hall.
    apply relative_to_nested in Hnested as [rest Hrel].
    unfold handle, _check_recommended_installation, find_packages, bind.
    rewrite Hrel, Hpre. simpl.
    fold (requested_version w). fold packages.
    destruct packages as [|p l] eqn:Ep; [done|].
    rewrite select_release_None; [done|].
    apply List.Forall_forall. intros x Hx. rewrite sort_In in Hx.
    rewrite List.Forall_forall in Hall. by apply Hall.
Qed.

End Selection.

Lemma installed_file_nested :
  nested_under false Demo.installed_file Demo.posix_home.
Proof. apply relative_to_nested. vm_compute. eauto. Qed.

Lemma select_release_never_prerelease_witness :
  (forall r, select_release false (sort Demo.candidates) = Some r ->
     In r Demo.candidates /\ pkg_prerelease r = false /\
     (v_eqb (pkg_version r) (v_parse "1.1.0") = false ->
      handle Demo.good_world Demo.state0 =
        update Demo.good_world r
          (with_trace [(OpFindPackages ">=1.1.0" false, Demo.fs0)] Demo.state0))) /\
  st_out (snd (handle (Demo.world Demo.installed_file false [Demo.release "1.3.0-alpha"]
                         (fun _ => UrlHTTPError 404)) Demo.state0))
    = ["No new release found"].
Proof.
  split.
  - apply (select_release_never_prerelease Demo.good_world Demo.state0);
      [reflexivity | exact installed_file_nested].
  - apply (select_release_never_prerelease
             (Demo.world Demo.installed_file false [Demo.release "1.3.0-alpha"]
                (fun _ => UrlHTTPError 404)) Demo.state0);
      [reflexivity | exact installed_file_nested |].
    repeat constructor.
Defined.

(** ** The release already installed *)

Section AlreadyCurrent.

Context {V : Type} `{VersionOrder V}.

Lemma cmp_neg (y x : Package V) :
  (cmp y x <? 0) = true -> v_leb (pkg_version x) (pkg_version y) = true.
Proof.
  unfold cmp, v_leb. pose proof (v_total (pkg_version y) (pkg_version x)) as Ht.
  destruct (v_eqb (pkg_version y) (pkg_version x)); [done|].
  destruct (v_ltb (pkg_version y) (pkg_version x)); [done|].
  simpl in Ht. rewrite Ht. intros _. apply orb_true_r.
Qed.

Lemma cmp_nonneg (y x : Package V) :
  (cmp y x <? 0) = false -> v_leb (pkg_version y) (pkg_version x) = true.
Proof.
  unfold cmp, v_leb.
  destruct (v_eqb (pkg_version y) (pkg_version x)); [done|].
  by destruct (v_ltb (pkg_version y) (pkg_version x)).
Qed.

Lemma insert_sorted_descending x l : descending l -> descending (insert_sorted x l).
Proof.
  induction 1 as [|y l Hy Hl IH]; simpl.
  - constructor; [intros ? []|constructor].
  - destruct (cmp y x <? 0) eqn:Ec.
    + constructor; [|done].
      intros z Hz. apply insert_sorted_In in Hz as [->|Hz]; [by apply cmp_neg | by apply Hy].
    + constructor; [|by constructor].
      intros z [<-|Hz]; [by apply cmp_nonneg|].
      eapply v_leb_trans; [by apply Hy | by apply cmp_nonneg].
Qed.

Lemma sort_descending l : descending (sort l).
Proof.
  induction l as [|x l IH]; simpl; [constructor | by apply insert_sorted_descending].
Qed.

(** In a descending list the scan stops at a highest qualifying candidate. *)
Lemma select_release_highest preview l r0 :
  descending l -> select_release preview l = Some r0 ->
  forall p, In p l -> qualifies preview p ->
    p = r0 \/ v_leb (pkg_version p) (pkg_version r0) = true.
Proof.
  unfold qualifies. induction 1 as [|x l Hx Hl IH]; simpl; [done|].
  intros Hsel p [<-|Hin] Hq.
  - destruct (pkg_prerelease x); [destruct preview|].
    + left. congruence.
    + destruct Hq; discriminate.
    + left. congruence.
  - destruct (pkg_prerelease x); [destruct preview|].
    + injection Hsel as <-. right. by apply Hx.
    + by apply IH.
    + injection Hsel as <-. right. by apply Hx.
Qed.

Context `{UnicodeData} (w : World V).

(** C6. When a highest qualifying candidate has the version that is
    installed, [handle] finds this out by [==] on the versions, prints
    that the latest version is in use and returns; after the query of the
    release index it performs no network, process or file-system
    operation, and the file system is as it was. *)
Theorem handle_already_current (s : state) (r : Package V) :
  nested_under (w_windows w) (w_file w) (w_home w) ->
  let packages := w_find_packages w (requested_version w) (w_option_preview w) in
  In r packages ->
  qualifies (w_option_preview w) r ->
  (forall p, In p packages -> qualifies (w_option_preview w) p ->
     v_ltb (pkg_version r) (pkg_version p) = false) ->
  v_eqb (pkg_version r) (v_parse (w_version w)) = true ->
  fst (handle w s) = Return tt /\
  st_out (snd (handle w s)) = st_out s ++ ["You are using the latest version"] /\
  st_fs (snd (handle w s)) = st_fs s /\
  st_trace (snd (handle w s)) =
    st_trace s ++ [(OpFindPackages (requested_version w) (w_option_preview w), st_fs s)].
Proof.
  intros Hnested packages Hin Hq Hmax Hcur.
  apply relative_to_nested in Hnested as [rest Hrel].
  unfold handle, _check_recommended_installation, find_packages, bind.
  rewrite Hrel. simpl. fold (requested_version w). fold packages.
  destruct packages as [|p0 l0] eqn:Ep; [destruct Hin|]. rewrite <- Ep in *.
  destruct (select_release_is_Some (w_option_preview w) (sort packages) r) as [r0 Hsel];
    [by apply sort_In | done |].
  rewrite Hsel.
  assert (v_eqb (pkg_version r0) (v_parse (w_version w)) = true) as ->; [|done].
  pose proof (select_release_Some _ _ _ Hsel) as [Hin0 Hq0]. rewrite sort_In in Hin0.
  destruct (select_release_highest _ _ _ (sort_descending packages) Hsel r) as [->|Hle];
    [by apply sort_In | done | done |].
  unfold v_leb in Hle. rewrite (Hmax r0 Hin0 Hq0), orb_false_r in Hle.
  eapply v_eqb_trans; [by apply v_eqb_sym | done].
Qed.

End AlreadyCurrent.

(** The order of the concrete versions. *)

Lemma lex_eqb_eq a b : Demo.lex_eqb a b = true <-> a = b.
Proof.
  revert b. induction a as [|x a IH]; intros [|y b]; simpl; try done.
  rewrite andb_true_iff, IH, N.eqb_eq. split; [intros [-> ->] | intros [= -> ->]]; done.
Qed.

Lemma lex_ltb_trans a b c :
  Demo.lex_ltb a b = true -> Demo.lex_ltb b c = true -> Demo.lex_ltb a c = true.
Proof.
  revert b c. induction a as [|x a IH]; intros [|y b] [|z c]; simpl; try done.
  rewrite !orb_true_iff, !andb_true_iff, !N.ltb_lt, !N.eqb_eq.
  intros [?|[? ?]] [?|[? ?]]; [left; lia | left; lia | left; lia | right; split; [lia | eauto]].
Qed.

Lemma lex_total a b :
  length a = length b ->
  Demo.lex_eqb a b || Demo.lex_ltb a b || Demo.lex_ltb b a = true.
Proof.
  revert b. induction a as [|x a IH]; intros [|y b]; simpl; try done.
  intros [= Hl]. specialize (IH b Hl).
  destruct (N.compare_spec x y) as [->|Hlt|Hgt].
  - rewrite N.eqb_refl, N.ltb_irrefl. simpl. done.
  - apply N.ltb_lt in Hlt as ->. simpl. by rewrite orb_true_r.
  - apply N.ltb_lt in Hgt as ->. simpl. apply orb_true_r.
Qed.

#[global] Instance semver_order : VersionOrder Demo.semver.
Proof.
  split; unfold v_leb; cbn [v_eqb v_ltb Demo.semver_ops].
  - intros a b. rewrite !lex_eqb_eq. done.
  - intros a b c. rewrite !lex_eqb_eq. congruence.
  - intros a b c. rewrite !orb_true_iff, !lex_eqb_eq.
    intros [->|Hab] [<-|Hbc]; eauto using lex_ltb_trans.
  - intros a b. by apply lex_total.
Qed.

Lemma handle_already_current_witness :
  st_out (snd (handle (Demo.world Demo.installed_file false
                         [Demo.release "1.0.0"; Demo.release "1.1.0"; Demo.release "1.2.0-alpha"]
                         (fun _ => UrlHTTPError 404)) Demo.state0))
    = ["You are using the latest version"].
Proof.
  apply (handle_already_current
           (Demo.world Demo.installed_file false
              [Demo.release "1.0.0"; Demo.release "1.1.0"; Demo.release "1.2.0-alpha"]
              (fun _ => UrlHTTPError 404)) Demo.state0 (Demo.release "1.1.0")).
  - exact installed_file_nested.
  - simpl. auto.
  - by left.
  - intros p [<-|[<-|[<-|[]]]] [Hq|Hq]; try done; discriminate.
  - reflexivity.
Defined.

(** ** Choosing the interpreter *)

Lemma append_empty s : EmptyString +:+ s = s.
Proof. reflexivity. Qed.

Lemma append_cons c s t : String c s +:+ t = String c (s +:+ t).
Proof. reflexivity. Qed.

Ltac string_app := rewrite ?append_empty, ?append_cons in *.

(** A boolean fact about code points, read as arithmetic. *)
Ltac code_points :=
  unfold Unicode.is_space, Unicode.between, is_newline in *;
  repeat match goal with
         | H : _ || _ = true |- _ => apply orb_true_iff in H as [H|H]
         | H : _ && _ = true |- _ => apply andb_true_iff in H as [? H]
         | H : (_ <=? _)%N = true |- _ => apply N.leb_le in H
         | H : (_ <? _)%N = true |- _ => apply N.ltb_lt in H
         | H : (_ <? _)%N = false |- _ => apply N.ltb_ge in H
         | H : (_ =? _)%N = true |- _ => apply N.eqb_eq in H
         | H : (_ =? _)%N = false |- _ => apply N.eqb_neq in H
         end;
  try lia.

Lemma strip_prefix_spec (p s r : text) : strip_prefix p s = Some r <-> s = p ++ r.
Proof.
  revert s. induction p as [|a p IH]; intros s; simpl.
  - split; congruence.
  - destruct s as [|b s]; [done|].
    destruct (N.eqb_spec a b) as [->|Hne].
    + rewrite IH. split; congruence.
    + split; [done | congruence].
Qed.

(** Decoding is strict: a no-break space in UTF-8 is white space and is
    stripped, the lone byte [0xA0] is an error; so are overlong forms and
    surrogates. *)
Example decode_no_break_space :
  Unicode.strip <$> Unicode.decode (encode "ab" ++ [Byte.xc2; Byte.xa0; Byte.x0a]) =
    Some ("ab" : text) /\
  Unicode.decode (encode "ab" ++ [Byte.xa0]) = None.
Proof. split; reflexivity. Qed.

Example decode_samples :
  Unicode.decode [Byte.xe2; Byte.x82; Byte.xac] = Some [8364%N] /\
  Unicode.decode [Byte.xf0; Byte.x9f; Byte.x98; Byte.x80] = Some [128512%N] /\
  Unicode.decode [Byte.xc0; Byte.x80] = None /\
  Unicode.decode [Byte.xe0; Byte.x80; Byte.x80] = None /\
  Unicode.decode [Byte.xed; Byte.xa0; Byte.x80] = None /\
  Unicode.decode [Byte.xf4; Byte.x90; Byte.x80; Byte.x80] = None /\
  Unicode.decode [Byte.xe2; Byte.x82] = None.
Proof. repeat split; reflexivity. Qed.

Section Pattern.

Context `{UnicodeData}.

Lemma span_digits_spec s d r :
  span_digits s = (d, r) <->
  s = d ++ r /\ forallb Unicode.is_digit d = true /\
  match r with c :: _ => Unicode.is_digit c = false | [] => True end.
Proof.
  revert d r. induction s as [|c s IH]; intros d r; simpl.
  - split.
    + intros [= <- <-]. done.
    + intros (E & _ & _). symmetry in E. apply app_eq_nil in E as [-> ->]. done.
  - destruct (Unicode.is_digit c) eqn:Ec.
    + destruct (span_digits s) as [d' r'] eqn:Es. split.
      * intros [= <- <-]. destruct (proj1 (IH d' r') eq_refl) as (-> & Hd & Hr).
        simpl. by rewrite Ec.
      * intros (E & Hd & Hr). destruct d as [|c' d]; simpl in *.
        -- subst r. congruence.
        -- injection E as <- ->.
           apply andb_true_iff in Hd as [_ Hd].
           assert ((d', r') = (d, r)) as [= -> ->] by (by apply IH).
           done.
    + split.
      * intros [= <- <-]. done.
      * intros (E & Hd & Hr). destruct d as [|c' d]; simpl in *.
        -- by subst.
        -- injection E as <- ->. by rewrite Ec in Hd.
Qed.

Lemma newline_char c : is_newline c = true -> c = 10%N.
Proof. unfold is_newline. by intros E%N.eqb_eq. Qed.

Lemma dot_plus_dollar_cons c s :
  dot_plus_dollar (c :: s) =
    negb (is_newline c) && (bool_decide (s = []) || bool_decide (s = [10%N]) || dot_plus_dollar s).
Proof.
  destruct s as [|c' [|c'' s']].
  - reflexivity.
  - change (dot_plus_dollar [c; c'])
      with (negb (is_newline c) && (is_newline c' || dot_plus_dollar [c'])).
    f_equal. destruct (is_newline c') eqn:E.
    + by rewrite (newline_char c' E).
    + rewrite (bool_decide_eq_false_2 ([c'] = [10%N])); [done|].
      intros [= ->]. done.
  - change (dot_plus_dollar (c :: c' :: c'' :: s'))
      with (negb (is_newline c) && dot_plus_dollar (c' :: c'' :: s')).
    f_equal. rewrite !bool_decide_eq_false_2; [done| |]; intros [=].
Qed.

Lemma dot_plus_dollar_spec s : dot_plus_dollar s = true <-> one_line s.
Proof.
  unfold one_line. induction s as [|c s IH].
  - split; [done|]. intros (body & Hne & _ & [E|E]); destruct body; done.
  - rewrite dot_plus_dollar_cons, andb_true_iff, !orb_true_iff, !bool_decide_eq_true, IH.
    rewrite negb_true_iff. split.
    + intros [Ec [[->| ->]|(body & Hne & Hb & E)]].
      * exists [c]. simpl. rewrite Ec. auto.
      * exists [c]. simpl. rewrite Ec. auto.
      * exists (c :: body). simpl. rewrite Ec, Hb.
        split; [done|]. split; [done|]. destruct E as [->| ->]; auto.
    + intros ([|c' body] & Hne & Hb & E); [done|]. simpl in Hb.
      apply andb_true_iff in Hb as [Hc Hb]. apply negb_true_iff in Hc.
      assert (c' = c) as -> by (destruct E as [E|E]; simpl in E; congruence).
      split; [done|].
      destruct body as [|c'' body']; simpl in E.
      * destruct E as [E|E]; injection E as <-; auto.
      * right. exists (c'' :: body').
        split; [done|]. split; [done|].
        destruct E as [E|E]; injection E as ->; simpl; auto.
Qed.

Lemma version_matcher_spec s major minor :
  version_matcher s = Some (major, minor) <-> matches_version_pattern s major minor.
Proof.
  unfold version_matcher, matches_version_pattern, digits. split.
  - destruct (strip_prefix ("Python " : text) s) as [s1|] eqn:E1; [|done].
    apply strip_prefix_spec in E1 as ->.
    destruct (span_digits s1) as [d1 r1] eqn:E2.
    apply span_digits_spec in E2 as (-> & Hd1 & _).
    destruct d1 as [|c1 d1]; [done|].
    destruct (strip_prefix ("." : text) r1) as [s2|] eqn:E3; [|done].
    apply strip_prefix_spec in E3 as ->.
    destruct (span_digits s2) as [d2 r2] eqn:E4.
    apply span_digits_spec in E4 as (-> & Hd2 & _).
    destruct d2 as [|c2 d2]; [done|].
    destruct (strip_prefix ("." : text) r2) as [s3|] eqn:E5; [|done].
    apply strip_prefix_spec in E5 as ->.
    destruct (dot_plus_dollar s3) eqn:E6; [|done].
    intros [= <- <-]. exists s3. rewrite <- dot_plus_dollar_spec. done.
  - intros (rest & -> & [Hn1 Hd1] & [Hn2 Hd2] & Hrest).
    rewrite (proj2 (strip_prefix_spec ("Python " : text) _ _) eq_refl).
    rewrite (proj2 (span_digits_spec _ major (("." : text) ++ minor ++ ("." : text) ++ rest)));
      [|done].
    destruct major as [|c1 major]; [done|].
    rewrite (proj2 (strip_prefix_spec ("." : text) _ _) eq_refl).
    rewrite (proj2 (span_digits_spec _ minor (("." : text) ++ rest))); [|done].
    destruct minor as [|c2 minor]; [done|].
    rewrite (proj2 (strip_prefix_spec ("." : text) _ _) eq_refl).
    by rewrite (proj2 (dot_plus_dollar_spec rest) Hrest).
Qed.

Lemma digit_decimal c : Unicode.is_digit c = true -> exists d, Unicode.decimal c = Some d.
Proof. unfold Unicode.is_digit. destruct (Unicode.decimal c); [eauto | done]. Qed.

Lemma digit_not_space c : Unicode.is_digit c = true -> Unicode.is_space c = false.
Proof.
  intros [d Hd]%digit_decimal. unfold Unicode.decimal in Hd.
  destruct (c <? 128)%N eqn:Ec.
  - destruct (Unicode.between 48 57 c) eqn:Eb; [|done].
    destruct (Unicode.is_space c) eqn:Es; [|done]. exfalso. code_points.
  - by destruct (Unicode.is_space c).
Qed.

Lemma digit_not_sign c : Unicode.is_digit c = true -> (c =? 45)%N = false /\ (c =? 43)%N = false.
Proof.
  intros [d Hd]%digit_decimal. unfold Unicode.decimal in Hd.
  destruct (c <? 128)%N eqn:Ec.
  - destruct (Unicode.between 48 57 c) eqn:Eb; [|done].
    split; apply N.eqb_neq; code_points.
  - split; apply N.eqb_neq; code_points.
Qed.

Lemma rstrip_digits s : forallb Unicode.is_digit s = true -> Unicode.rstrip s = s.
Proof.
  induction s as [|c s IH]; simpl; [done|].
  intros [Hc Hs]%andb_true_iff. rewrite (IH Hs), (digit_not_space c Hc).
  by destruct s.
Qed.

Lemma strip_digits s : forallb Unicode.is_digit s = true -> Unicode.strip s = s.
Proof.
  intros Hs. unfold Unicode.strip.
  assert (Unicode.lstrip s = s) as ->; [|by apply rstrip_digits].
  destruct s as [|c s]; simpl in *; [done|].
  apply andb_true_iff in Hs as [Hc _]. by rewrite (digit_not_space c Hc).
Qed.

Lemma int_digits_total s acc after :
  forallb Unicode.is_digit s = true -> 0 <= acc ->
  s <> [] \/ after = true ->
  exists a, Unicode.int_digits acc after s = Some a /\ 0 <= a.
Proof.
  revert acc after. induction s as [|c s IH]; intros acc after Hs Hacc Hne; simpl.
  - destruct Hne as [?| ->]; [done | eauto].
  - simpl in Hs. apply andb_true_iff in Hs as [Hc Hs].
    destruct (digit_decimal c Hc) as [d ->].
    apply IH; [done | lia | by right].
Qed.

Lemma int_of_digits s : digits s -> exists a, Unicode.int s = Some a /\ 0 <= a.
Proof.
  intros [Hne Hs]. unfold Unicode.int. rewrite (strip_digits s Hs).
  destruct s as [|c s]; [done|].
  assert (exists a, Unicode.int_digits 0 false (c :: s) = Some a /\ 0 <= a) as Hint
    by (apply int_digits_total; [done | lia | by left]).
  simpl in Hs. apply andb_true_iff in Hs as [Hc _].
  by destruct (digit_not_sign c Hc) as [-> ->].
Qed.

End Pattern.

Lemma find_first {A} (f : A -> bool) l x :
  find f l = Some x ->
  exists pre post, l = pre ++ x :: post /\ f x = true /\ Forall (fun y => f y = false) pre.
Proof.
  induction l as [|y l IH]; simpl; [done|].
  destruct (f y) eqn:Ey.
  - intros [= ->]. exists [], l. auto.
  - intros (pre & post & -> & Hx & Hpre)%IH. exists (y :: pre), post. auto.
Qed.

Lemma find_nowhere {A} (f : A -> bool) l :
  find f l = None -> Forall (fun y => f y = false) l.
Proof.
  induction l as [|y l IH]; simpl; [done|].
  destruct (f y) eqn:Ey; [done|]. auto.
Qed.

Lemma with_trace_nil s : with_trace (st_trace s ++ []) s = s.
Proof. destruct s. unfold with_trace. simpl. by rewrite app_nil_r. Qed.

Section WhichPython.

Context {V : Type} `{VersionOps V} `{UnicodeData} (w : World V).

Lemma python3_capableb_spec e : python3_capableb w e = true <-> python3_capable w e.
Proof.
  unfold python3_capableb, python3_capable. split.
  - destruct (w_check_output w (e +:+ " --version")) as [output|]; [|done].
    destruct (Unicode.decode output) as [raw|] eqn:Ed; [|done].
    destruct (version_matcher (Unicode.strip raw)) as [[major minor]|] eqn:Em; [|done].
    apply version_matcher_spec in Em.
    destruct (Unicode.int major) as [a|] eqn:Ea; [|done].
    destruct (Unicode.int minor) as [b|] eqn:Eb; [|done].
    unfold tuple_ge. simpl. intros Hge. exists output, raw, major, minor, a.
    repeat split; try done. lia.
  - intros (output & raw & major & minor & a & -> & -> & Hm & Ha & Hge).
    rewrite (proj2 (version_matcher_spec _ _ _) Hm), Ha.
    destruct Hm as (rest & _ & _ & Hmin & _).
    destruct (int_of_digits minor Hmin) as (b & -> & Hb).
    unfold tuple_ge. simpl. lia.
Qed.

Lemma ranb_spec e : ranb w e = true <-> ran w e.
Proof. unfold ranb, ran. apply bool_decide_eq_true. Qed.

Lemma garbledb_spec e : garbledb w e = true <-> garbled w e.
Proof.
  unfold garbledb, garbled. split.
  - destruct (w_check_output w (e +:+ " --version")) as [output|]; [|done].
    destruct (Unicode.decode output) eqn:Ed; [done|]. eauto.
  - intros (output & -> & ->). done.
Qed.

Lemma stopsb_spec e : stopsb w e = true <-> stops w e.
Proof.
  unfold stopsb, stops. by rewrite orb_true_iff, python3_capableb_spec, garbledb_spec.
Qed.

Lemma not_stopsb l :
  Forall (fun y => stopsb w y = false) l -> Forall (fun y => ~ stops w y) l.
Proof.
  intros Hl. eapply List.Forall_impl; [|exact Hl]. intros y Hy Hc.
  apply stopsb_spec in Hc. congruence.
Qed.

Lemma garbled_not_python3 e : garbledb w e = true -> python3_capableb w e = false.
Proof.
  unfold garbledb, python3_capableb.
  destruct (w_check_output w (e +:+ " --version")) as [output|]; [|done].
  by destruct (Unicode.decode output).
Qed.

Lemma chosen_cons e l fallback :
  chosen w (e :: l) fallback =
    if garbledb w e then Raise UnicodeDecodeError
    else if python3_capableb w e then Return e
    else chosen w l match fallback with
                    | Some f => Some f
                    | None => if ranb w e then Some e else None
                    end.
Proof.
  unfold chosen. simpl. unfold stopsb at 1.
  destruct (garbledb w e) eqn:Eg.
  - rewrite orb_true_r. cbn. by rewrite Eg.
  - rewrite orb_false_r. destruct (python3_capableb w e) eqn:E3; [cbn; by rewrite Eg|].
    destruct (find (stopsb w) l); [done|].
    destruct fallback; [done|]. by destruct (ranb w e).
Qed.

Lemma process_version_run e s :
  process_version w e s =
    (match w_check_output w (e +:+ " --version") with
     | None => Return None
     | Some output =>
         match Unicode.decode output with
         | Some raw => Return (Some raw)
         | None => Raise UnicodeDecodeError
         end
     end,
     with_trace (st_trace s ++ [version_query (st_fs s) e]) s).
Proof.
  unfold process_version, decode_, bind, log, ret, raise. simpl.
  destruct (w_check_output w (e +:+ " --version")) as [output|]; [|done].
  by destruct (Unicode.decode output).
Qed.

(** The whole run of the loop: what it comes to, and the queries it
    records. *)
Lemma which_python_loop_state executables fallback s :
  which_python_loop w executables fallback s =
    (chosen w executables fallback,
     with_trace (st_trace s ++ map (version_query (st_fs s)) (probed w executables)) s).
Proof.
  revert fallback s. induction executables as [|e l IH]; intros fallback s.
  - simpl. rewrite with_trace_nil. by destruct fallback.
  - rewrite chosen_cons. cbn [which_python_loop probed map].
    unfold bind at 1. rewrite process_version_run.
    unfold garbledb, python3_capableb, stopsb, ranb, garbledb, python3_capableb.
    destruct (w_check_output w (e +:+ " --version")) as [output|] eqn:Eo.
    + destruct (Unicode.decode output) as [raw|] eqn:Ed; [|by rewrite orb_true_r].
      rewrite orb_false_r.
      rewrite (bool_decide_eq_true_2 (is_Some (Some output))) by eauto.
      destruct (version_matcher (Unicode.strip raw)) as [[major minor]|] eqn:Em.
      * apply version_matcher_spec in Em as (rest & _ & Hmaj & Hmin & _).
        destruct (int_of_digits major Hmaj) as (a & Ea & _).
        destruct (int_of_digits minor Hmin) as (b & Eb & _).
        unfold int_, bind, ret. rewrite Ea, Eb.
        destruct (tuple_ge (a, b) (3, 0)); [done|].
        rewrite IH. unfold with_trace. simpl. rewrite <- app_assoc.
        by destruct fallback.
      * unfold bind, ret. rewrite IH. unfold with_trace. simpl. rewrite <- app_assoc.
        by destruct fallback.
    + rewrite (bool_decide_eq_false_2 (is_Some None)) by (by intros [? ?]).
      cbn [orb]. rewrite IH. unfold with_trace. simpl. rewrite <- app_assoc.
      by destruct fallback.
Qed.

Lemma which_python_loop_run executables fallback s :
  fst (which_python_loop w executables fallback s) = chosen w executables fallback.
Proof. by rewrite which_python_loop_state. Qed.


End WhichPython.

Example which_python_demo :
  fst (_which_python Demo.good_world Demo.state0) = Return "python3".
Proof. reflexivity. Qed.


(** ** Frame reasoning for the monad *)

Section Preservation.

Context (R : relation state) `{!Reflexive R} `{!Transitive R}.

Lemma preserves_ret {A} (a : A) : preserves R (ret a).
Proof. intros s. simpl. reflexivity. Qed.

Lemma preserves_raise {A} e : preserves R (@raise A e).
Proof. intros s. simpl. reflexivity. Qed.

Lemma preserves_bind {A B} (m : M A) (k : A -> M B) :
  preserves R m -> (forall a, preserves R (k a)) -> preserves R (bind m k).
Proof.
  intros Hm Hk s. unfold bind. specialize (Hm s).
  destruct (m s) as [[a|e] s1]; simpl in *; [|done].
  etransitivity; [exact Hm | apply Hk].
Qed.

Lemma preserves_when b (m : M unit) : preserves R m -> preserves R (when b m).
Proof. destruct b; simpl; [done | intros _; apply preserves_ret]. Qed.

Lemma preserves_try_except_finally {A} (body : M A) handler final :
  preserves R body -> (forall e, preserves R (handler e)) -> preserves R final ->
  preserves R (try_except_finally body handler final).
Proof.
  intros Hb Hh Hf s. unfold try_except_finally.
  specialize (Hb s). destruct (body s) as [[a|e] s1]; simpl in *.
  - specialize (Hf s1). destruct (final s1) as [[[]|e'] s2]; simpl in *;
      etransitivity; eauto.
  - specialize (Hh e s1). destruct (handler e s1) as [r s2]; simpl in *.
    specialize (Hf s2). destruct (final s2) as [[[]|e'] s3]; simpl in *;
      (etransitivity; [exact Hb|]); etransitivity; eauto.
Qed.

Lemma preserves_try_finally {A} (body : M A) final :
  preserves R body -> preserves R final -> preserves R (try_finally body final).
Proof.
  intros. apply preserves_try_except_finally; auto using @preserves_raise.
Qed.

Lemma preserves_try_except_HTTPError {A} (body : M A) handler :
  preserves R body -> (forall code, preserves R (handler code)) ->
  preserves R (try_except_HTTPError body handler).
Proof.
  intros Hb Hh s. unfold try_except_HTTPError.
  specialize (Hb s). destruct (body s) as [[a|e] s1]; simpl in *; [done|].
  destruct e; try done. etransitivity; [exact Hb | apply Hh].
Qed.

End Preservation.

#[global] Instance keeps_refl d : Reflexive (keeps d).
Proof. by intros s. Qed.

#[global] Instance keeps_trans d : Transitive (keeps d).
Proof. unfold keeps. intros s1 s2 s3 H12 H23. congruence. Qed.

#[global] Instance logs_only_refl P : Reflexive (logs_only P).
Proof. intros s. exists []. by rewrite app_nil_r. Qed.

#[global] Instance logs_only_trans P : Transitive (logs_only P).
Proof.
  intros s1 s2 s3 (n1 & E1 & H1) (n2 & E2 & H2). exists (n1 ++ n2).
  rewrite E2, E1, app_assoc. split; [done | by apply Forall_app].
Qed.

#[global] Instance lib_guard_refl : Reflexive lib_guard.
Proof. intros s. exists []. rewrite app_nil_r. auto. Qed.

#[global] Instance lib_guard_trans : Transitive lib_guard.
Proof.
  intros s1 s2 s3 (n1 & E1 & H1) (n2 & E2 & H2). exists (n1 ++ n2).
  rewrite E2, E1, app_assoc. split; [done|].
  rewrite Exists_app. destruct H1 as [H1|H1]; [|auto].
  destruct H2 as [H2|H2]; [left; congruence | auto].
Qed.

(** One step of a frame proof: split the computation at its head. *)
Ltac frame_goal :=
  lazymatch goal with
  | |- forall _, _ => intros ?
  | |- preserves _ _ => idtac
  | _ => apply _
  end.

Ltac frame_step :=
  lazymatch goal with
  | |- preserves _ (bind _ _) => apply preserves_bind; frame_goal
  | |- preserves _ (ret _) => apply preserves_ret; apply _
  | |- preserves _ (raise _) => apply preserves_raise; apply _
  | |- preserves _ (when _ _) => apply preserves_when; frame_goal
  | |- preserves _ (try_except_finally _ _ _) =>
      apply preserves_try_except_finally; frame_goal
  | |- preserves _ (try_finally _ _) => apply preserves_try_finally; frame_goal
  | |- preserves _ (try_except_HTTPError _ _) =>
      apply preserves_try_except_HTTPError; frame_goal
  | |- preserves _ (match ?x with _ => _ end) => destruct x
  end.

Create HintDb frame discriminated.

Ltac frame := repeat first [ solve [eauto with frame] | frame_step ].

Lemma silent_get_fs : silent get_fs.
Proof. by intros s. Qed.

Lemma silent_line text : silent (line text).
Proof. by intros s. Qed.

Lemma silent_bar_emit e : silent (bar_emit e).
Proof. by intros s. Qed.

Lemma silent_pop_fault : silent pop_fault.
Proof. intros s. unfold pop_fault. by destruct (st_faults s). Qed.

Lemma silent_exists_ d : silent (exists_ d).
Proof. by intros s. Qed.

Lemma silent_keeps {A} d (m : M A) : silent m -> preserves (keeps d) m.
Proof. intros Hm s. unfold keeps. by rewrite (proj1 (Hm s)). Qed.

Lemma silent_logs_only {A} P (m : M A) : silent m -> preserves (logs_only P) m.
Proof. intros Hm s. exists []. by rewrite (proj2 (Hm s)), app_nil_r. Qed.

Lemma silent_lib_guard {A} (m : M A) : silent m -> preserves lib_guard m.
Proof.
  intros Hm s. exists []. rewrite (proj2 (Hm s)), (proj1 (Hm s)), app_nil_r. auto.
Qed.

Lemma keeps_log d o : preserves (keeps d) (log o).
Proof. by intros s. Qed.

Lemma logs_only_log (P : op -> Prop) o : P o -> preserves (logs_only P) (log o).
Proof. intros Ho s. exists [(o, st_fs s)]. split; [done|]. by constructor. Qed.

Lemma lib_guard_log o : preserves lib_guard (log o).
Proof. intros s. exists [(o, st_fs s)]. auto. Qed.

Lemma keeps_put_dir d d' t : d <> d' -> preserves (keeps d) (put_dir d' t).
Proof. intros Hne s. unfold keeps. simpl. by destruct d, d'. Qed.

Lemma logs_only_put_dir P d t : preserves (logs_only P) (put_dir d t).
Proof. intros s. exists []. by rewrite app_nil_r. Qed.

Lemma lib_guard_put_dir d t : d <> Lib -> preserves lib_guard (put_dir d t).
Proof. intros Hne s. exists []. rewrite app_nil_r. split; [done|]. left. by destruct d. Qed.

Lemma logs_only_mono (P Q : op -> Prop) s s' :
  (forall o, P o -> Q o) -> logs_only P s s' -> logs_only Q s s'.
Proof.
  intros HPQ (new & E & Hn). exists new. split; [done|].
  eapply List.Forall_impl; [|exact Hn]. intros e. apply HPQ.
Qed.

#[global] Hint Resolve silent_get_fs silent_line silent_bar_emit silent_pop_fault
  silent_exists_ silent_keeps silent_logs_only silent_lib_guard
  keeps_log lib_guard_log logs_only_put_dir : frame.
#[global] Hint Extern 1 (preserves (keeps _) (put_dir _ _)) =>
  apply keeps_put_dir; discriminate : frame.
#[global] Hint Extern 1 (preserves lib_guard (put_dir _ _)) =>
  apply lib_guard_put_dir; discriminate : frame.
Ltac op_side := simpl; first [done | tauto | hnf; simpl; first [done | tauto] | auto].

#[global] Hint Extern 1 (preserves (logs_only _) (log _)) =>
  apply logs_only_log; op_side : frame.

(** *** File operations *)

Section FileFrames.

Context (P : op -> Prop).

Lemma logs_only_rmtree d : P (OpRmtree d) -> preserves (logs_only P) (rmtree d).
Proof. intros. unfold rmtree. frame. Qed.

Lemma logs_only_copytree src dst :
  P (OpCopytree src dst) -> preserves (logs_only P) (copytree src dst).
Proof. intros. unfold copytree. frame. Qed.

Lemma logs_only_open_w umask d name :
  P (OpWrite d name) -> preserves (logs_only P) (open_w umask d name).
Proof. intros. unfold open_w. frame. Qed.

Lemma logs_only_write d name buffer :
  P (OpWrite d name) -> preserves (logs_only P) (write d name buffer).
Proof. intros. unfold write. frame. Qed.

Lemma logs_only_read_file d name : preserves (logs_only P) (read_file d name).
Proof. unfold read_file. frame. Qed.

Lemma logs_only_chmod_or d name bits :
  P (OpChmod d name) -> preserves (logs_only P) (chmod_or d name bits).
Proof. intros. unfold chmod_or. frame. Qed.

Lemma logs_only_mkdir d : P (OpMkdir d) -> preserves (logs_only P) (mkdir d).
Proof. intros. unfold mkdir. frame. Qed.

Lemma logs_only_extractall ex d :
  P (OpExtract d) -> preserves (logs_only P) (extractall ex d).
Proof. intros. unfold extractall. frame. Qed.

End FileFrames.

Section KeepFrames.

Context (d : dir).

Lemma keeps_rmtree d' : d <> d' -> preserves (keeps d) (rmtree d').
Proof. intros. unfold rmtree. frame; apply keeps_put_dir; done. Qed.

Lemma keeps_copytree src dst : d <> dst -> preserves (keeps d) (copytree src dst).
Proof. intros. unfold copytree. frame; apply keeps_put_dir; done. Qed.

Lemma keeps_open_w umask d' name : d <> d' -> preserves (keeps d) (open_w umask d' name).
Proof. intros. unfold open_w. frame; apply keeps_put_dir; done. Qed.

Lemma keeps_write d' name buffer : d <> d' -> preserves (keeps d) (write d' name buffer).
Proof. intros. unfold write. frame; apply keeps_put_dir; done. Qed.

Lemma keeps_read_file d' name : preserves (keeps d) (read_file d' name).
Proof. unfold read_file. frame. Qed.

Lemma keeps_extractall ex d' : d <> d' -> preserves (keeps d) (extractall ex d').
Proof. intros. unfold extractall. frame; apply keeps_put_dir; done. Qed.

End KeepFrames.

Lemma lib_guard_extractall ex : preserves lib_guard (extractall ex Lib).
Proof.
  intros s. unfold extractall, bind, log, get_fs, put_dir, put_fs, ret, raise. simpl.
  exists [(OpExtract Lib, st_fs s)].
  destruct (ex_members ex), (ex_error ex); simpl; (split; [done|]); right; by left.
Qed.

Lemma lib_guard_open_w umask name : preserves lib_guard (open_w umask Tmp name).
Proof. unfold open_w. frame. Qed.

Lemma lib_guard_write name buffer : preserves lib_guard (write Tmp name buffer).
Proof. unfold write. frame. Qed.

Lemma lib_guard_read_file d name : preserves lib_guard (read_file d name).
Proof. unfold read_file. frame. Qed.

#[global] Hint Resolve lib_guard_extractall lib_guard_open_w lib_guard_write
  lib_guard_read_file logs_only_read_file keeps_read_file : frame.
#[global] Hint Extern 1 (preserves (logs_only _) (rmtree _)) =>
  apply logs_only_rmtree; op_side : frame.
#[global] Hint Extern 1 (preserves (logs_only _) (copytree _ _)) =>
  apply logs_only_copytree; op_side : frame.
#[global] Hint Extern 1 (preserves (logs_only _) (open_w _ _ _)) =>
  apply logs_only_open_w; op_side : frame.
#[global] Hint Extern 1 (preserves (logs_only _) (write _ _ _)) =>
  apply logs_only_write; op_side : frame.
#[global] Hint Extern 1 (preserves (logs_only _) (chmod_or _ _ _)) =>
  apply logs_only_chmod_or; op_side : frame.
#[global] Hint Extern 1 (preserves (logs_only _) (mkdir _)) =>
  apply logs_only_mkdir; op_side : frame.
#[global] Hint Extern 1 (preserves (logs_only _) (extractall _ _)) =>
  apply logs_only_extractall; op_side : frame.
#[global] Hint Extern 1 (preserves (keeps _) (rmtree _)) =>
  apply keeps_rmtree; discriminate : frame.
#[global] Hint Extern 1 (preserves (keeps _) (copytree _ _)) =>
  apply keeps_copytree; discriminate : frame.
#[global] Hint Extern 1 (preserves (keeps _) (open_w _ _ _)) =>
  apply keeps_open_w; discriminate : frame.
#[global] Hint Extern 1 (preserves (keeps _) (write _ _ _)) =>
  apply keeps_write; discriminate : frame.
#[global] Hint Extern 1 (preserves (keeps _) (extractall _ _)) =>
  apply keeps_extractall; discriminate : frame.

(** *** The download *)

Section UpdateFrames.

Context {V : Type} `{VersionOps V} `{UnicodeData} (w : World V).

Lemma download_loop_preserves (R : relation state) `{!Reflexive R} `{!Transitive R}
    r name reads current sha :
  (forall buffer, preserves R (write Tmp name buffer)) ->
  (forall e, preserves R (bar_emit e)) ->
  preserves R (download_loop r name reads current sha).
Proof.
  intros Hw Hb. revert current sha.
  induction reads as [|buffer rest IH]; intros current sha; simpl.
  - destruct (resp_aborted r); frame.
  - frame.
Qed.

Lemma update_preserves (R : relation state) `{!Reflexive R} `{!Transitive R} version :
  (forall o, download_op o -> preserves R (log o)) ->
  (forall t, preserves R (put_dir Tmp t)) ->
  (forall A (m : M A), silent m -> preserves R m) ->
  (forall ex, preserves R (extractall ex Lib)) ->
  preserves R (_update w version).
Proof.
  intros Hlog Hput Hsilent Hex.
  assert (forall name buffer, preserves R (write Tmp name buffer)) as Hwrite.
  { intros. unfold write. frame; auto using silent_get_fs; by apply Hlog. }
  assert (forall umask name, preserves R (open_w umask Tmp name)) as Hopen.
  { intros. unfold open_w. frame; auto using silent_get_fs; by apply Hlog. }
  assert (forall d name, preserves R (read_file d name)) as Hread.
  { intros. unfold read_file. frame; auto using silent_get_fs. }
  assert (forall url, preserves R (urlopen w url)) as Hurl.
  { intros. unfold urlopen. frame. by apply Hlog. }
  unfold _update, temporary_directory, read_all, decode_, int_header.
  repeat first
    [ solve [auto using silent_bar_emit]
    | by apply Hlog
    | apply download_loop_preserves; [apply _ | apply _ | by auto | by auto using silent_bar_emit]
    | frame_step ].
Qed.

Lemma update_logs_only version : preserves (logs_only fetch_op) (_update w version).
Proof.
  apply update_preserves; try apply _.
  - intros o Ho. apply logs_only_log. by left.
  - intros. apply logs_only_put_dir.
  - intros. by apply silent_logs_only.
  - intros. apply logs_only_extractall. by right.
Qed.

Lemma update_lib_guard version : preserves lib_guard (_update w version).
Proof.
  apply update_preserves; try apply _; eauto with frame.
Qed.

Lemma update_keeps d version : d <> Lib -> d <> Tmp -> preserves (keeps d) (_update w version).
Proof.
  intros Hl Ht. apply update_preserves; try apply _; eauto with frame.
  - intros. by apply keeps_put_dir.
  - intros. by apply keeps_extractall.
Qed.

End UpdateFrames.

(** ** Failures of the download leave the installation alone *)

Section FetchFailure.

Context {V : Type} `{VersionOps V} `{UnicodeData} (w : World V).


End FetchFailure.



(** ** The phases of [update] *)

Lemma bind_assoc {A B C} (m : M A) (k : A -> M B) (k' : B -> M C) s :
  bind (bind m k) k' s = bind m (fun a => bind (k a) k') s.
Proof. unfold bind. by destruct (m s) as [[a|e] s1]. Qed.

Lemma bind_ext {A B} (m : M A) (k k' : A -> M B) s :
  (forall a s1, k a s1 = k' a s1) -> bind m k s = bind m k' s.
Proof. intros Hk. unfold bind. by destruct (m s) as [[a|e] s1]. Qed.

Lemma bind_ext_returned {A B} (m : M A) (k k' : A -> M B) s :
  (forall a s1, m s = (Return a, s1) -> k a s1 = k' a s1) -> bind m k s = bind m k' s.
Proof. intros Hk. unfold bind. destruct (m s) as [[a|e] s1]; [by apply Hk | done]. Qed.

Lemma bar_emit_bind {B} e (k : M B) s :
  (bar_emit e ;; k) s = k (with_bar (st_bar s ++ [e]) s).
Proof. reflexivity. Qed.

Lemma bind_raises {A B} (m : M A) (k : A -> M B) s e s1 :
  m s = (Raise e, s1) -> bind m k s = (Raise e, s1).
Proof. intros Hm. unfold bind. by rewrite Hm. Qed.

Lemma bind_returns {A B} (m : M A) (k : A -> M B) s a s1 :
  m s = (Return a, s1) -> bind m k s = k a s1.
Proof. intros Hm. unfold bind. by rewrite Hm. Qed.

Lemma preserves_mono {A} (R R' : relation state) (m : M A) :
  (forall s s', R s s' -> R' s s') -> preserves R m -> preserves R' m.
Proof. intros HR Hm s. apply HR, Hm. Qed.

Lemma restore_raises e s : exists e', fst (restore e s) = Raise e'.
Proof.
  unfold restore, bind, exists_, get_fs, ret. simpl.
  destruct (bool_decide (is_Some (fs_lib_backup (st_fs s)))); simpl; [|by eauto].
  destruct (copytree LibBackup Lib s) as [[[]|e1] s1]; simpl; [|by eauto].
  destruct (rmtree LibBackup s1) as [[[]|e2] s2]; simpl; eauto.
Qed.

Section Phases.

Context {V : Type} `{VersionOps V} `{UnicodeData} (w : World V).

Lemma update_phases release s :
  update w release s = (guarded_update w release ;; announce_success w release) s.
Proof.
  unfold update, guarded_update, backup_phase, announce_success.
  do 5 (rewrite ?bind_assoc; apply bind_ext; intros ? ?).
  reflexivity.
Qed.

Lemma guarded_update_keeps_bin release : preserves (keeps Bin) (guarded_update w release).
Proof.
  unfold guarded_update, backup_phase, restore, discard_backup.
  frame. by apply update_keeps.
Qed.

Lemma fetch_op_not_launcher o : fetch_op o -> ~ launcher_op o.
Proof. intros [Ho| ->]; [|tauto]. destruct o as [| | | [] | | | | [] | |]; simpl in *; tauto. Qed.

Lemma guarded_update_no_launcher_op release :
  preserves (logs_only (fun o => ~ launcher_op o)) (guarded_update w release).
Proof.
  unfold guarded_update, backup_phase, restore, discard_backup.
  frame.
  eapply preserves_mono; [|apply update_logs_only].
  intros s s'. apply logs_only_mono, fetch_op_not_launcher.
Qed.


End Phases.


(** ** The backup is complete before the live tree is removed *)

#[global] Instance rm_lib_guarded_refl t : Reflexive (rm_lib_guarded t).
Proof.
  intros s. exists []. rewrite app_nil_r. split; [done|].
  intros [|? ?] f post E; discriminate.
Qed.

Lemma app_eq_split {A} (a b pre post : list A) x :
  a ++ b = pre ++ x :: post ->
  (exists post', a = pre ++ x :: post' /\ post = post' ++ b) \/
  (exists pre', b = pre' ++ x :: post /\ pre = a ++ pre').
Proof.
  revert pre. induction a as [|y a IH]; intros pre E; simpl in *.
  - right. exists pre. auto.
  - destruct pre as [|z pre]; simpl in *.
    + injection E as -> <-. left. exists a. auto.
    + injection E as -> E. destruct (IH pre E) as [(post' & -> & ->)|(pre' & -> & ->)].
      * left. exists post'. auto.
      * right. exists pre'. auto.
Qed.

#[global] Instance rm_lib_guarded_trans t : Transitive (rm_lib_guarded t).
Proof.
  intros s1 s2 s3 (n1 & E1 & H1) (n2 & E2 & H2). exists (n1 ++ n2).
  rewrite E2, E1, app_assoc. split; [done|].
  intros pre f post E.
  apply app_eq_split in E as [(post' & -> & ->)|(pre' & -> & ->)].
  - eapply H1. reflexivity.
  - destruct (H2 pre' f post eq_refl) as (? & ? & f0 & Hin).
    split; [done|]. split; [done|]. exists f0. apply in_or_app. by right.
Qed.

Lemma logs_only_rm_lib_guarded t s s' :
  logs_only not_rm_lib s s' -> rm_lib_guarded t s s'.
Proof.
  intros (new & E & Hn). exists new. split; [done|].
  intros pre f post ->. apply Forall_app in Hn as [_ Hn].
  apply Forall_cons in Hn as [Hn _]. by destruct Hn.
Qed.

(** The two calls that make the backup. *)
Lemma backup_pair_guarded t s :
  fs_lib (st_fs s) = Some t ->
  rm_lib_guarded t s (snd ((copytree Lib LibBackup ;; rmtree Lib) s)).
Proof.
  destruct s as [[lib backup bin tmp] out bar tr faults]. simpl. intros ->.
  unfold copytree, rmtree, bind, log, get_fs, pop_fault, put_dir, put_fs, raise, ret.
  simpl.
  destruct backup as [tb|]; simpl.
  { exists [(OpCopytree Lib LibBackup,
             {| fs_lib := Some t; fs_lib_backup := Some tb; fs_bin := bin; fs_tmp := tmp |})].
    split; [done|]. intros [|? [|? ?]] f post E; simplify_eq/=. }
  destruct faults as [|[n|] [|[n'|] faults]]; simpl;
    (eexists; split; [rewrite <- ?app_assoc; reflexivity|]);
    intros [|? [|? [|? ?]]] f post E; simplify_eq/=; eauto.
Qed.

Section Launcher.

Context {V : Type} `{VersionOps V} `{UnicodeData} (w : World V).

Lemma which_python_loop_logs executables fallback :
  preserves (logs_only launcher_op) (which_python_loop w executables fallback).
Proof.
  revert fallback. induction executables as [|e l IH]; intros fallback; simpl.
  - destruct fallback; frame.
  - unfold process_version, decode_, int_.
    repeat first [ solve [eauto with frame] | apply IH | frame_step ].
Qed.

Lemma make_bin_logs : preserves (logs_only launcher_op) (make_bin w).
Proof.
  unfold make_bin, _which_python, environ_item, write_text.
  repeat first [ solve [eauto with frame] | apply which_python_loop_logs | frame_step ].
Qed.

Lemma announce_success_logs release :
  preserves (logs_only launcher_op) (announce_success w release).
Proof.
  unfold announce_success.
  repeat first [ solve [eauto with frame] | apply make_bin_logs | frame_step ].
Qed.

Lemma fetch_op_not_rm_lib o : fetch_op o -> not_rm_lib o.
Proof. intros [Ho| ->]; [|done]. by destruct o as [| | | [] | | | | [] | |]. Qed.

Lemma launcher_op_not_rm_lib o : launcher_op o -> not_rm_lib o.
Proof. by destruct o as [| | | [] | | | | [] | |]. Qed.

Lemma guarded_download_logs release :
  preserves (logs_only not_rm_lib)
    (try_except_finally (_update w (pkg_version release)) restore discard_backup).
Proof.
  unfold restore, discard_backup. frame.
  eapply preserves_mono; [|apply update_logs_only].
  intros s s'. apply logs_only_mono, fetch_op_not_rm_lib.
Qed.

Lemma update_backup_split release s :
  update w release s =
    (stale_phase release ;;
     l <- exists_ Lib ;;
     when l (copytree Lib LibBackup ;; rmtree Lib) ;;
     try_except_finally (_update w (pkg_version release)) restore discard_backup ;;
     announce_success w release) s.
Proof.
  unfold update, stale_phase, announce_success.
  do 3 (rewrite ?bind_assoc; apply bind_ext; intros ? ?).
  reflexivity.
Qed.

Lemma stale_phase_keeps_lib release : preserves (keeps Lib) (stale_phase release).
Proof. unfold stale_phase. frame. Qed.

Lemma stale_phase_logs release : preserves (logs_only not_rm_lib) (stale_phase release).
Proof. unfold stale_phase. frame. Qed.

(** C4. In every execution of [update] that starts with a live library
    directory holding the tree [t], whatever I/O failures occur: each
    removal of the live directory that [update] starts finds the backup
    directory holding exactly [t], the live directory still holding [t],
    and comes after the copy of the live directory to the backup
    directory. *)
Theorem backup_complete_before_removal (release : Package V) (s : state) (t : tree) :
  fs_lib (st_fs s) = Some t ->
  exists new,
    st_trace (snd (update w release s)) = st_trace s ++ new /\
    forall pre f post, new = pre ++ (OpRmtree Lib, f) :: post ->
      fs_lib f = Some t /\ fs_lib_backup f = Some t /\
      exists f0, In (OpCopytree Lib LibBackup, f0) pre.
Proof.
  intros Hlib. change (rm_lib_guarded t s (snd (update w release s))).
  rewrite update_backup_split. unfold bind at 1.
  pose proof (stale_phase_keeps_lib release s) as Hkeep.
  pose proof (stale_phase_logs release s) as Hlog.
  destruct (stale_phase release s) as [[[]|e] s1]; simpl in *;
    [|by apply logs_only_rm_lib_guarded].
  unfold keeps in Hkeep. simpl in Hkeep. rewrite Hlib in Hkeep.
  etransitivity; [by apply logs_only_rm_lib_guarded|].
  unfold bind at 1, exists_ at 1, bind at 1, get_fs, ret. simpl. rewrite Hkeep.
  rewrite bool_decide_eq_true_2 by eauto. simpl.
  unfold bind at 1.
  pose proof (backup_pair_guarded t s1 Hkeep) as Hpair.
  destruct ((copytree Lib LibBackup ;; rmtree Lib) s1) as [[[]|e] s2]; simpl in *; [|done].
  etransitivity; [exact Hpair|].
  apply logs_only_rm_lib_guarded.
  unfold bind at 1.
  pose proof (guarded_download_logs release s2) as Hdl.
  destruct (try_except_finally (_update w (pkg_version release)) restore discard_backup s2)
    as [[[]|e] s3]; simpl in *; [|done].
  etransitivity; [exact Hdl|].
  eapply logs_only_mono; [apply launcher_op_not_rm_lib | apply announce_success_logs].
Qed.

End Launcher.

Lemma backup_complete_before_removal_witness :
  exists new,
    st_trace (snd (update Demo.good_world (Demo.release "1.2.0") Demo.state0))
      = st_trace Demo.state0 ++ new /\
    forall pre f post, new = pre ++ (OpRmtree Lib, f) :: post ->
      fs_lib f = Some Demo.old_tree /\ fs_lib_backup f = Some Demo.old_tree /\
      exists f0, In (OpCopytree Lib LibBackup, f0) pre.
Proof.
  apply (backup_complete_before_removal Demo.good_world (Demo.release "1.2.0")
           Demo.state0 Demo.old_tree).
  reflexivity.
Defined.

(** ** The digest check *)

Lemma chunks_fuel_concat {A} n fuel (l : list A) :
  (0 < n)%nat -> (length l <= fuel)%nat -> concat (chunks_fuel fuel n l) = l.
Proof.
  intros Hn. revert l. induction fuel as [|fuel IH]; intros l Hl; simpl.
  - destruct l; [done | simpl in Hl; lia].
  - destruct l as [|x l']; [done|].
    remember (x :: l') as l eqn:El. simpl.
    rewrite IH; [apply take_drop|]. rewrite length_drop. subst l. simpl in *. lia.
Qed.

Lemma chunks_concat {A} n (l : list A) : (0 < n)%nat -> concat (chunks n l) = l.
Proof. intros Hn. by apply chunks_fuel_concat. Qed.

Lemma served_concat r : resp_aborted r = false -> concat (served block_size r) = resp_body r.
Proof.
  intros Hr. unfold served. rewrite Hr. apply chunks_concat.
  unfold block_size. lia.
Qed.

Lemma download_loop_returns r name reads current sha s t old :
  resp_aborted r = false ->
  fs_tmp (st_fs s) = Some t -> t !! name = Some old ->
  fst (download_loop r name reads current sha s) = Return (sha ++ concat reads).
Proof.
  intros Hr. revert current sha s t old.
  induction reads as [|buffer rest IH]; intros current sha s t old Ht Hold; simpl.
  - by rewrite Hr, app_nil_r.
  - unfold bind at 1. unfold write, bind, log, get_fs, put_dir, put_fs, ret. simpl.
    rewrite Ht, Hold. simpl.
    erewrite IH; [by rewrite app_assoc | reflexivity | apply lookup_insert_eq].
Qed.

Lemma urlopen_ok {V} (w : World V) url r s :
  w_urlopen w url = UrlOk r ->
  urlopen w url s = (Return r, with_trace (st_trace s ++ [(OpUrlopen url, st_fs s)]) s).
Proof. intros Hr. unfold urlopen, bind, log. simpl. by rewrite Hr. Qed.

Lemma try_except_HTTPError_returns {A} (body : M A) handler s a s1 :
  body s = (Return a, s1) -> try_except_HTTPError body handler s = (Return a, s1).
Proof. intros Hb. unfold try_except_HTTPError. by rewrite Hb. Qed.

Lemma download_loop_result r name reads current sha s a s' :
  download_loop r name reads current sha s = (Return a, s') -> a = sha ++ concat reads.
Proof.
  revert current sha s. induction reads as [|buffer rest IH]; intros current sha s; simpl.
  - destruct (resp_aborted r); [done|]. intros [= <- _]. by rewrite app_nil_r.
  - unfold bind at 1. destruct (write Tmp name buffer s) as [[[]|e] s1]; [|done].
    unfold bind at 1. simpl. intros E%IH. by rewrite E, app_assoc.
Qed.

Lemma temporary_directory_discards {A} (body : M A) s :
  fs_tmp (st_fs (snd (temporary_directory body s))) = None.
Proof.
  unfold temporary_directory, try_finally, try_except_finally, bind, log, put_dir,
    put_fs, get_fs, raise. simpl.
  done.
Qed.

Lemma temporary_directory_raises {A} (body : M A) e :
  (forall s, fs_tmp (st_fs s) = Some ∅ -> fst (body s) = Raise e) ->
  forall s, fst (temporary_directory body s) = Raise e.
Proof.
  intros Hbody s.
  unfold temporary_directory, try_finally, try_except_finally, bind, log, put_dir,
    put_fs, get_fs, raise. simpl.
  match goal with |- context [body ?s0] => specialize (Hbody s0 eq_refl);
    destruct (body s0) as [[a|e'] s1] end; simpl in *; congruence.
Qed.

Lemma temporary_directory_ext {A} (body body' : M A) s :
  (forall s0, body s0 = body' s0) -> temporary_directory body s = temporary_directory body' s.
Proof.
  intros Hb. unfold temporary_directory, try_finally, try_except_finally, bind.
  destruct (log OpMkdtemp s) as [[[]|e] s1]; [|done].
  destruct (put_dir Tmp (Some ∅) s1) as [[[]|e] s2]; [|done].
  by rewrite Hb.
Qed.

Section DigestCheck.

Context {V : Type} `{VersionOps V} `{UnicodeData} (w : World V).

(** [_update] once both requests are answered and the size is read. *)
Lemma update_after_requests version s r_sum r_arc decoded size :
  w_urlopen w (checksum_url w version) = UrlOk r_sum ->
  resp_aborted r_sum = false ->
  Unicode.decode (resp_body r_sum) = Some decoded ->
  w_urlopen w (archive_url w version) = UrlOk r_arc ->
  get_header "Content-Length" (resp_headers r_arc) ≫= Py.int = Some size ->
  _update w version s =
    (bar_emit (BarStart size) ;;
     temporary_directory
       (fetch_block w (archive_name w version) (Unicode.strip decoded) r_arc))
      (with_trace (st_trace s ++ [(OpUrlopen (checksum_url w version), st_fs s);
                                  (OpUrlopen (archive_url w version), st_fs s)]) s).
Proof.
  intros Hsum Hsum_ok Hdecoded Harc Hsize.
  unfold _update.
  erewrite bind_returns;
    [|apply try_except_HTTPError_returns, urlopen_ok, Hsum].
  unfold read_all. rewrite Hsum_ok. unfold bind at 1, ret at 1.
  unfold decode_. rewrite Hdecoded. unfold bind at 1, ret at 1.
  erewrite bind_returns;
    [|apply try_except_HTTPError_returns, urlopen_ok, Harc].
  destruct (get_header "Content-Length" (resp_headers r_arc)) as [h|]; [|done].
  simpl in Hsize. unfold int_header. rewrite Hsize.
  unfold bind at 1, ret at 1. simpl. by rewrite <- app_assoc.
Qed.

Lemma fetch_block_rejected name checksum r s :
  resp_aborted r = false ->
  checksum <> (w_sha256_hexdigest w (resp_body r) : text) ->
  fetch_block w name checksum r s = rejected_block w name checksum r s.
Proof.
  intros Hr Hne. unfold fetch_block, rejected_block.
  apply bind_ext. intros [] s1.
  apply bind_ext_returned. intros sha s2 El.
  apply download_loop_result in El. simpl in El. rewrite served_concat in El by done.
  subst sha. apply bind_ext. intros [] s3.
  by rewrite bool_decide_eq_false_2.
Qed.

Lemma rejected_block_raises name checksum r s :
  resp_aborted r = false ->
  fs_tmp (st_fs s) = Some ∅ ->
  fst (rejected_block w name checksum r s) =
    Raise (RuntimeError
             (("Hashes for " +:+ name +:+ " do not match: " : text) ++ checksum
              ++ (" != " +:+ w_sha256_hexdigest w (resp_body r) : text))).
Proof.
  intros Hr Htmp. unfold rejected_block.
  unfold bind at 1, open_w, bind, log, get_fs, put_dir, put_fs, ret. simpl.
  rewrite Htmp. simpl.
  match goal with |- context [download_loop r name ?reads ?c ?sha ?s0] =>
    pose proof (download_loop_returns r name reads c sha s0 _ _ Hr eq_refl
                  (lookup_insert_eq _ _ _)) as Hret;
    destruct (download_loop r name reads c sha s0) as [o s1]
  end.
  simpl in Hret. by subst o.
Qed.

Lemma rejected_block_logs name checksum r :
  preserves (logs_only download_op) (temporary_directory (rejected_block w name checksum r)).
Proof.
  unfold temporary_directory, rejected_block.
  repeat first [ solve [eauto with frame]
               | apply download_loop_preserves; [apply _ | apply _ | intros | intros]
               | frame_step ].
Qed.

Lemma rejected_block_keeps d name checksum r :
  d <> Tmp -> preserves (keeps d) (temporary_directory (rejected_block w name checksum r)).
Proof.
  intros Hd. unfold temporary_directory, rejected_block.
  repeat first [ solve [eauto with frame]
               | by apply keeps_put_dir
               | by apply keeps_open_w
               | apply download_loop_preserves;
                   [apply _ | apply _ | intros; by apply keeps_write | intros]
               | frame_step ].
Qed.

(** C3, as amended.  The body of the checksum file is decoded as UTF-8
    and stripped of surrounding white space, and the digest of the bytes
    downloaded is compared with that text by [!=], character for
    character.  Whenever the two differ -- as they do in particular when
    they differ under any folding of characters, such as that of case --
    [_update] raises the hash-mismatch error; the temporary directory with
    the archive is gone, the live library, backup and launcher directories
    are as they were, and nothing but requests and work in the temporary
    directory was performed: no extraction ran. *)
Theorem checksum_mismatch_is_fatal (version : V) (s : state)
    (r_sum r_arc : response) (decoded : text) (size : Z) :
  w_urlopen w (checksum_url w version) = UrlOk r_sum ->
  resp_aborted r_sum = false ->
  Unicode.decode (resp_body r_sum) = Some decoded ->
  w_urlopen w (archive_url w version) = UrlOk r_arc ->
  resp_aborted r_arc = false ->
  get_header "Content-Length" (resp_headers r_arc) ≫= Py.int = Some size ->
  let checksum := Unicode.strip decoded in
  let digest : text := w_sha256_hexdigest w (resp_body r_arc) in
  (forall fold : text -> text, fold checksum <> fold digest -> checksum <> digest) /\
  (checksum <> digest ->
   fst (_update w version s) =
     Raise (RuntimeError
              (("Hashes for " +:+ archive_name w version +:+ " do not match: " : text)
               ++ checksum ++ (" != " +:+ w_sha256_hexdigest w (resp_body r_arc) : text))) /\
   fs_tmp (st_fs (snd (_update w version s))) = None /\
   fs_lib (st_fs (snd (_update w version s))) = fs_lib (st_fs s) /\
   fs_lib_backup (st_fs (snd (_update w version s))) = fs_lib_backup (st_fs s) /\
   fs_bin (st_fs (snd (_update w version s))) = fs_bin (st_fs s) /\
   exists new,
     st_trace (snd (_update w version s)) = st_trace s ++ new /\
     Forall (fun o => download_op (fst o)) new).
Proof.
  intros Hsum Hsum_ok Hdecoded Harc Harc_ok Hsize checksum digest.
  split; [congruence|]. intros Hne.
  rewrite (update_after_requests version s r_sum r_arc decoded size) by done.
  fold checksum. rewrite bar_emit_bind.
  set (s0 := with_bar _ _).
  rewrite (temporary_directory_ext _ (rejected_block w (archive_name w version) checksum r_arc))
    by (intros; by apply fetch_block_rejected).
  split; [apply temporary_directory_raises; intros; by apply rejected_block_raises|].
  split; [apply temporary_directory_discards|].
  split; [exact (rejected_block_keeps Lib _ _ _ ltac:(done) s0)|].
  split; [exact (rejected_block_keeps LibBackup _ _ _ ltac:(done) s0)|].
  split; [exact (rejected_block_keeps Bin _ _ _ ltac:(done) s0)|].
  destruct (rejected_block_logs (archive_name w version) checksum r_arc s0) as (new & -> & Hnew).
  eexists. subst s0. simpl. rewrite <- app_assoc. split; [reflexivity|].
  repeat (constructor; [simpl; done|]). done.
Qed.

End DigestCheck.

(** C3, as stated, fails: a checksum file that spells the digest in
    capitals equals it when case is ignored, and is rejected all the same. *)
Lemma capitals_checksum_rejected :
  let checksum := Demo.upper (Sha256.hexdigest Demo.archive) in
  let digest := Sha256.hexdigest Demo.archive in
  Py.lower checksum = Py.lower digest /\
  fst (_update Demo.capitals_world Demo.v120 Demo.backed_up) =
    Raise (RuntimeError ("Hashes for poetry-1.2.0-linux.tar.gz do not match: "
                         +:+ checksum +:+ " != " +:+ digest)).
Proof. split; vm_compute; reflexivity. Qed.

Lemma checksum_mismatch_is_fatal_witness :
  fst (_update Demo.tampered_world Demo.v120 Demo.backed_up) =
    Raise (RuntimeError
             ("Hashes for poetry-1.2.0-linux.tar.gz do not match: "
              +:+ Sha256.hexdigest Demo.archive +:+ " != "
              +:+ Sha256.hexdigest Demo.damaged_archive)) /\
  fs_tmp (st_fs (snd (_update Demo.tampered_world Demo.v120 Demo.backed_up))) = None /\
  fs_lib (st_fs (snd (_update Demo.tampered_world Demo.v120 Demo.backed_up))) = None.
Proof.
  pose (r_sum := Demo.plain [] (encode (Sha256.hexdigest Demo.archive +:+ nl))).
  pose (r_arc := Demo.plain (Demo.content_length "31") Demo.damaged_archive).
  assert (w_urlopen Demo.tampered_world (checksum_url Demo.tampered_world Demo.v120)
            = UrlOk r_sum) as Hsum by (vm_compute; reflexivity).
  assert (w_urlopen Demo.tampered_world (archive_url Demo.tampered_world Demo.v120)
            = UrlOk r_arc) as Harc by (vm_compute; reflexivity).
  assert (get_header "Content-Length" (resp_headers r_arc) ≫= Py.int = Some 31) as Hsize
    by (vm_compute; reflexivity).
  assert (Unicode.decode (resp_body r_sum)
          = Some (Unicode.of_string (Sha256.hexdigest Demo.archive +:+ nl))) as Hdecoded
    by (vm_compute; reflexivity).
  destruct (checksum_mismatch_is_fatal Demo.tampered_world Demo.v120 Demo.backed_up
              r_sum r_arc _ 31 Hsum eq_refl Hdecoded Harc eq_refl Hsize) as [_ Hfatal].
  destruct Hfatal as (Hraise & Htmp & Hlib & _).
  - intros E. vm_compute in E. discriminate.
  - vm_compute in Hraise, Htmp, Hlib |- *. auto.
Defined.

(** ** The progress bar takes no part in the outcome *)

Lemma bar_blind_refl s : bar_blind s s.
Proof. by repeat split. Qed.

Lemma agree_refl {A} (r : outcome A * state) : agree r r.
Proof. split; [done | apply bar_blind_refl]. Qed.

Lemma agree_bind {A B} (m1 m2 : M A) (k1 k2 : A -> M B) s1 s2 :
  agree (m1 s1) (m2 s2) ->
  (forall a t1 t2, bar_blind t1 t2 -> agree (k1 a t1) (k2 a t2)) ->
  agree (bind m1 k1 s1) (bind m2 k2 s2).
Proof.
  intros [Hfst Hsnd] Hk. unfold bind.
  destruct (m1 s1) as [[a1|e1] t1], (m2 s2) as [[a2|e2] t2]; simpl in *; try done.
  - injection Hfst as <-. by apply Hk.
  - split; simpl; [congruence | done].
Qed.

Lemma oblivious_ret {A} (a : A) : oblivious (ret a).
Proof. by intros s1 s2 Hs. Qed.

Lemma oblivious_raise {A} e : oblivious (@raise A e).
Proof. by intros s1 s2 Hs. Qed.

Lemma oblivious_bind {A B} (m : M A) (k : A -> M B) :
  oblivious m -> (forall a, oblivious (k a)) -> oblivious (bind m k).
Proof. intros Hm Hk s1 s2 Hs. apply agree_bind; [by apply Hm | intros; by apply Hk]. Qed.

Lemma oblivious_try_except_finally {A} (body : M A) handler final :
  oblivious body -> (forall e, oblivious (handler e)) -> oblivious final ->
  oblivious (try_except_finally body handler final).
Proof.
  intros Hb Hh Hf s1 s2 Hs. unfold try_except_finally.
  destruct (Hb s1 s2 Hs) as [Hfst Hsnd].
  destruct (body s1) as [[a1|e1] t1], (body s2) as [[a2|e2] t2]; simpl in *; try done.
  - destruct (Hf t1 t2 Hsnd) as [Hfst' Hsnd'].
    destruct (final t1) as [[[]|e1'] u1], (final t2) as [[[]|e2'] u2]; simpl in *;
      try done; split; simpl; congruence.
  - injection Hfst as <-. destruct (Hh e1 t1 t2 Hsnd) as [Hfst' Hsnd'].
    destruct (handler e1 t1) as [r1 u1], (handler e1 t2) as [r2 u2]; simpl in *.
    destruct (Hf u1 u2 Hsnd') as [Hfst'' Hsnd''].
    destruct (final u1) as [[[]|e1'] v1], (final u2) as [[[]|e2'] v2]; simpl in *;
      try done; split; simpl; congruence.
Qed.

Lemma oblivious_try_finally {A} (body : M A) final :
  oblivious body -> oblivious final -> oblivious (try_finally body final).
Proof. intros. apply oblivious_try_except_finally; auto using @oblivious_raise. Qed.

Lemma oblivious_get_fs : oblivious get_fs.
Proof. intros s1 s2 Hs. split; [simpl; f_equal; apply Hs | done]. Qed.

Lemma oblivious_put_fs f : oblivious (put_fs f).
Proof. intros s1 s2 (? & ? & ? & ?). by repeat split. Qed.

Lemma oblivious_log o : oblivious (log o).
Proof. intros s1 s2 (Hfs & ? & Htr & ?). repeat split; simpl; try done. by rewrite Hfs, Htr. Qed.

Lemma oblivious_bar_emit e : oblivious (bar_emit e).
Proof. intros s1 s2 (? & ? & ? & ?). by repeat split. Qed.

Lemma oblivious_put_dir d t : oblivious (put_dir d t).
Proof.
  unfold put_dir. apply oblivious_bind; [apply oblivious_get_fs | intros; apply oblivious_put_fs].
Qed.

Create HintDb oblivious discriminated.

#[global] Hint Resolve oblivious_ret oblivious_raise oblivious_get_fs oblivious_put_fs
  oblivious_log oblivious_bar_emit oblivious_put_dir : oblivious.

Ltac oblivious_step :=
  lazymatch goal with
  | |- oblivious (bind _ _) => apply oblivious_bind; [|intros ?]
  | |- oblivious (try_finally _ _) => apply oblivious_try_finally
  | |- oblivious (match ?x with _ => _ end) => destruct x
  end.

Ltac oblivious := repeat first [ solve [eauto with oblivious] | oblivious_step ].

Lemma oblivious_download_loop r name reads current sha :
  oblivious (download_loop r name reads current sha).
Proof.
  revert current sha. induction reads as [|buffer rest IH]; intros current sha; simpl.
  - destruct (resp_aborted r); oblivious.
  - unfold write. oblivious.
Qed.

Lemma download_loop_ext r1 r2 name reads current sha s :
  resp_aborted r1 = resp_aborted r2 ->
  download_loop r1 name reads current sha s = download_loop r2 name reads current sha s.
Proof.
  intros Hr. revert current sha s.
  induction reads as [|buffer rest IH]; intros current sha s; simpl.
  - by rewrite Hr.
  - do 2 (apply bind_ext; intros ? ?). apply IH.
Qed.

Lemma string_app_inv_head a b c : a +:+ b = a +:+ c -> b = c.
Proof. induction a as [|x a IH]; string_app; [done|]. intros [= E]. by apply IH. Qed.

Section ContentLength.

Context {V : Type} `{VersionOps V} `{UnicodeData} (w : World V).

Lemma oblivious_fetch_block name checksum r :
  oblivious (temporary_directory (fetch_block w name checksum r)).
Proof.
  unfold temporary_directory, fetch_block, open_w, read_file, extractall.
  repeat first [ solve [eauto with oblivious] | apply oblivious_download_loop | oblivious_step ].
Qed.

Lemma fetch_block_ext name checksum r1 r2 s :
  resp_body r1 = resp_body r2 -> resp_aborted r1 = resp_aborted r2 ->
  fetch_block w name checksum r1 s = fetch_block w name checksum r2 s.
Proof.
  intros Hb Ha. unfold fetch_block, served. rewrite Hb, Ha.
  apply bind_ext. intros [] s1.
  unfold bind at 1 3. by rewrite (download_loop_ext r1 r2) by done.
Qed.

Lemma checksum_url_not_archive_url version :
  String.eqb (checksum_url w version) (archive_url w version) = false.
Proof.
  apply String.eqb_neq. unfold checksum_url, archive_url, archive_name.
  intros E. do 5 apply string_app_inv_head in E. discriminate.
Qed.

(** The requests of [_update] up to and including the archive request do
    not depend on how the archive request is answered, except in the
    response itself. *)
Lemma update_served version r size s :
  get_header "Content-Length" (resp_headers r) ≫= Py.int = Some size ->
  _update (serve w (archive_url w version) r) version s =
    (r_sum <- try_except_HTTPError
                (urlopen w (checksum_url w version))
                (fun code =>
                   if code =? 404
                   then raise (RuntimeError ("Could not find "
                                 +:+ (_get_release_name w version +:+ ".sha256sum") +:+ " file"))
                   else raise (HTTPError code)) ;;
     body <- read_all r_sum ;;
     decoded <- decode_ body ;;
     log (OpUrlopen (archive_url w version)) ;;
     bar_emit (BarStart size) ;;
     temporary_directory
       (fetch_block w (archive_name w version) (Unicode.strip decoded) r)) s.
Proof.
  intros Hsize.
  pose proof (checksum_url_not_archive_url version) as Hneq.
  unfold _update, urlopen, try_except_HTTPError, read_all, decode_, int_header, bind, log,
    ret, raise, bar_emit, checksum_url, archive_url, archive_name, _get_release_name,
    serve in *.
  cbn [w_platform w_urlopen w_umask w_sha256_hexdigest w_untar] in *.
  rewrite Hneq, String.eqb_refl.
  destruct (w_urlopen w _) as [r_sum|code|reason]; simpl;
    [| by destruct (code =? 404) | done].
  destruct (resp_aborted r_sum); [done|].
  destruct (Unicode.decode (resp_body r_sum)) as [decoded|]; [|done].
  destruct (get_header "Content-Length" (resp_headers r)) as [h|]; [|done].
  simpl in Hsize. rewrite Hsize. reflexivity.
Qed.

(** C8, as amended.  Two answers to the archive request that carry the
    same bytes, and each a [Content-Length] header that [int] accepts,
    make [_update] end the same way: the same return or the same
    exception, the same file system, the same output and the same
    operations.  The header goes into the progress bar alone. *)
Theorem content_length_only_for_progress (version : V) (s : state)
    (r1 r2 : response) (size1 size2 : Z) :
  resp_body r1 = resp_body r2 ->
  resp_aborted r1 = resp_aborted r2 ->
  get_header "Content-Length" (resp_headers r1) ≫= Py.int = Some size1 ->
  get_header "Content-Length" (resp_headers r2) ≫= Py.int = Some size2 ->
  let run1 := _update (serve w (archive_url w version) r1) version s in
  let run2 := _update (serve w (archive_url w version) r2) version s in
  fst run1 = fst run2 /\
  st_fs (snd run1) = st_fs (snd run2) /\
  st_out (snd run1) = st_out (snd run2) /\
  st_trace (snd run1) = st_trace (snd run2).
Proof.
  intros Hbody Habort Hsize1 Hsize2 run1 run2.
  assert (agree run1 run2) as (Hfst & Hfs & Hout & Htrace & _); [|done].
  subst run1 run2.
  rewrite (update_served version r1 size1) by done.
  rewrite (update_served version r2 size2) by done.
  apply agree_bind; [apply agree_refl|]. intros r_sum t1 t2 Ht.
  apply agree_bind.
  { unfold read_all. destruct (resp_aborted r_sum); by split. }
  intros body u1 u2 Hu.
  apply agree_bind.
  { unfold decode_. destruct (Unicode.decode body);
      [by apply oblivious_ret | by apply oblivious_raise]. }
  intros decoded u1' u2' Hu'.
  apply agree_bind; [by apply oblivious_log|]. intros [] v1 v2 Hv.
  rewrite !bar_emit_bind.
  rewrite (temporary_directory_ext _ (fetch_block w (archive_name w version)
             (Unicode.strip decoded) r2))
    by (intros; by apply fetch_block_ext).
  apply oblivious_fetch_block.
  destruct Hv as (? & ? & ? & ?). by repeat split.
Qed.

End ContentLength.

(** C8, as stated, fails: the same bytes served without a
    [Content-Length] header make [_update] stop with a [TypeError] before
    it reads them. *)
Lemma missing_content_length_fails :
  w_urlopen Demo.good_world Demo.archive_url
    = UrlOk (Demo.plain (Demo.content_length "20") Demo.archive) /\
  w_urlopen Demo.unsized_world Demo.archive_url = UrlOk (Demo.plain [] Demo.archive) /\
  fst (_update Demo.good_world Demo.v120 Demo.backed_up) = Return tt /\
  fst (_update Demo.unsized_world Demo.v120 Demo.backed_up) =
    Raise (TypeError "int() argument must be a string, a bytes-like object or a number, not 'NoneType'").
Proof. repeat split; vm_compute; reflexivity. Qed.

Lemma content_length_only_for_progress_witness :
  let run1 := _update (serve Demo.good_world Demo.archive_url
                         (Demo.plain (Demo.content_length "20") Demo.archive))
                Demo.v120 Demo.backed_up in
  let run2 := _update (serve Demo.good_world Demo.archive_url
                         (Demo.plain (Demo.content_length "9999") Demo.archive))
                Demo.v120 Demo.backed_up in
  fst run1 = fst run2 /\
  st_fs (snd run1) = st_fs (snd run2) /\
  st_out (snd run1) = st_out (snd run2) /\
  st_trace (snd run1) = st_trace (snd run2).
Proof.
  pose proof (content_length_only_for_progress Demo.good_world Demo.v120 Demo.backed_up
                (Demo.plain (Demo.content_length "20") Demo.archive)
                (Demo.plain (Demo.content_length "9999") Demo.archive) 20 9999
                eq_refl eq_refl) as Hthm.
  assert (archive_url Demo.good_world Demo.v120 = Demo.archive_url) as E
    by (vm_compute; reflexivity).
  rewrite E in Hthm. apply Hthm; vm_compute; reflexivity.
Defined.

(** ** Rolling back *)

Section Rollback.

Context {V : Type} `{VersionOps V} `{UnicodeData} (w : World V).

(** When the download fails with the live directory still absent and no
    I/O failure interferes, the [except] block of [update] puts the
    former tree back and removes the backup. *)
Lemma update_restores_absent_lib release s s1 s2 e t :
  backup_phase release s = (Return tt, s1) ->
  _update w (pkg_version release) s1 = (Raise e, s2) ->
  fs_lib (st_fs s2) = None ->
  fs_lib_backup (st_fs s2) = Some t ->
  st_faults s2 = [] ->
  fst (update w release s) = Raise e /\
  fs_lib (st_fs (snd (update w release s))) = Some t /\
  fs_lib_backup (st_fs (snd (update w release s))) = None.
Proof.
  intros Hbackup Hupdate Hlib Hbak Hfaults.
  assert (exists s', update w release s = (Raise e, s') /\
                     fs_lib (st_fs s') = Some t /\ fs_lib_backup (st_fs s') = None)
    as (s' & -> & ? & ?); [|done].
  rewrite update_phases. unfold guarded_update.
  rewrite bind_assoc, (bind_returns _ _ _ _ _ Hbackup).
  unfold bind at 1, try_except_finally. rewrite Hupdate.
  destruct s2 as [[lib backup bin tmp] out bar tr faults]. simpl in *. subst.
  eexists. split; [reflexivity|]. done.
Qed.

End Rollback.

(** C1 fails on the code.  The archive downloads and its digest matches,
    but [tarfile] stops after the first member.  The [except] block then
    calls [copytree] on a live directory that exists again, which raises
    [FileExistsError]; the [finally] block removes the backup.  [update]
    returns with the live directory holding one file of the new release
    and the former installation gone. *)
Theorem update_restore_fails_after_partial_extraction :
  fs_lib (st_fs Demo.state0) = Some Demo.old_tree /\
  fst (update Demo.damaged_world (Demo.release "1.2.0") Demo.state0)
    = Raise (FileExistsError Lib) /\
  fs_lib (st_fs (snd (update Demo.damaged_world (Demo.release "1.2.0") Demo.state0)))
    = Some {["poetry/__init__.py" := Demo.regular "new init"]} /\
  fs_lib_backup (st_fs (snd (update Demo.damaged_world (Demo.release "1.2.0") Demo.state0)))
    = None.
Proof. repeat split; vm_compute; reflexivity. Qed.

(** The same update when the checksum file is missing: the former tree is
    back in place. *)
Example update_missing_release_restores :
  fst (update Demo.missing_world (Demo.release "1.2.0") Demo.state0)
    = Raise (RuntimeError "Could not find poetry-1.2.0-linux.sha256sum file") /\
  st_fs (snd (update Demo.missing_world (Demo.release "1.2.0") Demo.state0))
    = st_fs Demo.state0.
Proof. split; vm_compute; reflexivity. Qed.

(** And when all goes well: the new tree is live, the backup is gone and
    the launcher is written. *)
Example update_installs_release :
  fst (update Demo.good_world (Demo.release "1.2.0") Demo.state0) = Return tt /\
  fs_lib (st_fs (snd (update Demo.good_world (Demo.release "1.2.0") Demo.state0)))
    = Some (list_to_map Demo.new_members) /\
  fs_lib_backup (st_fs (snd (update Demo.good_world (Demo.release "1.2.0") Demo.state0)))
    = None /\
  fs_tmp (st_fs (snd (update Demo.good_world (Demo.release "1.2.0") Demo.state0))) = None.
Proof. repeat split; vm_compute; reflexivity. Qed.

Example update_writes_launcher :
  fs_bin (st_fs (snd (update Demo.good_world (Demo.release "1.2.0") Demo.state0)))
    ≫= lookup "poetry" =
    Some {| f_data := encode ("#!/usr/bin/env python3" +:+ nl +:+ BIN); f_mode := 484 |}.
Proof. vm_compute. reflexivity. Qed.

(** A copy that fails half way stops [update] before anything is removed. *)
Example update_backup_failure_keeps_lib :
  let s := with_faults [Some 1%nat] Demo.state0 in
  fst (update Demo.good_world (Demo.release "1.2.0") s) = Raise (OSError "copytree") /\
  fs_lib (st_fs (snd (update Demo.good_world (Demo.release "1.2.0") s)))
    = Some Demo.old_tree /\
  map fst (st_trace (snd (update Demo.good_world (Demo.release "1.2.0") s)))
    = [OpCopytree Lib LibBackup].
Proof. repeat split; vm_compute; reflexivity. Qed.

(** * Further properties of the command *)

(** ** The order of the candidates *)

Section SortedCandidates.

Context {V : Type} `{VersionOps V}.

Lemma insert_sorted_Permutation (x : Package V) l : Permutation (insert_sorted x l) (x :: l).
Proof.
  induction l as [|y l IH]; simpl; [done|].
  destruct (cmp y x <? 0); [|done].
  rewrite IH. apply perm_swap.
Qed.

(** X1. Sorting the candidates loses none and invents none: the sorted
    list is a rearrangement of what the release index returned, whatever
    the comparison of versions does. *)
Theorem sort_rearranges (l : list (Package V)) : Permutation (sort l) l.
Proof.
  induction l as [|x l IH]; simpl; [done|].
  by rewrite insert_sorted_Permutation, IH.
Qed.

End SortedCandidates.

Section StableOrder.

Context {V : Type} `{VersionOrder V}.

Lemma cmp_neg_not_equal (y x : Package V) :
  (cmp y x <? 0) = true -> v_eqb (pkg_version y) (pkg_version x) = false.
Proof. unfold cmp. by destruct (v_eqb (pkg_version y) (pkg_version x)). Qed.

Lemma insert_sorted_same_version (v : V) (x : Package V) l :
  List.filter (fun p => v_eqb (pkg_version p) v) (insert_sorted x l) =
  List.filter (fun p => v_eqb (pkg_version p) v) (x :: l).
Proof.
  induction l as [|y l IH]; [done|].
  cbn [insert_sorted]. destruct (cmp y x <? 0) eqn:Ec; [|done].
  cbn [List.filter] in *. rewrite IH.
  destruct (v_eqb (pkg_version y) v) eqn:Ey, (v_eqb (pkg_version x) v) eqn:Ex; try done.
  apply cmp_neg_not_equal in Ec.
  rewrite (v_eqb_trans _ v _ Ey (v_eqb_sym _ _ Ex)) in Ec. done.
Qed.

(** X2. The sort is stable: candidates that carry the same version stay
    in the order in which the release index returned them. *)
Theorem sort_keeps_order_of_equal_versions (v : V) (l : list (Package V)) :
  List.filter (fun p => v_eqb (pkg_version p) v) (sort l) =
  List.filter (fun p => v_eqb (pkg_version p) v) l.
Proof.
  induction l as [|x l IH]; [done|].
  cbn [sort]. rewrite insert_sorted_same_version. cbn [List.filter]. by rewrite IH.
Qed.

(** X3. The release [handle] settles on is a candidate the scan may stop
    at, and no such candidate has a higher version: every other one is at
    most as high. *)
Theorem selected_release_is_highest (preview : bool) (packages : list (Package V))
    (r : Package V) :
  select_release preview (sort packages) = Some r ->
  In r packages /\ qualifies preview r /\
  forall p, In p packages -> qualifies preview p ->
    p = r \/ v_leb (pkg_version p) (pkg_version r) = true.
Proof.
  intros Hsel. pose proof (select_release_Some _ _ _ Hsel) as [Hin Hq].
  rewrite sort_In in Hin. split; [done|]. split; [done|].
  intros p Hp Hqp.
  apply (select_release_highest preview (sort packages) r); [apply sort_descending | done | | done].
  by apply sort_In.
Qed.

End StableOrder.

Lemma sort_keeps_order_of_equal_versions_witness :
  List.filter (fun p => v_eqb (pkg_version p) (Demo.parse "1.2.0"))
    (sort [Demo.release "1.2.0"; Demo.release "1.3.0-alpha";
           {| pkg_version := Demo.parse "1.2.0"; pkg_prerelease := true |}]) =
  [Demo.release "1.2.0"; {| pkg_version := Demo.parse "1.2.0"; pkg_prerelease := true |}].
Proof.
  rewrite (sort_keeps_order_of_equal_versions (Demo.parse "1.2.0")). reflexivity.
Defined.

Lemma selected_release_is_highest_witness :
  In (Demo.release "1.3.0-alpha") Demo.candidates /\
  qualifies true (Demo.release "1.3.0-alpha") /\
  forall p, In p Demo.candidates -> qualifies true p ->
    p = Demo.release "1.3.0-alpha" \/
    v_leb (pkg_version p) (pkg_version (Demo.release "1.3.0-alpha")) = true.
Proof.
  apply (selected_release_is_highest true Demo.candidates (Demo.release "1.3.0-alpha")).
  reflexivity.
Defined.

(** ** Requests that go wrong *)

Section FailedRequests.

Context {V : Type} `{VersionOps V} `{UnicodeData} (w : World V).

(** X4. When the request for the checksum file is answered by an HTTP
    error, status 404 becomes a [RuntimeError] that names the file and any
    other status is raised again as it came.  Either way that one request
    is all [_update] did: the archive is not asked for and no file or
    directory is touched. *)
Theorem update_checksum_request_fails (version : V) (s : state) (code : Z) :
  w_urlopen w (checksum_url w version) = UrlHTTPError code ->
  _update w version s =
    (Raise (if code =? 404
            then RuntimeError ("Could not find "
                               +:+ (_get_release_name w version +:+ ".sha256sum") +:+ " file")
            else HTTPError code),
     with_trace (st_trace s ++ [(OpUrlopen (checksum_url w version), st_fs s)]) s).
Proof.
  intros Hsum.
  unfold _update, urlopen, try_except_HTTPError, bind, log, ret, raise, checksum_url in *.
  simpl. rewrite Hsum. by destruct (code =? 404).
Qed.

(** X5. The same for the archive: once the checksum file has been read
    and decoded, an HTTP error on the archive request turns into a
    [RuntimeError] naming the archive for status 404 and is raised again
    otherwise; the two requests are all that happened, and neither a
    progress bar nor a temporary directory was started. *)
Theorem update_archive_request_fails (version : V) (s : state) (r_sum : response)
    (code : Z) :
  w_urlopen w (checksum_url w version) = UrlOk r_sum ->
  resp_aborted r_sum = false ->
  is_Some (Unicode.decode (resp_body r_sum)) ->
  w_urlopen w (archive_url w version) = UrlHTTPError code ->
  _update w version s =
    (Raise (if code =? 404
            then RuntimeError ("Could not find " +:+ archive_name w version +:+ " file")
            else HTTPError code),
     with_trace (st_trace s ++ [(OpUrlopen (checksum_url w version), st_fs s);
                                (OpUrlopen (archive_url w version), st_fs s)]) s).
Proof.
  intros Hsum Hok [decoded Hdecoded] Harc.
  unfold _update, urlopen, try_except_HTTPError, read_all, decode_, bind, log, ret, raise,
    checksum_url, archive_url, archive_name in *.
  simpl. rewrite Hsum, Hok. simpl. rewrite Hdecoded. simpl. rewrite Harc.
  destruct (code =? 404); simpl; by rewrite <- app_assoc.
Qed.

(** X6. Once the checksum file has been read and decoded and the archive
    request is answered, the size is read with
    [int(meta["Content-Length"])] before anything is written: an answer
    without that header makes [_update] raise [TypeError], one whose value
    is no integer [ValueError]; the two requests are all that happened. *)
Theorem update_needs_content_length (version : V) (s : state) (r_sum r_arc : response) :
  w_urlopen w (checksum_url w version) = UrlOk r_sum ->
  resp_aborted r_sum = false ->
  is_Some (Unicode.decode (resp_body r_sum)) ->
  w_urlopen w (archive_url w version) = UrlOk r_arc ->
  get_header "Content-Length" (resp_headers r_arc) ≫= Py.int = None ->
  (exists e, fst (_update w version s) = Raise e /\
     match get_header "Content-Length" (resp_headers r_arc) with
     | None => exists msg, e = TypeError msg
     | Some _ => exists msg, e = ValueError msg
     end) /\
  snd (_update w version s) =
    with_trace (st_trace s ++ [(OpUrlopen (checksum_url w version), st_fs s);
                               (OpUrlopen (archive_url w version), st_fs s)]) s.
Proof.
  intros Hsum Hok [decoded Hdecoded] Harc Hsize.
  unfold _update, urlopen, try_except_HTTPError, read_all, decode_, int_header, bind, log,
    ret, raise, checksum_url, archive_url, archive_name in *.
  simpl. rewrite Hsum, Hok. simpl. rewrite Hdecoded. simpl. rewrite Harc. simpl.
  destruct (get_header "Content-Length" (resp_headers r_arc)) as [h|]; simpl in *.
  - rewrite Hsize. simpl. rewrite <- app_assoc. eauto.
  - rewrite <- app_assoc. eauto.
Qed.

(** X25. The body of the checksum file is decoded as UTF-8 before anything
    else is asked for: a body that is not UTF-8 makes [_update] raise
    [UnicodeDecodeError] with the one request made, the archive not asked
    for and no file or directory touched. *)
Theorem update_checksum_undecodable (version : V) (s : state) (r_sum : response) :
  w_urlopen w (checksum_url w version) = UrlOk r_sum ->
  resp_aborted r_sum = false ->
  Unicode.decode (resp_body r_sum) = None ->
  _update w version s =
    (Raise UnicodeDecodeError,
     with_trace (st_trace s ++ [(OpUrlopen (checksum_url w version), st_fs s)]) s).
Proof.
  intros Hsum Hok Hdecoded.
  unfold _update, urlopen, try_except_HTTPError, read_all, decode_, bind, log, ret, raise,
    checksum_url in *.
  simpl. rewrite Hsum, Hok. simpl. by rewrite Hdecoded.
Qed.

End FailedRequests.

Lemma update_checksum_request_fails_witness :
  _update Demo.missing_world Demo.v120 Demo.backed_up =
    (Raise (RuntimeError "Could not find poetry-1.2.0-linux.sha256sum file"),
     with_trace [(OpUrlopen Demo.checksum_url, st_fs Demo.backed_up)] Demo.backed_up).
Proof.
  exact (update_checksum_request_fails Demo.missing_world Demo.v120 Demo.backed_up 404 eq_refl).
Defined.

Lemma update_archive_request_fails_witness :
  let w := Demo.world Demo.installed_file false Demo.candidates
             (fun url => if String.eqb url Demo.checksum_url
                         then UrlOk (Demo.plain [] (encode "0123"))
                         else UrlHTTPError 503) in
  fst (_update w Demo.v120 Demo.backed_up) = Raise (HTTPError 503).
Proof.
  intros w.
  assert (is_Some (Unicode.decode (resp_body (Demo.plain [] (encode "0123"))))) as Hdecoded
    by (vm_compute; eauto).
  rewrite (update_archive_request_fails w Demo.v120 Demo.backed_up
             (Demo.plain [] (encode "0123")) 503);
    first [reflexivity | exact Hdecoded].
Defined.

Lemma update_needs_content_length_witness :
  exists e, fst (_update Demo.unsized_world Demo.v120 Demo.backed_up) = Raise e /\
            exists msg, e = TypeError msg.
Proof.
  assert (w_urlopen Demo.unsized_world (checksum_url Demo.unsized_world Demo.v120)
            = UrlOk (Demo.plain [] (encode (Sha256.hexdigest Demo.archive +:+ nl)))) as Hsum
    by (vm_compute; reflexivity).
  assert (w_urlopen Demo.unsized_world (archive_url Demo.unsized_world Demo.v120)
            = UrlOk (Demo.plain [] Demo.archive)) as Harc
    by (vm_compute; reflexivity).
  assert (is_Some (Unicode.decode
                     (resp_body (Demo.plain [] (encode (Sha256.hexdigest Demo.archive +:+ nl))))))
    as Hdecoded by (vm_compute; eauto).
  destruct (update_needs_content_length Demo.unsized_world Demo.v120 Demo.backed_up
              _ _ Hsum eq_refl Hdecoded Harc eq_refl) as [(e & He & Hmsg) _].
  exists e. split; [exact He | exact Hmsg].
Defined.

Lemma update_checksum_undecodable_witness :
  let w := Demo.world Demo.installed_file false Demo.candidates
             (fun url => UrlOk (Demo.plain [] [Byte.xff])) in
  _update w Demo.v120 Demo.backed_up =
    (Raise UnicodeDecodeError,
     with_trace [(OpUrlopen Demo.checksum_url, st_fs Demo.backed_up)] Demo.backed_up).
Proof.
  intros w.
  exact (update_checksum_undecodable w Demo.v120 Demo.backed_up
           (Demo.plain [] [Byte.xff]) eq_refl eq_refl eq_refl).
Defined.

(** ** A download that goes right *)

Lemma fs_set_twice d t t' f : fs_set d t (fs_set d t' f) = fs_set d t f.
Proof. by destruct d. Qed.

Lemma download_loop_writes r name reads current sha s (t : tree) old :
  fs_tmp (st_fs s) = Some t -> t !! name = Some old ->
  st_fs (snd (download_loop r name reads current sha s)) =
    fs_set Tmp (Some (<[name := {| f_data := f_data old ++ concat reads;
                                   f_mode := f_mode old |}]> t)) (st_fs s).
Proof.
  revert current sha s t old.
  induction reads as [|buffer rest IH]; intros current sha s t old Ht Hold; simpl.
  - rewrite app_nil_r. destruct old as [data mode]. simpl.
    rewrite (insert_id t name _ Hold).
    destruct (resp_aborted r); simpl; destruct (st_fs s); simpl in *; by subst.
  - unfold bind at 1. unfold write, bind, log, get_fs, put_dir, put_fs, ret. simpl.
    rewrite Ht, Hold. simpl.
    erewrite IH; [|reflexivity|apply lookup_insert_eq]. simpl.
    by rewrite insert_insert_eq, app_assoc.
Qed.

Lemma bind_unfold {A B} (m : M A) (k : A -> M B) s :
  bind m k s = match m s with
               | (Return a, s') => k a s'
               | (Raise e, s') => (Raise e, s')
               end.
Proof. reflexivity. Qed.

Lemma temporary_directory_run {A} (body : M A) s o s' :
  body (with_fs (fs_set Tmp (Some ∅) (st_fs s))
          (with_trace (st_trace s ++ [(OpMkdtemp, st_fs s)]) s)) = (o, s') ->
  temporary_directory body s =
    (o, with_fs (fs_set Tmp None (st_fs s'))
          (with_trace (st_trace s' ++ [(OpRmtree Tmp, st_fs s')]) s')).
Proof.
  intros Hbody.
  unfold temporary_directory, try_finally, try_except_finally, bind, log, put_dir,
    put_fs, get_fs, raise. simpl.
  match goal with |- context [body ?x] =>
    change x with (with_fs (fs_set Tmp (Some ∅) (st_fs s))
                     (with_trace (st_trace s ++ [(OpMkdtemp, st_fs s)]) s))
  end.
  rewrite Hbody. by destruct o.
Qed.

Lemma open_w_creates umask name s :
  fs_tmp (st_fs s) = Some ∅ ->
  open_w umask Tmp name s =
    (Return tt,
     with_fs (fs_set Tmp (Some {[name := {| f_data := []; f_mode := new_file_mode umask |}]})
                (st_fs s))
       (with_trace (st_trace s ++ [(OpWrite Tmp name, st_fs s)]) s)).
Proof.
  intros Htmp. unfold open_w, bind, log, get_fs, put_dir, put_fs, ret. simpl.
  rewrite Htmp. simpl. by rewrite lookup_empty.
Qed.

Section GoodDownload.

Context {V : Type} `{VersionOps V} `{UnicodeData} (w : World V).

(** The block in the temporary directory when the digest matches: the
    archive file holds the bytes served, and [tarfile] is run on them. *)
Lemma fetch_block_accepts name checksum r s :
  resp_aborted r = false ->
  checksum = (w_sha256_hexdigest w (resp_body r) : text) ->
  fs_tmp (st_fs s) = Some ∅ ->
  let ex := w_untar w (resp_body r) in
  let archive := {[name := {| f_data := resp_body r; f_mode := new_file_mode (w_umask w) |}]} in
  fst (fetch_block w name checksum r s) =
    match ex_error ex with None => Return tt | Some e => Raise e end /\
  st_fs (snd (fetch_block w name checksum r s)) =
    match ex_members ex with
    | [] => fs_set Tmp (Some archive) (st_fs s)
    | members =>
        fs_set Lib (Some (write_members members (default ∅ (fs_lib (st_fs s)))))
          (fs_set Tmp (Some archive) (st_fs s))
    end.
Proof.
  intros Hr -> Htmp ex archive. unfold fetch_block.
  rewrite (bind_returns _ _ _ _ _ (open_w_creates _ name s Htmp)).
  set (s1 := with_fs _ _). rewrite bind_unfold.
  pose proof (download_loop_returns r name (served block_size r) 0 [] s1 _ _ Hr eq_refl
                (lookup_insert_eq _ _ _)) as Hret.
  pose proof (download_loop_writes r name (served block_size r) 0 [] s1 _ _ eq_refl
                (lookup_insert_eq _ _ _)) as Hfs.
  destruct (download_loop r name (served block_size r) 0 [] s1) as [o s2].
  simpl in Hret, Hfs. subst o. rewrite served_concat in * by done.
  rewrite insert_singleton_eq in Hfs. fold archive in Hfs.
  rewrite bar_emit_bind, bool_decide_eq_true_2 by done. simpl negb. cbv iota.
  unfold read_file, extractall, bind, log, get_fs, put_dir, put_fs, ret, raise. simpl.
  rewrite Hfs. simpl. unfold archive at 1 2. rewrite lookup_singleton_eq. simpl.
  fold ex. destruct (st_fs s) as [lib backup bin tmp]. simpl.
  destruct (ex_members ex), (ex_error ex); simpl; by rewrite ?Hfs.
Qed.

(** The run of [_update] when both requests are answered, the size is read
    and the digest of the bytes served equals the checksum. *)
Lemma update_accepted (version : V) (s : state) (r_sum r_arc : response) (size : Z) :
  w_urlopen w (checksum_url w version) = UrlOk r_sum ->
  resp_aborted r_sum = false ->
  w_urlopen w (archive_url w version) = UrlOk r_arc ->
  resp_aborted r_arc = false ->
  get_header "Content-Length" (resp_headers r_arc) ≫= Py.int = Some size ->
  Unicode.strip <$> Unicode.decode (resp_body r_sum) =
    Some (w_sha256_hexdigest w (resp_body r_arc) : text) ->
  exists s',
    _update w version s =
      (match ex_error (w_untar w (resp_body r_arc)) with
       | None => Return tt
       | Some e => Raise e
       end, s') /\
    st_fs s' =
      fs_set Tmp None
        match ex_members (w_untar w (resp_body r_arc)) with
        | [] => st_fs s
        | members => fs_set Lib (Some (write_members members (default ∅ (fs_lib (st_fs s)))))
                       (st_fs s)
        end.
Proof.
  intros Hsum Hsum_ok Harc Harc_ok Hsize Hmatch.
  destruct (Unicode.decode (resp_body r_sum)) as [decoded|] eqn:Hdecoded; [|done].
  injection Hmatch as Hmatch.
  rewrite (update_after_requests w version s r_sum r_arc decoded size) by done.
  rewrite bar_emit_bind. set (s0 := with_bar _ _).
  set (s_in := with_fs (fs_set Tmp (Some ∅) (st_fs s0))
                 (with_trace (st_trace s0 ++ [(OpMkdtemp, st_fs s0)]) s0)).
  destruct (fetch_block_accepts (archive_name w version) _ r_arc s_in Harc_ok Hmatch eq_refl)
    as [Hfst Hfs].
  destruct (fetch_block w (archive_name w version) _ r_arc s_in) as [o s'] eqn:Eb.
  rewrite (temporary_directory_run _ s0 o s' Eb). simpl in *. subst o.
  eexists. split; [reflexivity|]. simpl. rewrite Hfs.
  destruct (st_fs s) as [lib backup bin tmp]. by destruct (ex_members _).
Qed.


End GoodDownload.


(** ** Parts of the state a computation leaves alone *)

#[global] Instance unchanged_refl {A} (field : state -> A) : Reflexive (unchanged field).
Proof. by intros s. Qed.

#[global] Instance unchanged_trans {A} (field : state -> A) : Transitive (unchanged field).
Proof. unfold unchanged. intros s1 s2 s3 H12 H23. congruence. Qed.

#[global] Hint Extern 1 (preserves (unchanged _) (log _)) => (intros ?; reflexivity) : frame.
#[global] Hint Extern 1 (preserves (unchanged _) get_fs) => (intros ?; reflexivity) : frame.
#[global] Hint Extern 1 (preserves (unchanged _) (put_fs _)) => (intros ?; reflexivity) : frame.
#[global] Hint Extern 1 (preserves (unchanged _) (put_dir _ _)) => (intros ?; reflexivity) : frame.
#[global] Hint Extern 1 (preserves (unchanged _) (line _)) => (intros ?; reflexivity) : frame.
#[global] Hint Extern 1 (preserves (unchanged _) (bar_emit _)) => (intros ?; reflexivity) : frame.
#[global] Hint Extern 1 (preserves (unchanged _) (exists_ _)) => (intros ?; reflexivity) : frame.
#[global] Hint Extern 1 (preserves (unchanged _) pop_fault) =>
  (let s := fresh in intros s; unfold pop_fault; destruct (st_faults s); reflexivity) : frame.

(** A frame proof through the file operations, which are unfolded to the
    primitives above. *)
Ltac unchanged_frame :=
  repeat first
    [ solve [eauto with frame]
    | progress unfold rmtree, copytree, open_w, write, read_file, chmod_or, mkdir,
        extractall, temporary_directory, urlopen, read_all, decode_, int_header, int_,
        process_version, environ_item, write_text, restore, discard_backup
    | frame_step ].

(** ** What the progress bar is told *)

Lemma chunks_fuel_bounds {A} n fuel (l : list A) :
  (0 < n)%nat ->
  Forall (fun b => (0 < length b <= n)%nat) (chunks_fuel fuel n l).
Proof.
  intros Hn. revert l. induction fuel as [|fuel IH]; intros l; simpl; [constructor|].
  destruct l as [|x l']; [constructor|].
  constructor; [|apply IH].
  rewrite length_take. simpl. lia.
Qed.

Lemma running_totals_climb n c reads :
  Forall (fun b => (0 < length b <= n)%nat) reads ->
  climbs (Z.of_nat n) c (running_totals c reads) (c + Z.of_nat (length (concat reads))).
Proof.
  intros Hreads. revert c. induction Hreads as [|b rest Hb _ IH]; intros c; simpl.
  - lia.
  - split; [lia|]. rewrite length_app, Nat2Z.inj_add, Z.add_assoc. apply IH.
Qed.

Lemma download_loop_bar r name reads current sha s (t : tree) old :
  fs_tmp (st_fs s) = Some t -> t !! name = Some old ->
  st_bar (snd (download_loop r name reads current sha s)) =
    st_bar s ++ map BarProgress (running_totals current reads).
Proof.
  revert current sha s t old.
  induction reads as [|buffer rest IH]; intros current sha s t old Ht Hold; simpl.
  - rewrite app_nil_r. by destruct (resp_aborted r).
  - unfold bind at 1. unfold write, bind, log, get_fs, put_dir, put_fs, ret. simpl.
    rewrite Ht, Hold. simpl.
    erewrite IH; [|reflexivity|apply lookup_insert_eq]. simpl.
    by rewrite <- app_assoc.
Qed.

Section Progress.

Context {V : Type} `{VersionOps V} `{UnicodeData} (w : World V).

Lemma fetch_block_bar name checksum r s :
  fs_tmp (st_fs s) = Some ∅ ->
  resp_aborted r = false ->
  st_bar (snd (fetch_block w name checksum r s)) =
    st_bar s ++ map BarProgress (running_totals 0 (served block_size r)) ++ [BarFinish].
Proof.
  intros Htmp Hr. unfold fetch_block.
  rewrite (bind_returns _ _ _ _ _ (open_w_creates _ name s Htmp)).
  set (s1 := with_fs _ _). rewrite bind_unfold.
  pose proof (download_loop_returns r name (served block_size r) 0 [] s1 _ _ Hr eq_refl
                (lookup_insert_eq _ _ _)) as Hret.
  pose proof (download_loop_bar r name (served block_size r) 0 [] s1 _ _ eq_refl
                (lookup_insert_eq _ _ _)) as Hbar.
  destruct (download_loop r name (served block_size r) 0 [] s1) as [o s2].
  simpl in Hret, Hbar. subst o. rewrite bar_emit_bind.
  set (s3 := with_bar _ s2).
  assert (preserves (unchanged st_bar)
            (if negb (bool_decide
                        (checksum = (w_sha256_hexdigest w (concat (served block_size r)) : text)))
             then raise (RuntimeError
                           (("Hashes for " +:+ name +:+ " do not match: " : text) ++ checksum
                            ++ (" != " +:+ w_sha256_hexdigest w (concat (served block_size r))
                                : text)))
             else data <- read_file Tmp name ;; extractall (w_untar w data) Lib)) as Htail
    by unchanged_frame.
  rewrite (Htail s3). simpl. by rewrite Hbar, <- app_assoc.
Qed.

(** X8. Once both requests are answered, the body of the checksum file
    has decoded and the size is read, the progress bar is started with the announced size, told a running total
    after every block and finished, in this order and whatever becomes of
    the digest check and the extraction.  The totals climb from 0 to the
    number of bytes served, each step by at least one byte and at most the
    block size of 8192. *)
Theorem update_reports_progress (version : V) (s : state)
    (r_sum r_arc : response) (size : Z) :
  w_urlopen w (checksum_url w version) = UrlOk r_sum ->
  resp_aborted r_sum = false ->
  is_Some (Unicode.decode (resp_body r_sum)) ->
  w_urlopen w (archive_url w version) = UrlOk r_arc ->
  resp_aborted r_arc = false ->
  get_header "Content-Length" (resp_headers r_arc) ≫= Py.int = Some size ->
  exists totals,
    st_bar (snd (_update w version s)) =
      st_bar s ++ BarStart size :: map BarProgress totals ++ [BarFinish] /\
    climbs 8192 0 totals (Z.of_nat (length (resp_body r_arc))).
Proof.
  intros Hsum Hsum_ok [decoded Hdecoded] Harc Harc_ok Hsize.
  exists (running_totals 0 (served block_size r_arc)). split.
  - rewrite (update_after_requests w version s r_sum r_arc decoded size) by done.
    rewrite bar_emit_bind. set (s0 := with_bar _ _).
    set (s_in := with_fs (fs_set Tmp (Some ∅) (st_fs s0))
                   (with_trace (st_trace s0 ++ [(OpMkdtemp, st_fs s0)]) s0)).
    pose proof (fetch_block_bar (archive_name w version) (Unicode.strip decoded) r_arc s_in
                  eq_refl Harc_ok) as Hbar.
    destruct (fetch_block w (archive_name w version) _ r_arc s_in) as [o s'] eqn:Eb.
    rewrite (temporary_directory_run _ s0 o s' Eb). simpl in *.
    by rewrite Hbar, <- app_assoc.
  - pose proof (running_totals_climb block_size 0 (served block_size r_arc)) as Hc.
    rewrite served_concat in Hc by done.
    unfold served in *. rewrite Harc_ok in *.
    change (Z.of_nat block_size) with 8192 in Hc. apply Hc.
    apply chunks_fuel_bounds. unfold block_size. lia.
Qed.

End Progress.

Lemma update_reports_progress_witness :
  exists totals,
    st_bar (snd (_update Demo.good_world Demo.v120 Demo.backed_up)) =
      st_bar Demo.backed_up ++ BarStart 20 :: map BarProgress totals ++ [BarFinish] /\
    climbs 8192 0 totals 20.
Proof.
  assert (w_urlopen Demo.good_world (checksum_url Demo.good_world Demo.v120)
            = UrlOk (Demo.plain [] (encode (Sha256.hexdigest Demo.archive +:+ nl)))) as Hsum
    by (vm_compute; reflexivity).
  assert (w_urlopen Demo.good_world (archive_url Demo.good_world Demo.v120)
            = UrlOk (Demo.plain (Demo.content_length "20") Demo.archive)) as Harc
    by (vm_compute; reflexivity).
  assert (get_header "Content-Length"
            (resp_headers (Demo.plain (Demo.content_length "20") Demo.archive)) ≫= Py.int
          = Some 20) as Hsize by (vm_compute; reflexivity).
  assert (is_Some (Unicode.decode
                     (resp_body (Demo.plain [] (encode (Sha256.hexdigest Demo.archive +:+ nl))))))
    as Hdecoded by (vm_compute; eauto).
  exact (update_reports_progress Demo.good_world Demo.v120 Demo.backed_up
           _ _ 20 Hsum eq_refl Hdecoded Harc eq_refl Hsize).
Defined.

(** ** The whole of [update] *)

Section UpdateOutcome.

Context {V : Type} `{VersionOps V} `{UnicodeData} (w : World V).

Lemma download_loop_unchanged {A} (field : state -> A) r name reads current sha :
  (forall buffer, preserves (unchanged field) (write Tmp name buffer)) ->
  (forall e, preserves (unchanged field) (bar_emit e)) ->
  preserves (unchanged field) (download_loop r name reads current sha).
Proof. intros. by apply download_loop_preserves; try apply _. Qed.

Lemma update_unchanged_faults version : preserves (unchanged st_faults) (_update w version).
Proof.
  unfold _update.
  repeat first [ apply download_loop_unchanged; intros | unchanged_frame ].
Qed.

Lemma update_unchanged_out version : preserves (unchanged st_out) (_update w version).
Proof.
  unfold _update.
  repeat first [ apply download_loop_unchanged; intros | unchanged_frame ].
Qed.

Lemma which_python_loop_unchanged {A} (field : state -> A) executables fallback :
  (forall o, preserves (unchanged field) (log o)) ->
  preserves (unchanged field) (which_python_loop w executables fallback).
Proof.
  intros Hlog. revert fallback.
  induction executables as [|e l IH]; intros fallback; simpl; unchanged_frame.
Qed.

Lemma make_bin_unchanged_out : preserves (unchanged st_out) (make_bin w).
Proof.
  unfold make_bin, _which_python.
  repeat first [ apply which_python_loop_unchanged; intros | unchanged_frame ].
Qed.

Lemma make_bin_keeps d : d <> Bin -> preserves (keeps d) (make_bin w).
Proof.
  intros Hd. unfold make_bin, _which_python.
  assert (forall executables fallback,
            preserves (keeps d) (which_python_loop w executables fallback)) as Hloop.
  { intros executables. induction executables as [|e l IH]; intros fallback; simpl.
    - frame.
    - unfold process_version, decode_, int_. frame. }
  unfold write_text, chmod_or, mkdir, environ_item. frame.
  all: first [apply keeps_put_dir | apply keeps_open_w | apply keeps_write]; done.
Qed.

Lemma guarded_tail_unchanged_out release :
  preserves (unchanged st_out)
    (b <- exists_ LibBackup ;;
     when b (rmtree LibBackup) ;;
     l <- exists_ Lib ;;
     when l (copytree Lib LibBackup ;; rmtree Lib) ;;
     try_except_finally (_update w (pkg_version release)) restore discard_backup).
Proof.
  repeat first [ apply update_unchanged_out | unchanged_frame ].
Qed.

Lemma guarded_update_out release s :
  st_out (snd (guarded_update w release s)) =
    st_out s ++ ["Updating to <info>" +:+ v_str (pkg_version release) +:+ "</info>"].
Proof.
  unfold guarded_update, backup_phase.
  set (text := "Updating to <info>" +:+ v_str (pkg_version release) +:+ "</info>").
  pose proof (guarded_tail_unchanged_out release (with_out (st_out s ++ [text]) s)) as Hout.
  unfold unchanged in Hout. simpl in Hout. rewrite <- Hout.
  rewrite bind_assoc.
  change ((line text ;; ?k) s) with (k (with_out (st_out s ++ [text]) s)).
  rewrite bind_assoc. f_equal. f_equal. apply bind_ext. intros b s1.
  rewrite bind_assoc. apply bind_ext. intros u s2. by rewrite bind_assoc.
Qed.

(** X9. [update] prints its announcement first, whatever happens next,
    and the three closing lines exactly when it returns: nothing else is
    printed, and a failed update never claims that Poetry is installed. *)
Theorem update_prints (release : Package V) (s : state) :
  st_out (snd (update w release s)) =
    st_out s
    ++ ("Updating to <info>" +:+ v_str (pkg_version release) +:+ "</info>")
    :: match fst (update w release s) with
       | Return _ =>
           [EmptyString; EmptyString;
            "<info>Poetry</info> (<comment>" +:+ v_str (pkg_version release)
            +:+ "</comment>) is installed now. Great!"]
       | Raise _ => []
       end.
Proof.
  rewrite update_phases.
  pose proof (guarded_update_out release s) as Hout1.
  destruct (guarded_update w release s) as [[[]|e] s1] eqn:Eg; simpl in Hout1.
  - rewrite (bind_returns _ _ _ _ _ Eg). unfold announce_success.
    pose proof (make_bin_unchanged_out s1) as Hout2. unfold unchanged in Hout2.
    destruct (make_bin w s1) as [[[]|e] s2] eqn:Em; simpl in Hout2.
    + rewrite (bind_returns _ _ _ _ _ Em). unfold bind, line. simpl.
      rewrite Hout2, Hout1. by rewrite <- !app_assoc.
    + rewrite (bind_raises _ _ _ _ _ Em). simpl. by rewrite Hout2, Hout1.
  - by rewrite (bind_raises _ _ _ _ _ Eg).
Qed.

Lemma discard_backup_returns s :
  fst (discard_backup s) = Return tt ->
  fs_lib_backup (st_fs (snd (discard_backup s))) = None.
Proof.
  destruct s as [[lib [b|] bin tmp] out bar tr [|[n|] rest]]; by cbn.
Qed.

(** X10. When [update] returns, no backup directory is left behind,
    whether one was there before or was made on the way. *)
Theorem update_success_discards_backup (release : Package V) (s : state) :
  fst (update w release s) = Return tt ->
  fs_lib_backup (st_fs (snd (update w release s))) = None.
Proof.
  rewrite update_phases.
  destruct (guarded_update w release s) as [[[]|e] s3] eqn:Eg;
    [rewrite (bind_returns _ _ _ _ _ Eg) | by rewrite (bind_raises _ _ _ _ _ Eg)].
  intros _.
  assert (fs_lib_backup (st_fs s3) = None) as Hgone.
  { revert Eg. unfold guarded_update, bind at 1.
    destruct (backup_phase release s) as [[[]|e0] s1]; [|done].
    unfold try_except_finally.
    set (r := match _update w (pkg_version release) s1 with
              | (Return a, s2) => (Return a, s2)
              | (Raise e, s2) => restore e s2
              end).
    pose proof (discard_backup_returns (snd r)) as Hfinal.
    destruct (discard_backup (snd r)) as [[[]|e1] s4]; [|done].
    intros [= _ <-]. by apply Hfinal. }
  assert (preserves (keeps LibBackup) (announce_success w release)) as Hkeep.
  { unfold announce_success. repeat first [ apply make_bin_keeps; discriminate | frame ]. }
  specialize (Hkeep s3). unfold keeps in Hkeep. simpl in Hkeep.
  by rewrite Hkeep.
Qed.

Lemma backup_phase_run release s t :
  fs_lib (st_fs s) = Some t ->
  st_faults s = [] ->
  exists s1,
    backup_phase release s = (Return tt, s1) /\
    fs_lib (st_fs s1) = None /\ fs_lib_backup (st_fs s1) = Some t /\
    fs_bin (st_fs s1) = fs_bin (st_fs s) /\ st_faults s1 = [].
Proof.
  intros Hlib Hfaults.
  destruct s as [[lib backup bin tmp] out bar tr faults]. simpl in *. subst.
  destruct backup as [b|]; eexists; (split; [reflexivity|done]).
Qed.



End UpdateOutcome.

Lemma update_success_discards_backup_witness :
  fst (update Demo.good_world (Demo.release "1.2.0") Demo.state0) = Return tt /\
  fs_lib_backup (st_fs (snd (update Demo.good_world (Demo.release "1.2.0") Demo.state0))) = None.
Proof.
  assert (fst (update Demo.good_world (Demo.release "1.2.0") Demo.state0) = Return tt) as Hret
    by (vm_compute; reflexivity).
  split; [exact Hret|].
  exact (update_success_discards_backup Demo.good_world (Demo.release "1.2.0") Demo.state0 Hret).
Defined.



(** ** The interpreter probe and the launcher *)

Section LauncherFiles.

Context {V : Type} `{VersionOps V} `{UnicodeData} (w : World V).

Lemma probed_spec executables :
  (exists pre x post,
     executables = pre ++ x :: post /\ probed w executables = pre ++ [x] /\
     stops w x /\ Forall (fun y => ~ stops w y) pre) \/
  (probed w executables = executables /\
   Forall (fun y => ~ stops w y) executables).
Proof.
  induction executables as [|e l IH]; simpl.
  - right. by split.
  - destruct (stopsb w e) eqn:Ee.
    + left. exists [], e, l. repeat split; [|constructor]. by apply stopsb_spec.
    + assert (~ stops w e) as Hne.
      { rewrite <- stopsb_spec. by rewrite Ee. }
      destruct IH as [(pre & x & post & -> & -> & Hx & Hpre)|[-> Hall]].
      * left. exists (e :: pre), x, post. repeat split; [done|]. by constructor.
      * right. split; [done|]. by constructor.
Qed.


Lemma chosen_allowed x :
  chosen w (allowed_executables w) None = Return x -> In x (allowed_executables w).
Proof.
  unfold chosen.
  destruct (find (stopsb w) (allowed_executables w)) as [e|] eqn:Ef.
  - destruct (garbledb w e); [done|]. intros [= <-]. by apply find_some in Ef as [? _].
  - destruct (find (ranb w) (allowed_executables w)) as [e|] eqn:Er; intros [= <-].
    + by apply find_some in Er as [? _].
    + by left.
Qed.

Lemma which_python_outcome s : fst (_which_python w s) = chosen w (allowed_executables w) None.
Proof. unfold _which_python. by rewrite which_python_loop_state. Qed.

(** X14. Whatever [_which_python] returns is one of the names it may
    try: [python] or [python3], and on Windows also the two [py.exe]
    launchers, which are never chosen elsewhere. *)
Theorem which_python_among_candidates (s : state) (x : string) :
  fst (_which_python w s) = Return x ->
  In x (allowed_executables w) /\
  (w_windows w = false -> x = "python" \/ x = "python3").
Proof.
  rewrite which_python_outcome. intros Hx. apply chosen_allowed in Hx as Hin.
  split; [done|].
  intros Hposix. unfold allowed_executables in Hin. rewrite Hposix in Hin.
  simpl in Hin. destruct Hin as [<-|[<-|[]]]; auto.
Qed.

Lemma mkdir_run d s :
  exists s',
    mkdir d s = (Return tt, s') /\
    fs_get d (st_fs s') = Some (default ∅ (fs_get d (st_fs s))).
Proof.
  destruct s as [[lib backup bin tmp] out bar tr faults].
  unfold mkdir, bind, log, get_fs, put_dir, put_fs, ret.
  destruct d; simpl;
    match goal with |- context [match ?x with Some _ => _ | None => _ end] => destruct x end;
    eexists; (split; [reflexivity|done]).
Qed.

Lemma open_w_run umask d name s t :
  fs_get d (st_fs s) = Some t ->
  exists s',
    open_w umask d name s = (Return tt, s') /\
    fs_get d (st_fs s') =
      Some (<[name := {| f_data := []; f_mode := match t !! name with
                                                  | Some old => f_mode old
                                                  | None => new_file_mode umask
                                                  end |}]> t).
Proof.
  intros Ht. unfold open_w, bind, log, get_fs, put_dir, put_fs, ret. simpl. rewrite Ht.
  eexists. split; [reflexivity|]. by destruct d.
Qed.

Lemma write_run d name buffer s t old :
  fs_get d (st_fs s) = Some t -> t !! name = Some old ->
  exists s',
    write d name buffer s = (Return tt, s') /\
    fs_get d (st_fs s') =
      Some (<[name := {| f_data := f_data old ++ buffer; f_mode := f_mode old |}]> t).
Proof.
  intros Ht Hold. unfold write, bind, log, get_fs, put_dir, put_fs, ret. simpl.
  rewrite Ht, Hold. eexists. split; [reflexivity|]. by destruct d.
Qed.

Lemma chmod_or_run d name bits s t old :
  fs_get d (st_fs s) = Some t -> t !! name = Some old ->
  exists s',
    chmod_or d name bits s = (Return tt, s') /\
    fs_get d (st_fs s') =
      Some (<[name := {| f_data := f_data old; f_mode := Z.lor (f_mode old) bits |}]> t).
Proof.
  intros Ht Hold. unfold chmod_or, bind, log, get_fs, put_dir, put_fs, ret. simpl.
  rewrite Ht, Hold. eexists. split; [reflexivity|]. by destruct d.
Qed.

Lemma write_text_run d name text s t :
  fs_get d (st_fs s) = Some t ->
  exists s',
    write_text w d name text s = (Return tt, s') /\
    fs_get d (st_fs s') =
      Some (<[name := {| f_data := encode (if w_windows w
                                           then Py.replace nl (cr +:+ nl) text else text);
                         f_mode := opened_mode w t name |}]> t).
Proof.
  intros Ht. unfold write_text.
  destruct (open_w_run (w_umask w) d name s t Ht) as (s1 & Hopen & Ht1).
  rewrite (bind_returns _ _ _ _ _ Hopen).
  destruct (write_run d name
              (encode (if w_windows w then Py.replace nl (cr +:+ nl) text else text))
              s1 _ _ Ht1 (lookup_insert_eq _ _ _)) as (s2 & Hwrite & Ht2).
  exists s2. split; [done|]. rewrite Ht2. cbn [f_data f_mode app].
  by rewrite insert_insert_eq.
Qed.

Lemma which_python_run s s1 python_executable :
  fst (_which_python w s) = Return python_executable ->
  exists s', _which_python w s1 = (Return python_executable, s') /\ st_fs s' = st_fs s1.
Proof.
  rewrite which_python_outcome. intros Hx.
  unfold _which_python. rewrite which_python_loop_state, Hx. by eexists.
Qed.

Lemma which_python_fails s s1 e :
  fst (_which_python w s) = Raise e ->
  exists s', _which_python w s1 = (Raise e, s') /\ st_fs s' = st_fs s1.
Proof.
  rewrite which_python_outcome. intros Hx.
  unfold _which_python. rewrite which_python_loop_state, Hx. by eexists.
Qed.

Lemma make_bin_posix_run s python_executable :
  w_windows w = false ->
  fst (_which_python w s) = Return python_executable ->
  let t := default ∅ (fs_bin (st_fs s)) in
  exists s',
    make_bin w s = (Return tt, s') /\
    fs_bin (st_fs s') =
      Some (<["poetry" := {| f_data := encode ("#!/usr/bin/env " +:+ python_executable
                                               +:+ nl +:+ BIN);
                             f_mode := Z.lor (opened_mode w t "poetry") S_IEXEC |}]> t).
Proof.
  intros Hposix Hprobe t.
  unfold make_bin. rewrite Hposix. unfold when. cbn [negb].
  destruct (mkdir_run Bin s) as (s1 & Hmkdir & Ht1).
  rewrite (bind_returns _ _ _ _ _ Hmkdir).
  destruct (which_python_run s s1 _ Hprobe) as (s2 & Hpy & Hfs2).
  rewrite (bind_returns _ _ _ _ _ Hpy).
  change ((ret tt ;; ?k) s2) with (k s2).
  assert (fs_get Bin (st_fs s2) = Some t) as Ht2 by (by rewrite Hfs2, Ht1).
  destruct (write_text_run Bin "poetry"
              ("#!/usr/bin/env " +:+ python_executable +:+ nl +:+ BIN)
              s2 t Ht2) as (s3 & Htext & Ht3).
  rewrite Hposix in Ht3.
  rewrite (bind_returns _ _ _ _ _ Htext).
  destruct (chmod_or_run Bin "poetry" S_IEXEC s3 _ _ Ht3 (lookup_insert_eq _ _ _))
    as (s4 & Hchmod & Ht4).
  exists s4. split; [done|]. cbn [fs_get f_data f_mode] in Ht4.
  by rewrite Ht4, insert_insert_eq.
Qed.

Lemma make_bin_probe_raises s e :
  fst (_which_python w s) = Raise e ->
  exists s',
    make_bin w s = (Raise e, s') /\
    fs_bin (st_fs s') = Some (default ∅ (fs_bin (st_fs s))).
Proof.
  intros Hprobe. unfold make_bin.
  destruct (mkdir_run Bin s) as (s1 & Hmkdir & Ht1).
  rewrite (bind_returns _ _ _ _ _ Hmkdir).
  destruct (which_python_fails s s1 _ Hprobe) as (s2 & Hpy & Hfs2).
  rewrite (bind_raises _ _ _ _ _ Hpy).
  exists s2. split; [done|]. by rewrite Hfs2.
Qed.

Lemma exec_bit_set mode : Z.testbit (Z.lor mode S_IEXEC) 6 = true.
Proof. rewrite Z.lor_spec. change (Z.testbit S_IEXEC 6) with true. apply orb_true_r. Qed.

(** X15. On POSIX, when the interpreter probe returns an executable,
    [make_bin] succeeds.  It creates the [bin] directory when it is
    missing, and leaves in it the launcher [poetry] holding the
    interpreter line for that executable followed by [BIN], with the
    owner-execute bit added to the mode the file had (or to the mode of a
    new file); the other files of [bin], and the other directories, are as
    they were. *)
Theorem make_bin_posix (s : state) (python_executable : string) :
  w_windows w = false ->
  fst (_which_python w s) = Return python_executable ->
  let t := default ∅ (fs_bin (st_fs s)) in
  fst (make_bin w s) = Return tt /\
  fs_bin (st_fs (snd (make_bin w s))) =
    Some (<["poetry" := {| f_data := encode ("#!/usr/bin/env " +:+ python_executable
                                             +:+ nl +:+ BIN);
                           f_mode := Z.lor (opened_mode w t "poetry") S_IEXEC |}]> t) /\
  Z.testbit (Z.lor (opened_mode w t "poetry") S_IEXEC) 6 = true /\
  forall d, d <> Bin ->
    fs_get d (st_fs (snd (make_bin w s))) = fs_get d (st_fs s).
Proof.
  intros Hposix Hprobe t.
  destruct (make_bin_posix_run s _ Hposix Hprobe) as (s' & Hrun & Hbin).
  rewrite Hrun. cbn [fst snd]. split; [done|]. split; [done|]. split.
  - apply exec_bit_set.
  - intros d Hd. pose proof (make_bin_keeps w d Hd s) as Hk. unfold keeps in Hk.
    by rewrite Hrun in Hk.
Qed.

(** X16. On Windows, with [USERPROFILE] set, when the interpreter probe
    returns an executable, [make_bin] succeeds and leaves two files in
    [bin]: [poetry.bat], which calls that executable on the launcher path
    with the profile directory replaced by [%USERPROFILE%], written as it
    is; and [poetry], which holds [BIN] without an interpreter line, its
    newlines written as CR LF.  No mode is changed. *)
Theorem make_bin_windows (s : state) (profile python_executable : string) :
  w_windows w = true ->
  w_environ w !! "USERPROFILE" = Some profile ->
  fst (_which_python w s) = Return python_executable ->
  let t := default ∅ (fs_bin (st_fs s)) in
  fst (make_bin w s) = Return tt /\
  fs_bin (st_fs (snd (make_bin w s))) =
    Some (<["poetry" := {| f_data := encode (Py.replace nl (cr +:+ nl) BIN);
                           f_mode := opened_mode w t "poetry" |}]>
            (<["poetry.bat" :=
                 {| f_data := encode (BAT_format python_executable
                                        (Py.replace profile "%USERPROFILE%"
                                           (path_str w (joinpath (bin_path w) "poetry"))));
                    f_mode := opened_mode w t "poetry.bat" |}]> t)).
Proof.
  intros Hwin Hprofile Hprobe t.
  assert (exists s', make_bin w s = (Return tt, s') /\
            fs_bin (st_fs s') =
              Some (<["poetry" := {| f_data := encode (Py.replace nl (cr +:+ nl) BIN);
                                     f_mode := opened_mode w t "poetry" |}]>
                      (<["poetry.bat" :=
                           {| f_data := encode (BAT_format python_executable
                                          (Py.replace profile "%USERPROFILE%"
                                             (path_str w (joinpath (bin_path w) "poetry"))));
                              f_mode := opened_mode w t "poetry.bat" |}]> t)))
    as (s' & -> & Hbin); [|done].
  unfold make_bin. rewrite Hwin. unfold when. cbn [negb].
  destruct (mkdir_run Bin s) as (s1 & Hmkdir & Ht1).
  rewrite (bind_returns _ _ _ _ _ Hmkdir).
  destruct (which_python_run s s1 _ Hprobe) as (s2 & Hpy & Hfs2).
  rewrite (bind_returns _ _ _ _ _ Hpy).
  assert (fs_get Bin (st_fs s2) = Some t) as Ht2 by (by rewrite Hfs2, Ht1).
  destruct (open_w_run (w_umask w) Bin "poetry.bat" s2 t Ht2) as (s3 & Hopen & Ht3).
  rewrite bind_assoc, (bind_returns _ _ _ _ _ Hopen).
  unfold environ_item. rewrite Hprofile.
  rewrite bind_assoc, (bind_returns (ret profile) _ s3 profile s3 eq_refl).
  destruct (write_run Bin "poetry.bat"
              (encode (BAT_format python_executable
                         (Py.replace profile "%USERPROFILE%"
                            (path_str w (joinpath (bin_path w) "poetry")))))
              s3 _ _ Ht3 (lookup_insert_eq _ _ _)) as (s4 & Hwrite & Ht4).
  rewrite (bind_returns _ _ _ _ _ Hwrite).
  cbn [f_data f_mode app] in Ht4. rewrite insert_insert_eq in Ht4.
  destruct (write_text_run Bin "poetry" BIN s4 _ Ht4) as (s5 & Htext & Ht5).
  rewrite Hwin in Ht5.
  rewrite (bind_returns _ _ _ _ _ Htext).
  exists s5. split; [done|]. cbn [fs_get] in Ht5. rewrite Ht5. do 3 f_equal.
  unfold opened_mode. by rewrite lookup_insert_ne.
Qed.

(** X17. On Windows without [USERPROFILE] in the environment, when the
    interpreter probe returns an executable, [make_bin] fails with
    [KeyError]: by then [poetry.bat] has been opened for writing, so it is
    left empty, and the launcher [poetry] is not written. *)
Theorem make_bin_windows_without_profile (s : state) (python_executable : string) :
  w_windows w = true ->
  w_environ w !! "USERPROFILE" = None ->
  fst (_which_python w s) = Return python_executable ->
  let t := default ∅ (fs_bin (st_fs s)) in
  fst (make_bin w s) = Raise (KeyError "USERPROFILE") /\
  fs_bin (st_fs (snd (make_bin w s))) =
    Some (<["poetry.bat" := {| f_data := []; f_mode := opened_mode w t "poetry.bat" |}]> t).
Proof.
  intros Hwin Hprofile Hprobe t.
  assert (exists s', make_bin w s = (Raise (KeyError "USERPROFILE"), s') /\
            fs_bin (st_fs s') =
              Some (<["poetry.bat" := {| f_data := [];
                                         f_mode := opened_mode w t "poetry.bat" |}]> t))
    as (s' & -> & Hbin); [|done].
  unfold make_bin. rewrite Hwin. unfold when. cbn [negb].
  destruct (mkdir_run Bin s) as (s1 & Hmkdir & Ht1).
  rewrite (bind_returns _ _ _ _ _ Hmkdir).
  destruct (which_python_run s s1 _ Hprobe) as (s2 & Hpy & Hfs2).
  rewrite (bind_returns _ _ _ _ _ Hpy).
  assert (fs_get Bin (st_fs s2) = Some t) as Ht2 by (by rewrite Hfs2, Ht1).
  destruct (open_w_run (w_umask w) Bin "poetry.bat" s2 t Ht2) as (s3 & Hopen & Ht3).
  rewrite bind_assoc, (bind_returns _ _ _ _ _ Hopen).
  unfold environ_item. rewrite Hprofile.
  exists s3. split; [done|]. exact Ht3.
Qed.

(** X18. On POSIX [make_bin] is idempotent on the file system: running
    it again leaves every directory, the launcher and its mode included, as
    the first run left them. *)
Theorem make_bin_posix_idempotent (s : state) :
  w_windows w = false ->
  st_fs (snd (make_bin w (snd (make_bin w s)))) = st_fs (snd (make_bin w s)).
Proof.
  intros Hposix.
  assert (exists s1 s2, make_bin w s = (fst (make_bin w s), s1) /\
            make_bin w s1 = (fst (make_bin w s1), s2) /\
            fs_bin (st_fs s2) = fs_bin (st_fs s1)) as (s1 & s2 & Hrun1 & Hrun2 & Hbin).
  { destruct (chosen w (allowed_executables w) None) as [x|e] eqn:Hchosen.
    - assert (forall s0, fst (_which_python w s0) = Return x) as Hprobe
        by (intros s0; by rewrite which_python_outcome).
      destruct (make_bin_posix_run s x Hposix (Hprobe s)) as (s1 & Hrun1 & Hbin1).
      destruct (make_bin_posix_run s1 x Hposix (Hprobe s1)) as (s2 & Hrun2 & Hbin2).
      exists s1, s2. rewrite Hrun1, Hrun2. cbn [fst]. repeat split.
      rewrite Hbin2, Hbin1. cbn [default from_option id]. unfold opened_mode at 1.
      rewrite lookup_insert_eq. cbn [f_mode].
      by rewrite insert_insert_eq, <- Z.lor_assoc, Z.lor_diag.
    - assert (forall s0, fst (_which_python w s0) = Raise e) as Hprobe
        by (intros s0; by rewrite which_python_outcome).
      destruct (make_bin_probe_raises s e (Hprobe s)) as (s1 & Hrun1 & Hbin1).
      destruct (make_bin_probe_raises s1 e (Hprobe s1)) as (s2 & Hrun2 & Hbin2).
      exists s1, s2. rewrite Hrun1, Hrun2. cbn [fst]. repeat split.
      by rewrite Hbin2, Hbin1. }
  rewrite Hrun1. cbn [snd]. rewrite Hrun2. cbn [snd].
  pose proof (make_bin_keeps w Lib ltac:(done) s1) as Hlib.
  pose proof (make_bin_keeps w LibBackup ltac:(done) s1) as Hbak.
  pose proof (make_bin_keeps w Tmp ltac:(done) s1) as Htmp.
  unfold keeps in Hlib, Hbak, Htmp. rewrite Hrun2 in Hlib, Hbak, Htmp.
  cbn [snd fs_get] in Hlib, Hbak, Htmp.
  destruct (st_fs s2), (st_fs s1). cbn in *. congruence.
Qed.

(** X26. When the interpreter probe fails, as it does with
    [UnicodeDecodeError] on a candidate whose output is not UTF-8,
    [make_bin] fails with the same error on either platform: the [bin]
    directory has been created by then, but no launcher is written, and
    every file and every other directory is as it was. *)
Theorem make_bin_probe_fails (s : state) (e : exn) :
  fst (_which_python w s) = Raise e ->
  fst (make_bin w s) = Raise e /\
  fs_bin (st_fs (snd (make_bin w s))) = Some (default ∅ (fs_bin (st_fs s))) /\
  forall d, d <> Bin ->
    fs_get d (st_fs (snd (make_bin w s))) = fs_get d (st_fs s).
Proof.
  intros Hprobe.
  destruct (make_bin_probe_raises s e Hprobe) as (s' & Hrun & Hbin).
  rewrite Hrun. cbn [fst snd]. split; [done|]. split; [done|].
  intros d Hd. pose proof (make_bin_keeps w d Hd s) as Hk. unfold keeps in Hk.
  by rewrite Hrun in Hk.
Qed.

End LauncherFiles.

Lemma which_python_among_candidates_witness :
  fst (_which_python Demo.good_world Demo.state0) = Return "python3" /\
  In "python3" (allowed_executables Demo.good_world) /\
  ("python3" = "python" \/ "python3" = "python3").
Proof.
  assert (fst (_which_python Demo.good_world Demo.state0) = Return "python3") as Hx
    by (vm_compute; reflexivity).
  destruct (which_python_among_candidates Demo.good_world Demo.state0 "python3" Hx)
    as (Hin & Hposix).
  split; [exact Hx|]. split; [exact Hin|]. exact (Hposix eq_refl).
Defined.

Lemma make_bin_posix_witness :
  fst (make_bin Demo.good_world Demo.state0) = Return tt /\
  fs_bin (st_fs (snd (make_bin Demo.good_world Demo.state0))) =
    Some {["poetry" := {| f_data := encode ("#!/usr/bin/env python3" +:+ nl +:+ BIN);
                          f_mode := 484 |}]} /\
  fs_lib (st_fs (snd (make_bin Demo.good_world Demo.state0))) = Some Demo.old_tree.
Proof.
  assert (fst (_which_python Demo.good_world Demo.state0) = Return "python3") as Hprobe
    by (vm_compute; reflexivity).
  destruct (make_bin_posix Demo.good_world Demo.state0 "python3" eq_refl Hprobe)
    as (Hret & Hbin & _ & Hrest).
  split; [exact Hret|]. split.
  - rewrite Hbin. vm_compute. reflexivity.
  - exact (Hrest Lib ltac:(discriminate)).
Defined.

Lemma make_bin_posix_idempotent_witness :
  st_fs (snd (make_bin Demo.good_world (snd (make_bin Demo.good_world Demo.state0)))) =
  st_fs (snd (make_bin Demo.good_world Demo.state0)).
Proof. exact (make_bin_posix_idempotent Demo.good_world Demo.state0 eq_refl). Defined.

Lemma make_bin_windows_witness :
  fst (make_bin (windows_world {["USERPROFILE" := "C:\Users\user"]}) empty_home) = Return tt /\
  f_data <$> (fs_bin (st_fs (snd (make_bin (windows_world {["USERPROFILE" := "C:\Users\user"]})
                                    empty_home))) ≫= (.!! "poetry.bat")) =
    Some (encode ("@echo off" +:+ cr +:+ nl +:+ "py.exe -3 "
                  +:+ quoted "%USERPROFILE%\.poetry\bin\poetry" +:+ " %*" +:+ cr +:+ nl)).
Proof.
  assert (w_environ (windows_world {["USERPROFILE" := "C:\Users\user"]}) !! "USERPROFILE"
          = Some "C:\Users\user") as Hprofile by (vm_compute; reflexivity).
  assert (fst (_which_python (windows_world {["USERPROFILE" := "C:\Users\user"]}) empty_home)
          = Return "py.exe -3") as Hprobe by (vm_compute; reflexivity).
  destruct (make_bin_windows (windows_world {["USERPROFILE" := "C:\Users\user"]}) empty_home
              "C:\Users\user" "py.exe -3" eq_refl Hprofile Hprobe) as (Hret & Hbin).
  split; [exact Hret|]. rewrite Hbin. vm_compute. reflexivity.
Defined.

Lemma make_bin_windows_without_profile_witness :
  fst (make_bin (windows_world ∅) empty_home) = Raise (KeyError "USERPROFILE") /\
  fs_bin (st_fs (snd (make_bin (windows_world ∅) empty_home))) =
    Some {["poetry.bat" := {| f_data := []; f_mode := 438 |}]}.
Proof.
  assert (w_environ (windows_world ∅) !! "USERPROFILE" = None) as Hprofile
    by (vm_compute; reflexivity).
  assert (fst (_which_python (windows_world ∅) empty_home) = Return "py.exe -3") as Hprobe
    by (vm_compute; reflexivity).
  destruct (make_bin_windows_without_profile (windows_world ∅) empty_home "py.exe -3"
              eq_refl Hprofile Hprobe) as (Hret & Hbin).
  split; [exact Hret|]. rewrite Hbin. vm_compute. reflexivity.
Defined.

Lemma make_bin_probe_fails_witness :
  fst (make_bin Demo.latin1_world Demo.state0) = Raise UnicodeDecodeError /\
  fs_bin (st_fs (snd (make_bin Demo.latin1_world Demo.state0))) = Some ∅ /\
  fs_lib (st_fs (snd (make_bin Demo.latin1_world Demo.state0))) = Some Demo.old_tree.
Proof.
  assert (fst (_which_python Demo.latin1_world Demo.state0) = Raise UnicodeDecodeError)
    as Hprobe by (vm_compute; reflexivity).
  destruct (make_bin_probe_fails Demo.latin1_world Demo.state0 UnicodeDecodeError Hprobe)
    as (Hret & Hbin & Hrest).
  split; [exact Hret|]. split; [exact Hbin|]. exact (Hrest Lib ltac:(discriminate)).
Defined.

(** ** Failures of the backup itself *)

Section BackupFailure.

Context {V : Type} `{VersionOps V} `{UnicodeData} (w : World V).

Lemma backup_phase_logs release : preserves (logs_only backup_op) (backup_phase release).
Proof. unfold backup_phase. frame. Qed.

Lemma backup_phase_keeps release d :
  d <> Lib -> d <> LibBackup -> preserves (keeps d) (backup_phase release).
Proof.
  intros Hl Hb. unfold backup_phase. frame.
  all: first [apply keeps_rmtree | apply keeps_copytree]; done.
Qed.

Lemma backup_phase_copy release s t :
  fs_lib (st_fs s) = Some t ->
  fs_lib (st_fs (snd (backup_phase release s))) = Some t \/
  fs_lib_backup (st_fs (snd (backup_phase release s))) = Some t.
Proof.
  intros Hlib.
  destruct s as [[lib backup bin tmp] out bar tr faults]. simpl in Hlib. subst lib.
  destruct backup as [b|];
    destruct faults as [|[n1|] [|[n2|] [|[n3|] rest]]]; cbn; auto.
Qed.

(** X19. The backup is made outside the [try] block.  When it fails, in
    removing a stale backup, in copying the live tree or in removing it,
    [update] stops with that exception before any request is made and
    without touching [bin]; and a complete copy of the former tree is
    still there, in the live directory or in the backup directory. *)
Theorem backup_failure_keeps_a_copy (release : Package V) (s s1 : state) (t : tree)
    (e : exn) :
  fs_lib (st_fs s) = Some t ->
  backup_phase release s = (Raise e, s1) ->
  update w release s = (Raise e, s1) /\
  (fs_lib (st_fs s1) = Some t \/ fs_lib_backup (st_fs s1) = Some t) /\
  fs_bin (st_fs s1) = fs_bin (st_fs s) /\
  exists new, st_trace s1 = st_trace s ++ new /\ Forall (fun o => backup_op (fst o)) new.
Proof.
  intros Hlib Hbackup. split; [|split; [|split]].
  - rewrite update_phases. unfold guarded_update.
    by rewrite bind_assoc, (bind_raises _ _ _ _ _ Hbackup).
  - pose proof (backup_phase_copy release s t Hlib) as Hcopy. by rewrite Hbackup in Hcopy.
  - pose proof (backup_phase_keeps release Bin ltac:(done) ltac:(done) s) as Hk.
    unfold keeps in Hk. by rewrite Hbackup in Hk.
  - pose proof (backup_phase_logs release s) as Hl. by rewrite Hbackup in Hl.
Qed.

End BackupFailure.

Lemma backup_failure_keeps_a_copy_witness :
  let s := with_faults [None; Some 1%nat] Demo.state0 in
  let s1 := snd (backup_phase (Demo.release "1.2.0") s) in
  update Demo.good_world (Demo.release "1.2.0") s = (Raise (OSError "rmtree"), s1) /\
  fs_lib_backup (st_fs s1) = Some Demo.old_tree /\
  fs_bin (st_fs s1) = fs_bin (st_fs s).
Proof.
  intros s s1.
  assert (backup_phase (Demo.release "1.2.0") s = (Raise (OSError "rmtree"), s1)) as Hb.
  { unfold s1. rewrite (surjective_pairing (backup_phase _ s)) at 1.
    f_equal; vm_compute; reflexivity. }
  destruct (backup_failure_keeps_a_copy Demo.good_world (Demo.release "1.2.0") s s1
              Demo.old_tree _ eq_refl Hb) as (Hu & _ & Hbin & _).
  split; [exact Hu|]. split; [vm_compute; reflexivity | exact Hbin].
Defined.

(** ** The version pattern *)

Section ThreeParts.

Context `{UnicodeData}.

(** X20. The version pattern asks for three parts.  An answer of two
    numbers only, as in [Python 3.9], does not match, so that an
    interpreter answering it is not taken for a Python 3. *)
Theorem version_needs_three_parts (major minor : text) :
  digits major -> digits minor ->
  version_matcher (("Python " : text) ++ major ++ ("." : text) ++ minor) = None.
Proof.
  intros [Hn1 Hd1] [Hn2 Hd2]. unfold version_matcher.
  rewrite (proj2 (strip_prefix_spec ("Python " : text) _ _) eq_refl).
  rewrite (proj2 (span_digits_spec _ major (("." : text) ++ minor))); [|by repeat split].
  destruct major as [|c1 major]; [done|].
  rewrite (proj2 (strip_prefix_spec ("." : text) _ _) eq_refl).
  rewrite (proj2 (span_digits_spec minor minor [])); [|by rewrite app_nil_r].
  by destruct minor as [|c2 minor].
Qed.

End ThreeParts.

Lemma version_needs_three_parts_witness : version_matcher ("Python 3.9" : text) = None.
Proof.
  apply (version_needs_three_parts ("3" : text) ("9" : text));
    (split; [discriminate | reflexivity]).
Defined.

(** ** A whole update *)

Section Replacement.

Context {V : Type} `{VersionOps V} `{UnicodeData} (w : World V).

Lemma discard_backup_run s t :
  fs_lib_backup (st_fs s) = Some t ->
  st_faults s = [] ->
  exists s', discard_backup s = (Return tt, s') /\
             st_fs s' = fs_set LibBackup None (st_fs s).
Proof.
  intros Hbak Hfaults.
  destruct s as [[lib backup bin tmp] out bar tr faults]. simpl in *. subst.
  eexists. split; reflexivity.
Qed.


End Replacement.


(** ** What [handle] comes to *)

Section HandleOutcomes.

Context {V : Type} `{VersionOps V} `{UnicodeData} (w : World V).

(** X22. In a recommended installation [handle] asks the release index
    once and then does one of two things.  Either it hands over to [update],
    with a candidate that the scan may stop at and whose version is not
    the installed one; or it prints one of its three messages, returns, and
    leaves every directory alone. *)
Theorem handle_outcomes (s : state) :
  nested_under (w_windows w) (w_file w) (w_home w) ->
  let packages := w_find_packages w (requested_version w) (w_option_preview w) in
  let asked :=
    with_trace (st_trace s ++ [(OpFindPackages (requested_version w) (w_option_preview w),
                                st_fs s)]) s in
  (exists r,
     In r packages /\ qualifies (w_option_preview w) r /\
     v_eqb (pkg_version r) (v_parse (w_version w)) = false /\
     handle w s = update w r asked) \/
  (exists text,
     In text ["No release found for the specified version"; "No new release found";
              "You are using the latest version"] /\
     handle w s = (Return tt, with_out (st_out s ++ [text]) asked)).
Proof.
  intros Hnested packages asked.
  apply relative_to_nested in Hnested as [rest Hrel].
  unfold handle, _check_recommended_installation, find_packages, bind.
  rewrite Hrel. simpl. fold (requested_version w). fold packages. fold asked.
  destruct packages as [|p0 l0] eqn:Ep.
  { right. eexists. split; [|reflexivity]. by left. }
  rewrite <- Ep.
  destruct (select_release (w_option_preview w) (sort packages)) as [r|] eqn:Hsel.
  - pose proof (select_release_Some _ _ _ Hsel) as [Hin Hq]. rewrite sort_In in Hin.
    destruct (v_eqb (pkg_version r) (v_parse (w_version w))) eqn:Hcur.
    + right. eexists. split; [|reflexivity]. right. right. by left.
    + left. by exists r.
  - right. eexists. split; [|reflexivity]. right. by left.
Qed.

End HandleOutcomes.

Lemma handle_outcomes_witness :
  (exists r,
     In r Demo.candidates /\ qualifies false r /\
     v_eqb (pkg_version r) (v_parse "1.1.0") = false /\
     handle Demo.good_world Demo.state0 =
       update Demo.good_world r
         (with_trace [(OpFindPackages ">=1.1.0" false, st_fs Demo.state0)] Demo.state0)) \/
  (exists text,
     In text ["No release found for the specified version"; "No new release found";
              "You are using the latest version"] /\
     handle Demo.good_world Demo.state0 =
       (Return tt,
        with_out [text]
          (with_trace [(OpFindPackages ">=1.1.0" false, st_fs Demo.state0)] Demo.state0))).
Proof. exact (handle_outcomes Demo.good_world Demo.state0 installed_file_nested). Defined.

(** * Properties of [env info] *)

Lemma with_out_nil s : with_out (st_out s ++ []) s = s.
Proof. destruct s. unfold with_out. simpl. by rewrite app_nil_r. Qed.

(** X23. [env info] never fails and does nothing but print: the file
    system, the record of operations and the progress bar are as they
    were.  Its status is 1 exactly when [--path] is asked outside a virtual
    environment, and then it prints nothing; [--path] inside one prints
    the path alone; without [--path] it prints six times. *)
Theorem env_info_only_prints (option_path : bool) (env : EnvInfoCommand.Env) (s : state) :
  exists lines,
    EnvInfoCommand.handle option_path env s =
      (Return (if option_path && negb (EnvInfoCommand.env_is_venv env) then Some 1 else None),
       with_out (st_out s ++ lines) s) /\
    (option_path = true ->
     lines = if EnvInfoCommand.env_is_venv env then [EnvInfoCommand.env_path env] else []) /\
    (option_path = false -> length lines = 6%nat).
Proof.
  unfold EnvInfoCommand.handle, EnvInfoCommand._display_complete_info.
  destruct option_path; [destruct (EnvInfoCommand.env_is_venv env)|]; cbn [andb negb].
  - exists [EnvInfoCommand.env_path env]. by repeat split.
  - exists []. rewrite with_out_nil. by repeat split.
  - eexists [_; _; _; _; _; _]. split; [|by split].
    unfold bind, line, ret, with_out. cbn [st_out st_fs st_bar st_trace st_faults fst snd].
    by rewrite <- !app_assoc.
Qed.

(** X24. What [env info] prints and returns depends on the environment
    only through what it shows: outside a virtual environment neither the
    path nor the sanity check plays a part, and of the version only the
    first three parts are ever read. *)
Theorem env_info_ignores (option_path : bool) (env1 env2 : EnvInfoCommand.Env) (s : state) :
  same_to_env_info env1 env2 ->
  EnvInfoCommand.handle option_path env1 s = EnvInfoCommand.handle option_path env2 s.
Proof.
  intros (Hvenv & Hversion & Himpl & Hplatform & Hos & Hbase & Hshown).
  unfold EnvInfoCommand.handle, EnvInfoCommand._display_complete_info.
  rewrite <- Hvenv, <- Hversion, <- Himpl, <- Hplatform, <- Hos, <- Hbase.
  destruct (EnvInfoCommand.env_is_venv env1).
  - destruct (Hshown eq_refl) as [<- <-]. done.
  - done.
Qed.

Lemma env_info_ignores_witness :
  EnvInfoCommand.handle false (EnvInfoCommand.system_env "/home/ann" true "final") empty_home =
  EnvInfoCommand.handle false (EnvInfoCommand.system_env "/home/bob" false "candidate") empty_home.
Proof.
  apply env_info_ignores. unfold same_to_env_info. simpl.
  repeat split; discriminate.
Defined.

Lemma env_info_only_prints_witness :
  exists lines,
    EnvInfoCommand.handle true (EnvInfoCommand.system_env "/home/ann" true "final") empty_home =
      (Return (Some 1), with_out (st_out empty_home ++ lines) empty_home) /\
    lines = [].
Proof.
  destruct (env_info_only_prints true (EnvInfoCommand.system_env "/home/ann" true "final")
              empty_home) as (lines & Hrun & Hpath & _).
  exists lines. split; [exact Hrun | exact (Hpath eq_refl)].
Defined.
